(** * siilo.storages.cmis: the CMIS storage and its staged file handle

    A shallow embedding of [src/siilo/storages/cmis.py].  The two classes of
    the module, [CmisStorage] and [CmisFile], are translated method by method
    into a state-and-exception monad; the remote repository (cmislib), the
    local file system ([io], [os.path], [tempfile], [shutil]) are the
    collaborators the methods call, and are modelled next to them. *)

From Stdlib Require Import String Ascii List Bool Arith Lia.
From Stdlib Require Import DecimalString.
Import ListNotations.
Local Open Scope string_scope.
Local Open Scope list_scope.

Set Implicit Arguments.

(** ** Python strings and [os.path] (posixpath) *)

Module Py.

(** [c in s] for a one-character [c]. *)
Fixpoint contains (c : ascii) (s : string) : bool :=
  match s with
  | EmptyString => false
  | String a s' => Ascii.eqb a c || contains c s'
  end.

(** [s.startswith(p)] *)
Fixpoint startswith (p s : string) : bool :=
  match p, s with
  | EmptyString, _ => true
  | String a p', String b s' => Ascii.eqb a b && startswith p' s'
  | String _ _, EmptyString => false
  end.

(** [s.endswith('/')] *)
Fixpoint endswith_slash (s : string) : bool :=
  match s with
  | EmptyString => false
  | String a EmptyString => Ascii.eqb a "/"
  | String _ s' => endswith_slash s'
  end.

(** [s.split(c)]: every occurrence of [c] separates two fields, so the
    result is never empty and may hold empty fields. *)
Fixpoint split (c : ascii) (s : string) : list string :=
  match s with
  | EmptyString => [EmptyString]
  | String a s' =>
      if Ascii.eqb a c then EmptyString :: split c s'
      else match split c s' with
           | f :: fs => String a f :: fs
           | [] => [String a EmptyString]
           end
  end.

(** [i = p.rfind('/') + 1; (p[:i], p[i:])]: the cut after the last slash. *)
Fixpoint rcut (p : string) : string * string :=
  match p with
  | EmptyString => (EmptyString, EmptyString)
  | String a p' =>
      match rcut p' with
      | (EmptyString, t) =>
          if Ascii.eqb a "/" then (String a EmptyString, t)
          else (EmptyString, String a t)
      | (h, t) => (String a h, t)
      end
  end.

(** [s.rstrip('/')] *)
Fixpoint rstrip_slash (s : string) : string :=
  match s with
  | EmptyString => EmptyString
  | String a s' =>
      match rstrip_slash s' with
      | EmptyString => if Ascii.eqb a "/" then EmptyString else String a EmptyString
      | r => String a r
      end
  end.

(** [os.path.basename] *)
Definition basename (p : string) : string := snd (rcut p).

(** [os.path.split]: the head loses its trailing slashes unless it consists
    of slashes only. *)
Definition os_path_split (p : string) : string * string :=
  let (head, tail) := rcut p in
  match rstrip_slash head with
  | EmptyString => (head, tail)
  | stripped => (stripped, tail)
  end.

(** [os.path.join(a, b)] *)
Definition os_path_join (a b : string) : string :=
  if startswith "/" b then b
  else match a with
       | EmptyString => b
       | _ => if endswith_slash a then a ++ b else a ++ "/" ++ b
       end.

(** The components a path resolves to, as the kernel (and
    [os.path.normpath]) reads an absolute path: empty and [.] components
    are dropped, [..] steps back to the parent (the root is its own
    parent). *)
Fixpoint resolve_components (acc : list string) (comps : list string) : list string :=
  match comps with
  | [] => acc
  | c :: cs =>
      if String.eqb c EmptyString || String.eqb c "." then resolve_components acc cs
      else if String.eqb c ".." then resolve_components (removelast acc) cs
      else resolve_components (acc ++ [c]) cs
  end.

Definition resolved (p : string) : list string :=
  resolve_components [] (split "/" p).

Fixpoint is_prefix (l1 l2 : list string) : bool :=
  match l1, l2 with
  | [], _ => true
  | a :: l1', b :: l2' => String.eqb a b && is_prefix l1' l2'
  | _ :: _, [] => false
  end.

(** [path] names something strictly below directory [dir]. *)
Definition strictly_inside (dir path : string) : bool :=
  let d := resolved dir in
  let p := resolved path in
  is_prefix d p && Nat.ltb (List.length d) (List.length p).

(** A last component that can name a regular file: the empty component,
    ["."] and [".."] always name a directory. *)
Definition is_filename (s : string) : bool :=
  negb (String.eqb s EmptyString || String.eqb s "." || String.eqb s "..").

End Py.

(** ** Exceptions *)

(** The exceptions of [cmislib.exceptions]: six direct subclasses of
    [CmisException], each carrying the HTTP status and the URL. *)
Inductive cmis_error : Type :=
| InvalidArgumentException (status : nat) (url : string)
| ObjectNotFoundException (status : nat) (url : string)
| NotSupportedException (status : nat) (url : string)
| PermissionDeniedException (status : nat) (url : string)
| RuntimeException (status : nat) (url : string)
| UpdateConflictException (status : nat) (url : string).

(** Everything a method of the module can raise.  [FileNotFoundError] is
    [siilo.exceptions.FileNotFoundError], which carries the [name] it was
    raised for; it is not the built-in of that name, which [io.open] raises
    as an [OSError]. *)
Inductive exn : Type :=
| Cmis (e : cmis_error)
| FileNotFoundError (name : string)
| OSError (errno : string)
| ValueError (msg : string)
| UnicodeDecodeError (codec : string)
| UnsupportedOperation (msg : string)
| AttributeError (attr : string).

Definition bytes : Type := list Byte.byte.

(** ** The state-and-exception monad

    A Python call either returns or raises, and what it did to the world
    before raising stays done: the state is threaded through both
    outcomes. *)

Definition M (S A : Type) : Type := S -> (exn + A) * S.

Definition ret {S A : Type} (a : A) : M S A := fun s => (inr a, s).

Definition raise {S A : Type} (e : exn) : M S A := fun s => (inl e, s).

Definition bind {S A B : Type} (c : M S A) (k : A -> M S B) : M S B :=
  fun s =>
    match c s with
    | (inl e, s') => (inl e, s')
    | (inr a, s') => k a s'
    end.

(** [try: c except ...: handler]; a handler re-raises what it does not
    catch. *)
Definition try_except {S A : Type} (c : M S A) (handler : exn -> M S A) : M S A :=
  fun s =>
    match c s with
    | (inl e, s') => handler e s'
    | (inr a, s') => (inr a, s')
    end.

Definition gets {S A : Type} (f : S -> A) : M S A := fun s => (inr (f s), s).

Definition modify {S : Type} (f : S -> S) : M S unit := fun s => (inr tt, f s).

Declare Scope monad_scope.
Delimit Scope monad_scope with monad.
Notation "x <- c ;; k" := (bind c (fun x => k))
  (at level 61, c at next level, right associativity) : monad_scope.
Notation "c ;; k" := (bind c (fun _ => k))
  (at level 61, right associativity) : monad_scope.
Local Open Scope monad_scope.

(** ** The local file system: [tempfile], [shutil] and [io] *)

Record filesystem : Type := {
  dirs : list string;              (* the temporary directories that exist *)
  files : list (string * bytes);   (* regular files, by path *)
  next_tmp : nat                   (* seed of the next [mkdtemp] name *)
}.

Module fs.

Fixpoint lookup (p : string) (l : list (string * bytes)) : option bytes :=
  match l with
  | [] => None
  | (q, c) :: l' => if String.eqb q p then Some c else lookup p l'
  end.

Definition remove (p : string) (l : list (string * bytes)) : list (string * bytes) :=
  filter (fun e => negb (String.eqb (fst e) p)) l.

Definition store (p : string) (c : bytes) (l : list (string * bytes)) :=
  (p, c) :: remove p l.

Definition is_dir (d : string) (f : filesystem) : bool :=
  existsb (String.eqb d) (dirs f).

Definition write_file (p : string) (c : bytes) (f : filesystem) : filesystem :=
  {| dirs := dirs f; files := store p c (files f); next_tmp := next_tmp f |}.

(** The name [tempfile.mkdtemp] picks: fresh for every seed. *)
Definition tmp_name (n : nat) : string :=
  "/tmp/tmp" ++ NilEmpty.string_of_uint (Nat.to_uint n).

(** [tempfile.mkdtemp()] *)
Definition mkdtemp (f : filesystem) : string * filesystem :=
  let d := tmp_name (next_tmp f) in
  (d, {| dirs := d :: dirs f; files := files f; next_tmp := S (next_tmp f) |}).

(** [shutil.rmtree(d)]: the directory and all that is below it go; a
    directory that does not exist is an error. *)
Definition rmtree (d : string) (f : filesystem) : (exn + unit) * filesystem :=
  if is_dir d f then
    (inr tt,
     {| dirs := filter (fun x => negb (String.eqb d x)) (dirs f);
        files := filter (fun e => negb (Py.startswith (d ++ "/") (fst e))) (files f);
        next_tmp := next_tmp f |})
  else (inl (OSError "ENOENT"), f).

End fs.

(** ** [io]: buffered local streams

    The stream writes through to the file: what a buffered stream holds
    back until [flush] or [close] is not observed by the module, which
    only looks at the temporary file after closing the stream.

    A stream opened with [b] in its mode is a binary one and carries the
    bytes of the file.  Any other stream is a text wrapper: what it is
    handed and what it hands out is text, which stands here as the bytes
    that encode it.  A text stream writes these bytes as they are (on
    POSIX a newline is written as a newline); when it reads, it decodes
    the bytes of the file, which fails on bytes that are no text, and
    hands out every line ending, [\r\n] and [\r] as well, as [\n].
    The codec is UTF-8, the default of Python 3 on POSIX, whatever
    encoding the stream names; other codecs are not modelled. *)

Module io.

Record open_mode : Type := {
  creating : bool; reading : bool; writing : bool; appending : bool;
  updating : bool; text : bool; binary : bool
}.

Fixpoint nodupb (l : list ascii) : bool :=
  match l with
  | [] => true
  | a :: l' => negb (existsb (Ascii.eqb a) l') && nodupb l'
  end.

Definition b2n (b : bool) : nat := if b then 1 else 0.

(** The mode check of [io.open]: letters of [axrwb+t] only, none twice, not
    both [t] and [b], exactly one of [x], [r], [w], [a]. *)
Definition parse_mode (mode : string) : option open_mode :=
  let cs := list_ascii_of_string mode in
  let has c := Py.contains c mode in
  if negb (forallb (fun c => Py.contains c "axrwb+t") cs) || negb (nodupb cs)
  then None
  else if has "t"%char && has "b"%char then None
  else if negb (b2n (has "x"%char) + b2n (has "r"%char)
                + b2n (has "w"%char) + b2n (has "a"%char) =? 1)%nat
  then None
  else Some {| creating := has "x"%char; reading := has "r"%char;
               writing := has "w"%char; appending := has "a"%char;
               updating := has "+"%char; text := has "t"%char;
               binary := has "b"%char |}.

(** A file object. *)
Record stream : Type := {
  name : string;
  mode : string;
  encoding : option string;
  can_read : bool;
  can_write : bool;
  at_end : bool;       (* opened for appending: every write goes to the end *)
  pos : nat;
  closed : bool
}.

Definition content (s : stream) (f : filesystem) : bytes :=
  match fs.lookup (name s) (files f) with
  | Some c => c
  | None => []
  end.

(** What [io.open] does once the mode and the path have been accepted:
    [r] needs the file, [x] refuses it, [w] empties it, [a] starts at its
    end. *)
Definition open_file (path mode : string) (enc : option string) (m : open_mode)
  : M filesystem stream :=
  fun f =>
    let st p := {| name := path; mode := mode; encoding := enc;
                   can_read := reading m || updating m;
                   can_write := negb (reading m) || updating m;
                   at_end := appending m; pos := p; closed := false |} in
    match fs.lookup path (files f) with
    | Some c =>
        if creating m then (inl (OSError "EEXIST"), f)
        else if writing m then (inr (st 0), fs.write_file path [] f)
        else if appending m then (inr (st (length c)), f)
        else (inr (st 0), f)
    | None =>
        if reading m then (inl (OSError "ENOENT"), f)
        else (inr (st 0), fs.write_file path [] f)
    end.

(** [io.open(path, mode=mode, encoding=encoding)]: the directory of
    [path] has to exist, and its last component has to be able to name a
    file. *)
Definition open (path mode : string) (enc : option string)
  : M filesystem stream :=
  fun f =>
    match parse_mode mode with
    | None => (inl (ValueError "invalid mode"), f)
    | Some m =>
        if binary m && (match enc with Some _ => true | None => false end)
        then (inl (ValueError "binary mode doesn't take an encoding argument"), f)
        else
          let (head, tail) := Py.rcut path in
          if negb (fs.is_dir (Py.rstrip_slash head) f)
          then (inl (OSError "ENOENT"), f)
          else if negb (Py.is_filename tail)
          then (inl (OSError "EISDIR"), f)
          else open_file path mode enc m f
    end.

(** A stream opened with [b] in its mode is binary. *)
Definition is_binary (s : stream) : bool := Py.contains "b" (mode s).

(** What most operations raise on a closed stream. *)
Definition closed_file : exn := ValueError "I/O operation on closed file.".

(** What [s.write] raises on a stream that is closed or cannot write.  A
    binary stream that cannot write says so whether it is open or closed;
    a text stream looks at [closed] first. *)
Definition write_error (s : stream) : exn :=
  if is_binary s then
    if can_write s then ValueError "write to closed file"
    else UnsupportedOperation "write"
  else
    if closed s then closed_file else UnsupportedOperation "not writable".

(** [s.write(data)]: at the position, or at the end when appending. *)
Definition write (data : bytes) (s : stream) : M filesystem stream :=
  fun f =>
    if closed s || negb (can_write s) then (inl (write_error s), f)
    else
      let c := content s f in
      let p := if at_end s then length c else pos s in
      let c' := firstn p c ++ data ++ skipn (p + length data) c in
      (inr {| name := name s; mode := mode s; encoding := encoding s;
              can_read := can_read s; can_write := can_write s;
              at_end := at_end s; pos := p + length data; closed := closed s |},
       fs.write_file (name s) c' f).

(** The byte [b] lies in [lo..hi]. *)
Definition in_range (lo hi : nat) (b : Byte.byte) : bool :=
  Nat.leb lo (Byte.to_nat b) && Nat.leb (Byte.to_nat b) hi.

(** Well-formed UTF-8 (RFC 3629): [need] continuation bytes are still
    due, the next of them within [lo..hi].  Overlong forms, surrogates and
    code points past U+10FFFF are no text. *)
Fixpoint utf8_from (need lo hi : nat) (l : bytes) : bool :=
  match l with
  | [] => Nat.eqb need 0
  | b :: rest =>
      match need with
      | 0 =>
          if in_range 0 127 b then utf8_from 0 128 191 rest
          else if in_range 194 223 b then utf8_from 1 128 191 rest
          else if in_range 224 224 b then utf8_from 2 160 191 rest
          else if in_range 225 236 b || in_range 238 239 b
          then utf8_from 2 128 191 rest
          else if in_range 237 237 b then utf8_from 2 128 159 rest
          else if in_range 240 240 b then utf8_from 3 144 191 rest
          else if in_range 241 243 b then utf8_from 3 128 191 rest
          else if in_range 244 244 b then utf8_from 3 128 143 rest
          else false
      | S k => in_range lo hi b && utf8_from k 128 191 rest
      end
  end.

Definition utf8 (l : bytes) : bool := utf8_from 0 128 191 l.

(** Universal newlines: [\r\n] and a lone [\r] are read as [\n]. *)
Fixpoint universal_newlines (l : bytes) : bytes :=
  match l with
  | [] => []
  | b :: rest =>
      if Byte.eqb b Byte.x0d then
        match rest with
        | b' :: rest' =>
            if Byte.eqb b' Byte.x0a then Byte.x0a :: universal_newlines rest'
            else Byte.x0a :: universal_newlines rest
        | [] => [Byte.x0a]
        end
      else b :: universal_newlines rest
  end.

(** What [s.read] raises on a stream that is closed or cannot read. *)
Definition read_error (s : stream) : exn :=
  if is_binary s then
    if can_read s then ValueError "read of closed file"
    else UnsupportedOperation "read"
  else
    if closed s then closed_file else UnsupportedOperation "not readable".

(** [s.read()]: all that is left from the position; a text stream decodes
    it and translates the line endings. *)
Definition read (s : stream) : M filesystem (bytes * stream) :=
  fun f =>
    if closed s || negb (can_read s) then (inl (read_error s), f)
    else
      let c := content s f in
      let rest := skipn (pos s) c in
      let s' := {| name := name s; mode := mode s; encoding := encoding s;
                   can_read := can_read s; can_write := can_write s;
                   at_end := at_end s; pos := Nat.max (pos s) (length c);
                   closed := closed s |} in
      if is_binary s then (inr (rest, s'), f)
      else if utf8 rest then (inr (universal_newlines rest, s'), f)
      else (inl (UnicodeDecodeError "utf-8"), f).

(** [for line in lines: s.write(line)] *)
Fixpoint write_lines (lines : list bytes) (s : stream) : M filesystem stream :=
  match lines with
  | [] => ret s
  | l :: ls => s' <- write l s ;; write_lines ls s'
  end.

(** [s.writelines(lines)]: a closed stream refuses before the first
    line. *)
Definition writelines (lines : list bytes) (s : stream) : M filesystem stream :=
  if closed s then raise closed_file else write_lines lines s.

(** [s.close()]: closing a closed stream is allowed. *)
Definition close (s : stream) : stream :=
  {| name := name s; mode := mode s; encoding := encoding s;
     can_read := can_read s; can_write := can_write s;
     at_end := at_end s; pos := pos s; closed := true |}.

End io.

(** ** The remote repository (cmislib)

    The operations of [cmislib.Repository] and of the objects it hands out
    that the module calls.  The server's state is threaded through every
    call, a call may raise a [cmis_error], and object handles are values of
    an abstract type.  [getTree] stands for [getTree().getResults()], the
    sequence of child objects of a folder. *)

Record Repository : Type := {
  rstate : Type;
  robj : Type;
  getObjectByPath : string -> rstate -> (cmis_error + robj) * rstate;
  getContentStream : robj -> rstate -> (cmis_error + list bytes) * rstate;
  setContentStream : robj -> bytes -> rstate -> (cmis_error + unit) * rstate;
  delete_object : robj -> bool -> rstate -> (cmis_error + unit) * rstate;
  rootFolder : rstate -> robj;
  getTree : robj -> rstate -> (cmis_error + list robj) * rstate;
  getName : robj -> rstate -> (cmis_error + string) * rstate;
  createFolder : robj -> string -> rstate -> (cmis_error + robj) * rstate;
  createDocument : robj -> string -> bytes -> rstate -> (cmis_error + robj) * rstate
}.

(** The calls that leave the process, in the order they are issued. *)
Inductive event (O : Type) : Type :=
| Call_getObjectByPath (path : string)
| Call_getContentStream (o : O)
| Call_setContentStream (o : O) (content : bytes)
| Call_delete (o : O) (allVersions : bool)
| Call_getTree (o : O)
| Call_getName (o : O)
| Call_createFolder (parent : O) (name : string)
| Call_createDocument (parent : O) (name : string) (content : bytes)
| Call_mkdtemp (dir : string)
| Call_rmtree (dir : string).

Arguments Call_getObjectByPath {O} path.
Arguments Call_mkdtemp {O} dir.
Arguments Call_rmtree {O} dir.

Section World.

Variable R : Repository.

Record world : Type := {
  repo : rstate R;
  disk : filesystem;
  calls : list (event (robj R))
}.

Definition logged (e : event (robj R)) (w : world) : world :=
  {| repo := repo w; disk := disk w; calls := calls w ++ [e] |}.

(** A call to the repository: logged when issued, whatever its outcome. *)
Definition call {A : Type} (e : event (robj R))
    (op : rstate R -> (cmis_error + A) * rstate R) : M world A :=
  fun w =>
    let (r, s') := op (repo w) in
    (match r with inl err => inl (Cmis err) | inr a => inr a end,
     {| repo := s'; disk := disk w; calls := calls w ++ [e] |}).

(** An operation on the local file system. *)
Definition local {A : Type} (op : M filesystem A) : M world A :=
  fun w =>
    let (r, f') := op (disk w) in
    (r, {| repo := repo w; disk := f'; calls := calls w |}).

Definition mkdtemp : M world string :=
  fun w =>
    let (d, f') := fs.mkdtemp (disk w) in
    (inr d, {| repo := repo w; disk := f'; calls := calls w ++ [Call_mkdtemp d] |}).

Definition rmtree (d : string) : M world unit :=
  fun w =>
    let (r, f') := fs.rmtree d (disk w) in
    (r, {| repo := repo w; disk := f'; calls := calls w ++ [Call_rmtree d] |}).

End World.

Arguments repo {R} w.
Arguments disk {R} w.
Arguments calls {R} w.

(** ** [class CmisStorage]

    The storage holds the repository and nothing else, so its methods act
    on the world. *)

Section CmisStorage.

Variable R : Repository.

Definition _get_object (name : string) : M (world R) (robj R) :=
  try_except
    (call (Call_getObjectByPath name) (getObjectByPath R name))
    (fun e => match e with
              | Cmis (ObjectNotFoundException _ _) => raise (FileNotFoundError name)
              | _ => raise e
              end).

Definition delete (name : string) (all_versions : bool) : M (world R) unit :=
  obj <- _get_object name ;;
  try_except
    (call (Call_delete obj all_versions) (delete_object R obj all_versions))
    (fun e => match e with
              | Cmis (RuntimeException _ _) => raise (FileNotFoundError name)
              | _ => raise e
              end).

Definition exists_ (name : string) : M (world R) bool :=
  try_except
    (_ <- _get_object name ;; ret true)
    (fun e => match e with
              | FileNotFoundError _ => ret false
              | _ => raise e
              end).

End CmisStorage.

(** ** [class CmisFile]

    The attributes of a handle.  [cmis_object] is the attribute [__init__]
    sets to [None] and the class documents; [cmis_obj] is the attribute
    [_download] and [_upload] assign.  An attribute that has not been
    assigned yet is [None] here and reading it raises [AttributeError];
    [cmis_object] is the exception, its [None] is Python's. *)

Record CmisFile (R : Repository) : Type := {
  cmis_object : option (robj R);
  cmis_obj : option (robj R);
  _name : string;
  _should_download : bool;
  _has_changed : bool;
  _temporary_directory : option string;
  _stream : option io.stream
}.

Section CmisFile.

Variable R : Repository.

Definition self_state : Type := (CmisFile R * world R)%type.

Definition attr {A : Type} (a : string) (f : CmisFile R -> option A) : M self_state A :=
  fun s =>
    match f (fst s) with
    | Some v => (inr v, s)
    | None => (inl (AttributeError a), s)
    end.

Definition this {A : Type} (f : CmisFile R -> A) : M self_state A :=
  gets (fun s => f (fst s)).

Definition assign (f : CmisFile R -> CmisFile R) : M self_state unit :=
  modify (fun s => (f (fst s), snd s)).

(** A call that does not touch [self]. *)
Definition outside {A : Type} (c : M (world R) A) : M self_state A :=
  fun s => let (r, w') := c (snd s) in (r, (fst s, w')).

Definition set_cmis_obj (o : robj R) (h : CmisFile R) : CmisFile R :=
  {| cmis_object := cmis_object h; cmis_obj := Some o; _name := _name h;
     _should_download := _should_download h; _has_changed := _has_changed h;
     _temporary_directory := _temporary_directory h; _stream := _stream h |}.

Definition set_has_changed (b : bool) (h : CmisFile R) : CmisFile R :=
  {| cmis_object := cmis_object h; cmis_obj := cmis_obj h; _name := _name h;
     _should_download := _should_download h; _has_changed := b;
     _temporary_directory := _temporary_directory h; _stream := _stream h |}.

Definition set_temporary_directory (d : string) (h : CmisFile R) : CmisFile R :=
  {| cmis_object := cmis_object h; cmis_obj := cmis_obj h; _name := _name h;
     _should_download := _should_download h; _has_changed := _has_changed h;
     _temporary_directory := Some d; _stream := _stream h |}.

Definition set_stream (st : io.stream) (h : CmisFile R) : CmisFile R :=
  {| cmis_object := cmis_object h; cmis_obj := cmis_obj h; _name := _name h;
     _should_download := _should_download h; _has_changed := _has_changed h;
     _temporary_directory := _temporary_directory h; _stream := Some st |}.

Definition _make_temporary_directory : M self_state unit :=
  d <- outside (mkdtemp (R:=R)) ;;
  assign (set_temporary_directory d).

Definition _remove_temporary_directory : M self_state unit :=
  d <- attr "_temporary_directory" (@_temporary_directory R) ;;
  outside (rmtree d).

Definition name : M self_state string := this (@_name R).

Definition _temporary_filename : M self_state string :=
  d <- attr "_temporary_directory" (@_temporary_directory R) ;;
  n <- name ;;
  ret (Py.os_path_join d (Py.basename n)).

(** [for data in chunks: f.write(data)] *)
Fixpoint write_each (chunks : list bytes) (f : io.stream) : M filesystem io.stream :=
  match chunks with
  | [] => ret f
  | data :: rest => f' <- io.write data f ;; write_each rest f'
  end.

Definition _download : M self_state unit :=
  tmp <- _temporary_filename ;;
  f <- outside (local (io.open tmp "wb" None)) ;;
  n <- name ;;
  o <- outside (_get_object n) ;;
  assign (set_cmis_obj o) ;;
  chunks <- outside (call (Call_getContentStream o) (getContentStream R o)) ;;
  _ <- outside (local (write_each chunks f)) ;;
  ret tt.

Definition _download_or_mark_changed (mode : string) : M self_state unit :=
  try_except _download
    (fun e => match e with
              | FileNotFoundError _ =>
                  if Py.contains "a" mode then assign (set_has_changed true)
                  else raise e
              | _ => raise e
              end).

Definition _open (mode : string) (encoding : option string) : M self_state unit :=
  _make_temporary_directory ;;
  should_download <- this (@_should_download R) ;;
  (if should_download then _download_or_mark_changed mode else ret tt) ;;
  tmp <- _temporary_filename ;;
  st <- outside (local (io.open tmp mode encoding)) ;;
  assign (set_stream st).

(** The constructor: the caller gets the object only when [__init__]
    returns. *)
Definition __init__ (name mode : string) (encoding : option string)
  : M (world R) (CmisFile R) :=
  let name := if Py.startswith "/" name then name else ("/" ++ name)%string in
  let self := {| cmis_object := None; cmis_obj := None; _name := name;
                 _should_download := Py.contains "r" mode || Py.contains "a" mode;
                 _has_changed := Py.contains "w" mode;
                 _temporary_directory := None; _stream := None |} in
  fun w =>
    match _open mode encoding (self, w) with
    | (inl e, (_, w')) => (inl e, w')
    | (inr _, (self', w')) => (inr self', w')
    end.

(** [CmisStorage.open] *)
Definition open (name mode : string) (encoding : option string)
  : M (world R) (CmisFile R) :=
  __init__ name mode encoding.

(** [for d in rs.getResults(): if d.getName() == dirname: folder_obj = d;
    break] *)
Fixpoint find_folder (dirname : string) (results : list (robj R))
  : M (world R) (option (robj R)) :=
  match results with
  | [] => ret None
  | d :: rest =>
      n <- call (Call_getName d) (getName R d) ;;
      if String.eqb n dirname then ret (Some d) else find_folder dirname rest
  end.

(** [for dirname in dirpath.split('/'): if dirname: ...]; a repository
    object is truthy, so [not folder_obj] means no folder was found. *)
Fixpoint make_folders (obj : robj R) (dirnames : list string)
  : M (world R) (robj R) :=
  match dirnames with
  | [] => ret obj
  | dirname :: rest =>
      if negb (String.eqb dirname EmptyString) then
        rs <- call (Call_getTree obj) (getTree R obj) ;;
        folder_obj <- find_folder dirname rs ;;
        obj' <- match folder_obj with
                | None => call (Call_createFolder obj dirname) (createFolder R obj dirname)
                | Some d => ret d
                end ;;
        make_folders obj' rest
      else make_folders obj rest
  end.

(** What the repository reads from the file object it is handed. *)
Definition read_file (f : io.stream) : M (world R) bytes :=
  r <- local (io.read f) ;; ret (fst r).

Definition _upload : M self_state unit :=
  tmp <- _temporary_filename ;;
  f <- outside (local (io.open tmp "rb" None)) ;;
  try_except
    (n <- name ;;
     o <- outside (_get_object n) ;;
     assign (set_cmis_obj o) ;;
     content <- outside (read_file f) ;;
     outside (call (Call_setContentStream o content) (setContentStream R o content)))
    (fun e => match e with
              | FileNotFoundError _ =>
                  obj <- outside (gets (fun w => rootFolder R (repo w))) ;;
                  n <- name ;;
                  let (dirpath, filename) := Py.os_path_split n in
                  obj <- outside (make_folders obj (Py.split "/" dirpath)) ;;
                  content <- outside (read_file f) ;;
                  d <- outside (call (Call_createDocument obj filename content)
                                     (createDocument R obj filename content)) ;;
                  assign (set_cmis_obj d)
              | _ => raise e
              end).

(** [closed = property(lambda self: self._stream.closed)] *)
Definition closed : M self_state bool :=
  st <- attr "_stream" (@_stream R) ;;
  ret (io.closed st).

Definition close : M self_state unit :=
  c <- closed ;;
  if negb c then
    st <- attr "_stream" (@_stream R) ;;
    assign (set_stream (io.close st)) ;;
    has_changed <- this (@_has_changed R) ;;
    (if has_changed then _upload else ret tt) ;;
    _remove_temporary_directory
  else ret tt.

Definition read : M self_state bytes :=
  st <- attr "_stream" (@_stream R) ;;
  r <- outside (local (io.read st)) ;;
  assign (set_stream (snd r)) ;;
  ret (fst r).

Definition write (data : bytes) : M self_state unit :=
  assign (set_has_changed true) ;;
  st <- attr "_stream" (@_stream R) ;;
  st' <- outside (local (io.write data st)) ;;
  assign (set_stream st').

Definition writelines (lines : list bytes) : M self_state unit :=
  assign (set_has_changed true) ;;
  st <- attr "_stream" (@_stream R) ;;
  st' <- outside (local (io.writelines lines st)) ;;
  assign (set_stream st').

Definition __enter__ : M self_state unit := ret tt.

Definition __exit__ : M self_state unit := close.

(** What a caller does with an open handle between [open] and [close]. *)
Inductive operation : Type :=
| Read
| Write (data : bytes)
| Writelines (lines : list bytes).

Definition perform (op : operation) : M self_state unit :=
  match op with
  | Read => _ <- read ;; ret tt
  | Write data => write data
  | Writelines lines => writelines lines
  end.

(** A caller that goes on after an operation raised (it caught the
    exception): the handle and the world are as the operation left them. *)
Fixpoint perform_all (ops : list operation) (s : self_state) : self_state :=
  match ops with
  | [] => s
  | op :: rest => perform_all rest (snd (perform op s))
  end.

End CmisFile.

(** ** A repository to run the module against

    Modelled from the spec: the Remote Repository, a path-addressed store of
    folders and documents.  The server (and cmislib, its client) is not part
    of this module; this instance follows the capability list of the spec's
    section 6: lookup by path fails with the not-found signal, a folder
    enumerates its child folders, documents hold a content stream, and
    deleting what cannot be deleted is a runtime failure.  Objects are
    numbered in creation order, the root folder is object 0. *)

Module TreeRepo.

Inductive kind : Type :=
| Folder
| Document (content : bytes).

Record node : Type := {
  parent : nat;
  nname : string;
  nkind : kind;
  live : bool
}.

Definition state : Type := list node.

Definition root : node :=
  {| parent := 0; nname := EmptyString; nkind := Folder; live := true |}.

Definition is_folder (n : node) : bool :=
  match nkind n with Folder => true | Document _ => false end.

(** The live children of object [o], with their numbers. *)
Definition children (o : nat) (s : state) : list (nat * node) :=
  filter (fun e => live (snd e) && Nat.eqb (parent (snd e)) o
                   && negb (Nat.eqb (fst e) 0))
         (combine (seq 0 (length s)) s).

Definition child_named (o : nat) (n : string) (s : state) : option nat :=
  match filter (fun e => String.eqb (nname (snd e)) n) (children o s) with
  | e :: _ => Some (fst e)
  | [] => None
  end.

Fixpoint walk (o : nat) (segs : list string) (s : state) : option nat :=
  match segs with
  | [] => Some o
  | seg :: rest =>
      if String.eqb seg EmptyString then walk o rest s
      else match child_named o seg s with
           | Some c => walk c rest s
           | None => None
           end
  end.

Definition get (o : nat) (s : state) : option node :=
  match nth_error s o with
  | Some n => if live n then Some n else None
  | None => None
  end.

Definition set (o : nat) (n : node) (s : state) : state :=
  firstn o s ++ n :: skipn (S o) s.

Definition getObjectByPath (path : string) (s : state) : (cmis_error + nat) * state :=
  match walk 0 (Py.split "/" path) s with
  | Some o => (inr o, s)
  | None => (inl (ObjectNotFoundException 404 path), s)
  end.

(** The content arrives in two chunks. *)
Definition getContentStream (o : nat) (s : state) : (cmis_error + list bytes) * state :=
  match get o s with
  | Some {| nkind := Document c |} => (inr [firstn 4 c; skipn 4 c], s)
  | Some _ => (inl (NotSupportedException 405 "content"), s)
  | None => (inl (ObjectNotFoundException 404 "content"), s)
  end.

Definition setContentStream (o : nat) (b : bytes) (s : state) : (cmis_error + unit) * state :=
  match get o s with
  | Some {| parent := p; nname := n; nkind := Document _ |} =>
      (inr tt, set o {| parent := p; nname := n; nkind := Document b; live := true |} s)
  | Some _ => (inl (NotSupportedException 405 "content"), s)
  | None => (inl (ObjectNotFoundException 404 "content"), s)
  end.

(** The root folder cannot be deleted, and neither can an object that is
    already gone: the server answers both with status 500. *)
Definition delete_object (o : nat) (all_versions : bool) (s : state) : (cmis_error + unit) * state :=
  match get o s with
  | Some n =>
      if Nat.eqb o 0 then (inl (RuntimeException 500 "delete"), s)
      else (inr tt, set o {| parent := parent n; nname := nname n;
                             nkind := nkind n; live := false |} s)
  | None => (inl (RuntimeException 500 "delete"), s)
  end.

Definition getTree (o : nat) (s : state) : (cmis_error + list nat) * state :=
  match get o s with
  | Some {| nkind := Folder |} =>
      (inr (map fst (filter (fun e => is_folder (snd e)) (children o s))), s)
  | Some _ => (inl (NotSupportedException 405 "tree"), s)
  | None => (inl (ObjectNotFoundException 404 "tree"), s)
  end.

Definition getName (o : nat) (s : state) : (cmis_error + string) * state :=
  match get o s with
  | Some n => (inr (nname n), s)
  | None => (inl (ObjectNotFoundException 404 "name"), s)
  end.

Definition create (k : kind) (o : nat) (n : string) (s : state) : (cmis_error + nat) * state :=
  match get o s with
  | Some {| nkind := Folder |} =>
      match child_named o n s with
      | Some _ => (inl (UpdateConflictException 409 n), s)
      | None => (inr (length s),
                 s ++ [{| parent := o; nname := n; nkind := k; live := true |}])
      end
  | Some _ => (inl (NotSupportedException 405 n), s)
  | None => (inl (ObjectNotFoundException 404 n), s)
  end.

Definition repository : Repository :=
  @Build_Repository state nat
    getObjectByPath getContentStream setContentStream delete_object
    (fun _ => 0) getTree getName
    (create Folder) (fun o n b => create (Document b) o n).

(** The same store behind a path index that lags behind deletions: a
    lookup still finds an object the server has already removed. *)
Definition listed (o : nat) (s : state) : list (nat * node) :=
  filter (fun e => Nat.eqb (parent (snd e)) o && negb (Nat.eqb (fst e) 0))
         (combine (seq 0 (length s)) s).

Fixpoint walk_listed (o : nat) (segs : list string) (s : state) : option nat :=
  match segs with
  | [] => Some o
  | seg :: rest =>
      if String.eqb seg EmptyString then walk_listed o rest s
      else match filter (fun e => String.eqb (nname (snd e)) seg) (listed o s) with
           | e :: _ => walk_listed (fst e) rest s
           | [] => None
           end
  end.

Definition getObjectByPath_listed (path : string) (s : state)
  : (cmis_error + nat) * state :=
  match walk_listed 0 (Py.split "/" path) s with
  | Some o => (inr o, s)
  | None => (inl (ObjectNotFoundException 404 path), s)
  end.

Definition lagging : Repository :=
  @Build_Repository state nat
    getObjectByPath_listed getContentStream setContentStream delete_object
    (fun _ => 0) getTree getName
    (create Folder) (fun o n b => create (Document b) o n).

Definition empty_disk : filesystem :=
  {| dirs := []; files := []; next_tmp := 0 |}.

Definition start (s : state) : world repository :=
  @Build_world repository s empty_disk [].

(** A repository that holds the folder [/docs] and the document
    [/docs/a.txt]. *)
Definition sample : state :=
  [ root;
    {| parent := 0; nname := "docs"; nkind := Folder; live := true |};
    {| parent := 1; nname := "a.txt";
       nkind := Document (list_byte_of_string "Quick brown fox"); live := true |} ].

(** The sample after the server removed [/docs/a.txt]. *)
Definition sample_removed : state := snd (delete_object 2 false sample).

End TreeRepo.

(** ** What the properties talk about *)

(** A directory name that joins with a slash. *)
Definition plain_dir (d : string) : Prop :=
  d <> EmptyString /\ Py.endswith_slash d = false.

(** The remote path of the handle [storage.open(name, ...)] makes: [name]
    with a leading slash. *)
Definition remote_path (name : string) : string :=
  if Py.startswith "/" name then name else ("/" ++ name)%string.

(** The directory segments of a remote path, the components before the
    last one that are not empty, and its final filename. *)
Definition nonempty (seg : string) : bool := negb (String.eqb seg EmptyString).

Definition directory_segments (path : string) : list string :=
  filter nonempty (removelast (Py.split "/" path)).

Definition final_filename (path : string) : string :=
  last (Py.split "/" path) EmptyString.

Section Protocol.

Variable R : Repository.

(** The temporary file of a handle whose directory is [d]. *)
Definition tmpfile (h : CmisFile R) (d : string) : string :=
  (d ++ "/" ++ Py.basename (_name h))%string.

(** The handle's temporary directory [d] exists and holds its temporary
    file, with content [c]. *)
Definition staged (h : CmisFile R) (w : world R) (d : string) (c : bytes) : Prop :=
  _temporary_directory h = Some d
  /\ plain_dir d
  /\ fs.is_dir d (disk w) = true
  /\ Py.is_filename (Py.basename (_name h)) = true
  /\ fs.lookup (tmpfile h d) (files (disk w)) = Some c.

(** An open handle: staged, with an open stream on its temporary file. *)
Definition open_handle (h : CmisFile R) (w : world R) : Prop :=
  exists d c st,
    staged h w d c /\ _stream h = Some st
    /\ io.name st = tmpfile h d /\ io.closed st = false.

(** *** The creation protocol, in the words of the specification

    Start at the root folder; for each directory segment in order,
    enumerate the children of the current folder and compare names; descend
    into the first child of that name, or create the folder and descend
    into the new one. *)

Inductive creation_step : Type :=
| Existing (segment : string) (child : robj R)
| Missing (segment : string) (parent new : robj R).

Definition step_segment (st : creation_step) : string :=
  match st with
  | Existing seg _ => seg
  | Missing seg _ _ => seg
  end.

(** The first of [children] whose name is [segment], if any. *)
Inductive first_named (segment : string)
  : list (robj R) -> rstate R -> option (robj R) -> rstate R -> Prop :=
| first_named_none s :
    first_named segment [] s None s
| first_named_here child rest s s' :
    getName R child s = (inr segment, s') ->
    first_named segment (child :: rest) s (Some child) s'
| first_named_later child rest s n s' found s'' :
    getName R child s = (inr n, s') ->
    n <> segment ->
    first_named segment rest s' found s'' ->
    first_named segment (child :: rest) s found s''.

Inductive creation_protocol
  : robj R -> list string -> rstate R ->
    list creation_step -> robj R -> rstate R -> Prop :=
| protocol_done folder s :
    creation_protocol folder [] s [] folder s
| protocol_descend folder segment rest s children s1 child s2 steps last s3 :
    getTree R folder s = (inr children, s1) ->
    first_named segment children s1 (Some child) s2 ->
    creation_protocol child rest s2 steps last s3 ->
    creation_protocol folder (segment :: rest) s
      (Existing segment child :: steps) last s3
| protocol_create folder segment rest s children s1 s2 new s3 steps last s4 :
    getTree R folder s = (inr children, s1) ->
    first_named segment children s1 None s2 ->
    createFolder R folder segment s2 = (inr new, s3) ->
    creation_protocol new rest s3 steps last s4 ->
    creation_protocol folder (segment :: rest) s
      (Missing segment folder new :: steps) last s4.

(** The folders the protocol had to create: where, and under which name. *)
Definition missing_segments (steps : list creation_step) : list (robj R * string) :=
  flat_map (fun st => match st with
                      | Missing seg parent _ => [(parent, seg)]
                      | Existing _ _ => []
                      end) steps.

(** *** Reading the log *)

Definition folder_creations (evs : list (event (robj R))) : list (robj R * string) :=
  flat_map (fun e => match e with
                     | Call_createFolder parent n => [(parent, n)]
                     | _ => []
                     end) evs.

Definition document_creations (evs : list (event (robj R)))
  : list (robj R * string * bytes) :=
  flat_map (fun e => match e with
                     | Call_createDocument parent n c => [(parent, n, c)]
                     | _ => []
                     end) evs.

Definition content_replacements (evs : list (event (robj R)))
  : list (robj R * bytes) :=
  flat_map (fun e => match e with
                     | Call_setContentStream o c => [(o, c)]
                     | _ => []
                     end) evs.

Definition resolve_attempts (evs : list (event (robj R))) : list string :=
  flat_map (fun e => match e with
                     | Call_getObjectByPath p => [p]
                     | _ => []
                     end) evs.

Definition removals (evs : list (event (robj R))) : list string :=
  flat_map (fun e => match e with
                     | Call_rmtree d => [d]
                     | _ => []
                     end) evs.

(** The calls of the folder walk: enumerations, name queries and folder
    creations. *)
Definition is_walk_call (e : event (robj R)) : bool :=
  match e with
  | Call_getTree _ | Call_getName _ | Call_createFolder _ _ => true
  | _ => false
  end.

Definition walk_only (evs : list (event (robj R))) : Prop :=
  forallb is_walk_call evs = true.

(** Two handles that differ at most in [cmis_obj]. *)
Definition same_handle (h h' : CmisFile R) : Prop :=
  cmis_object h' = cmis_object h /\ _name h' = _name h
  /\ _should_download h' = _should_download h
  /\ _has_changed h' = _has_changed h
  /\ _temporary_directory h' = _temporary_directory h
  /\ _stream h' = _stream h.


End Protocol.

Arguments first_named {R} segment _ _ _ _.
Arguments creation_protocol {R} _ _ _ _ _ _.
Arguments missing_segments {R} steps.
Arguments folder_creations {R} evs.
Arguments document_creations {R} evs.
Arguments content_replacements {R} evs.
Arguments resolve_attempts {R} evs.
Arguments removals {R} evs.
Arguments walk_only {R} evs.

(** The first claim about [close], as the specification states it: the
    temporary directory of a changed handle is gone after [close], however
    [close] ends. *)
Definition cleanup_survives_upload_failure : Prop :=
  forall (R : Repository) (h h' : CmisFile R) (w w' : world R) st d r,
    _stream h = Some st -> io.closed st = false ->
    _has_changed h = true ->
    _temporary_directory h = Some d -> fs.is_dir d (disk w) = true ->
    close (h, w) = (r, (h', w')) ->
    fs.is_dir d (disk w') = false.

(** ** Sample runs against the tree repository *)

Module Run.

Definition state : Type := self_state TreeRepo.repository.

(** The handle and the world after [storage.open(name, mode)]; a handle
    without attributes stands for the one the caller never got. *)
Definition opened (name mode : string) (s : TreeRepo.state) : state :=
  match open name mode None (TreeRepo.start s) with
  | (inr h, w) => (h, w)
  | (inl _, w) =>
      (@Build_CmisFile TreeRepo.repository None None EmptyString false false None None, w)
  end.

(** The state a method leaves behind. *)
Definition after {A : Type} (c : M state A) (s : state) : state := snd (c s).

(** [/docs/a.txt] opened for reading, and then closed. *)
Definition reading : state := opened "docs/a.txt" "r" TreeRepo.sample.

Definition reading_closed : state := after (@close TreeRepo.repository) reading.

(** The folder [/docs] opened for writing: the path resolves, but to an
    object that takes no content stream. *)
Definition writing_folder : state := opened "docs" "w" TreeRepo.sample.

Definition hello : bytes := list_byte_of_string "hello".

(** The stream of a handle; a closed stream of no file stands for a
    missing one. *)
Definition stream_of (s : state) : io.stream :=
  match _stream (fst s) with
  | Some st => st
  | None => {| io.name := EmptyString; io.mode := EmptyString; io.encoding := None;
               io.can_read := false; io.can_write := false; io.at_end := false;
               io.pos := 0; io.closed := true |}
  end.

(** The new path [/docs/new/b.txt], below the existing folder [/docs] and
    the missing folder [new]: opened for writing, then written to. *)
Definition deep : string := "docs/new/b.txt".

Definition writing_deep : state := opened deep "wb" TreeRepo.sample.

Definition written_deep : state := after (write hello) writing_deep.

(** The handle with its stream closed, as [close] hands it to [_upload],
    and the state [_upload] leaves. *)
Definition closing_deep : state :=
  (set_stream (io.close (stream_of written_deep)) (fst written_deep),
   snd written_deep).


Definition closed_deep : state := after (@close TreeRepo.repository) written_deep.


End Run.

(** ** Round trips *)

Section Faithful.

Variable R : Repository.

(** The bytes the calls [evs] handed to the repository as content. *)
Definition uploaded_bytes (evs : list (event (robj R))) : list bytes :=
  flat_map (fun e => match e with
                     | Call_setContentStream _ c => [c]
                     | Call_createDocument _ _ c => [c]
                     | _ => []
                     end) evs.

(** The calls issued between world [w] and the later world [w']. *)
Definition calls_since (w w' : world R) : list (event (robj R)) :=
  skipn (length (calls w)) (calls w').

(** In state [s] the repository returns the bytes [b] for [path]: the
    path resolves, and the chunks of the content stream make up [b]. *)
Definition store_returns (s : rstate R) (path : string) (b : bytes) : Prop :=
  exists o s1 chunks s2,
    getObjectByPath R path s = (inr o, s1)
    /\ getContentStream R o s1 = (inr chunks, s2)
    /\ concat chunks = b.

(** The store is faithful to the uploads among [evs]: in state [s] it
    returns for [path] what they stored. *)
Definition faithful_store (evs : list (event (robj R))) (s : rstate R)
    (path : string) : Prop :=
  forall b, In b (uploaded_bytes evs) -> store_returns s path b.

End Faithful.

Arguments uploaded_bytes {R} evs.
Arguments store_returns {R} s path b.
Arguments faithful_store {R} evs s path.

(** ** The rest of the module

    [CmisStorage.size], the scoped use of a handle ([__enter__] and
    [__exit__] under Python's [with]) and the iteration over a handle. *)

Section Size.

Variable R : Repository.

(** [obj.properties]: the property dictionary of an object, by key.  The
    dictionary is the repository's; fetching it may raise. *)
Variable V : Type.
Variable properties : robj R -> rstate R -> (cmis_error + list (string * V)) * rstate R.

(** [d.get(key)]: the first binding of [key], [None] when there is none. *)
Fixpoint dict_get (key : string) (d : list (string * V)) : option V :=
  match d with
  | [] => None
  | (k, v) :: d' => if String.eqb k key then Some v else dict_get key d'
  end.

(** A read of the repository that is not in the call log. *)
Definition fetch {A : Type} (op : rstate R -> (cmis_error + A) * rstate R)
  : M (world R) A :=
  fun w =>
    let (r, s') := op (repo w) in
    (match r with inl err => inl (Cmis err) | inr a => inr a end,
     Build_world R s' (disk w) (calls w)).

Definition size (name : string) : M (world R) (option V) :=
  obj <- _get_object name ;;
  props <- fetch (properties obj) ;;
  ret (dict_get "cmis:contentStreamLength" props).

End Size.

Section Scoped.

Variable R : Repository.

(** The body of a [with] block: the operations in order, up to the first
    one that raises. *)
Fixpoint perform_seq (ops : list operation) : M (self_state R) unit :=
  match ops with
  | [] => ret tt
  | op :: rest => perform op ;; perform_seq rest
  end.

(** [with handle: body].  [__enter__] hands out the handle, [__exit__] runs
    when the body is left, also by an exception; it returns [None], so the
    exception of the body goes on afterwards, unless [close] raised one of
    its own. *)
Definition with_block {A : Type} (body : M (self_state R) A) : M (self_state R) A :=
  fun s =>
    let (_, s0) := __enter__ (R:=R) s in
    let (r, s1) := body s0 in
    match __exit__ (R:=R) s1 with
    | (inl e, s2) => (inl e, s2)
    | (inr _, s2) => (r, s2)
    end.

(** The lines of [l]: each ends after its newline byte, the last one at
    the end of [l]. *)
Fixpoint split_lines (cur : bytes) (l : bytes) : list bytes :=
  match l with
  | [] => match cur with [] => [] | _ => [cur] end
  | b :: rest =>
      if Byte.eqb b Byte.x0a then (cur ++ [b]) :: split_lines [] rest
      else split_lines (cur ++ [b]) rest
  end.

(** [list(iter(stream))]: the lines from the position to the end; a
    closed stream refuses to be iterated over. *)
Definition stream_lines (st : io.stream) : M filesystem (list bytes * io.stream) :=
  if io.closed st then raise io.closed_file
  else r <- io.read st ;; ret (split_lines [] (fst r), snd r).

(** [__iter__], run to exhaustion: [list(handle)]. *)
Definition __iter__ : M (self_state R) (list bytes) :=
  st <- attr "_stream" (@_stream R) ;;
  r <- outside (local (stream_lines st)) ;;
  assign (set_stream (snd r)) ;;
  ret (fst r).

End Scoped.

(** ** Kinds of streams *)

(** Two states of one stream: same mode, same capabilities. *)
Definition same_kind (st st' : io.stream) : Prop :=
  io.mode st' = io.mode st
  /\ io.can_read st' = io.can_read st
  /\ io.can_write st' = io.can_write st.

(** ** More repositories to run the module against *)

(** Modelled from the spec: [RemoteObject.properties] of the tree
    repository.  A document carries the length of its content under the
    well-known key; a folder has no such property. *)
Definition tree_properties (o : nat) (s : TreeRepo.state)
  : (cmis_error + list (string * nat)) * TreeRepo.state :=
  match TreeRepo.get o s with
  | Some n =>
      match TreeRepo.nkind n with
      | TreeRepo.Document c => (inr [("cmis:contentStreamLength"%string, length c)], s)
      | TreeRepo.Folder => (inr [], s)
      end
  | None => (inl (ObjectNotFoundException 404 "properties"), s)
  end.

(** The tree repository behind a server that grants reading only: what
    would change the store is answered with status 403. *)
Definition read_only : Repository :=
  @Build_Repository TreeRepo.state nat
    TreeRepo.getObjectByPath TreeRepo.getContentStream
    (fun _ _ s => (inl (PermissionDeniedException 403 "content"), s))
    (fun _ _ s => (inl (PermissionDeniedException 403 "delete"), s))
    (fun _ => 0) TreeRepo.getTree TreeRepo.getName
    (fun _ n s => (inl (PermissionDeniedException 403 n), s))
    (fun _ n _ s => (inl (PermissionDeniedException 403 n), s)).

(** A server that answers every request with status 403. *)
Definition denied : Repository :=
  @Build_Repository unit unit
    (fun p s => (inl (PermissionDeniedException 403 p), s))
    (fun _ s => (inl (PermissionDeniedException 403 "content"), s))
    (fun _ _ s => (inl (PermissionDeniedException 403 "content"), s))
    (fun _ _ s => (inl (PermissionDeniedException 403 "delete"), s))
    (fun _ => tt)
    (fun _ s => (inl (PermissionDeniedException 403 "tree"), s))
    (fun _ s => (inl (PermissionDeniedException 403 "name"), s))
    (fun _ n s => (inl (PermissionDeniedException 403 n), s))
    (fun _ n _ s => (inl (PermissionDeniedException 403 n), s)).


Definition denied_start : world denied :=
  @Build_world denied tt TreeRepo.empty_disk [].

Definition read_only_start : world read_only :=
  @Build_world read_only TreeRepo.sample TreeRepo.empty_disk [].

(** A repository that holds the document [/poem.txt], of two lines. *)
Definition fox : bytes := list_byte_of_string "Quick brown fox".

Definition dog : bytes := list_byte_of_string "jumps over lazy dog".

Definition poem : TreeRepo.state :=
  [ TreeRepo.root;
    {| TreeRepo.parent := 0; TreeRepo.nname := "poem.txt";
       TreeRepo.nkind := TreeRepo.Document (fox ++ [Byte.x0a] ++ dog);
       TreeRepo.live := true |} ].

(** The flags of the modes the runs use. *)
Definition flags (mode : string) : io.open_mode :=
  match io.parse_mode mode with
  | Some m => m
  | None => {| io.creating := false; io.reading := false; io.writing := false;
               io.appending := false; io.updating := false; io.text := false;
               io.binary := false |}
  end.

(** The bytes [a], carriage return, [b]. *)
Definition a_cr_b : bytes := [Byte.x61; Byte.x0d; Byte.x62].

(** [/docs/cr.txt] opened in mode [wb], [a_cr_b] written to it, closed. *)
Definition cr_written : Run.state :=
  Run.after (write a_cr_b) (Run.opened "docs/cr.txt" "wb" TreeRepo.sample).

Definition cr_closed : Run.state :=
  Run.after (@close TreeRepo.repository) cr_written.

(** [with handle: handle.read(); handle.write(b'hello')] *)
Definition reading_block : M Run.state unit :=
  with_block (perform_seq [Read; Write Run.hello]).

(** * Properties *)

#[local] Arguments Ascii.eqb : simpl never.
#[local] Arguments String.eqb : simpl never.

Ltac splits := repeat match goal with |- _ /\ _ => split end.

(** Case analysis on the innermost [match] of a hypothesis. *)
Ltac break_match_in H :=
  match type of H with
  | context [match ?x with _ => _ end] =>
      lazymatch x with
      | context [match _ with _ => _ end] => fail
      | _ => destruct x eqn:?
      end
  end.

Ltac unfold_monad_in H :=
  unfold name in H;
  unfold bind, try_except, outside, local, call, ret, raise, assign, attr, this in H;
  unfold gets, modify in H;
  cbn [fst snd repo disk calls] in H.

(** ** Running monadic code *)

Lemma bind_ok (S A B : Type) (c : M S A) (k : A -> M S B) s a s' :
  c s = (inr a, s') -> bind c k s = k a s'.
Proof. intros H. unfold bind. rewrite H. reflexivity. Qed.

Lemma bind_raise (S A B : Type) (c : M S A) (k : A -> M S B) s e s' :
  c s = (inl e, s') -> bind c k s = (inl e, s').
Proof. intros H. unfold bind. rewrite H. reflexivity. Qed.

Lemma try_ok (S A : Type) (c : M S A) handler s a s' :
  c s = (inr a, s') -> try_except c handler s = (inr a, s').
Proof. intros H. unfold try_except. rewrite H. reflexivity. Qed.

Lemma try_raise (S A : Type) (c : M S A) handler s e s' :
  c s = (inl e, s') -> try_except c handler s = handler e s'.
Proof. intros H. unfold try_except. rewrite H. reflexivity. Qed.

Lemma call_ok (R : Repository) (A : Type) (e : event (robj R))
    (op : rstate R -> (cmis_error + A) * rstate R) (w : world R) a s' :
  op (repo w) = (inr a, s') ->
  call e op w = (inr a, Build_world R s' (disk w) (calls w ++ [e])).
Proof. intros H. unfold call. rewrite H. reflexivity. Qed.

Lemma call_raise (R : Repository) (A : Type) (e : event (robj R))
    (op : rstate R -> (cmis_error + A) * rstate R) (w : world R) err s' :
  op (repo w) = (inl err, s') ->
  call e op w = (inl (Cmis err), Build_world R s' (disk w) (calls w ++ [e])).
Proof. intros H. unfold call. rewrite H. reflexivity. Qed.

(** ** [CmisStorage._get_object] and [CmisStorage.delete] *)

Section StorageFacts.

Variable R : Repository.

Lemma get_object_found (n : string) (w : world R) o s' :
  getObjectByPath R n (repo w) = (inr o, s') ->
  _get_object n w =
    (inr o, Build_world R s' (disk w) (calls w ++ [Call_getObjectByPath n])).
Proof.
  intros H. unfold _get_object, try_except, call. rewrite H. reflexivity.
Qed.

Lemma get_object_missing (n : string) (w : world R) status url s' :
  getObjectByPath R n (repo w) = (inl (ObjectNotFoundException status url), s') ->
  _get_object n w =
    (inl (FileNotFoundError n),
     Build_world R s' (disk w) (calls w ++ [Call_getObjectByPath n])).
Proof.
  intros H. unfold _get_object, try_except, call. rewrite H. reflexivity.
Qed.

(** One lookup is issued whatever comes of it. *)
Lemma get_object_calls (n : string) (w : world R) :
  calls (snd (_get_object n w)) = calls w ++ [Call_getObjectByPath n]
  /\ disk (snd (_get_object n w)) = disk w.
Proof.
  unfold _get_object, try_except, call.
  destruct (getObjectByPath R n (repo w)) as [[e | o] s']; simpl.
  - destruct e; simpl; auto.
  - auto.
Qed.

(** C9. [delete(path)] raises [FileNotFoundError(path)] when the lookup
    reports that the path is absent, and also when the lookup succeeds but
    the repository's deletion call raises the runtime failure it answers
    for an object that is already gone; both errors carry [path]. *)
Theorem delete_raises_not_found (path : string) (all_versions : bool) (w : world R) :
  (forall status url s',
      getObjectByPath R path (repo w)
        = (inl (ObjectNotFoundException status url), s') ->
      fst (delete path all_versions w) = inl (FileNotFoundError path))
  /\
  (forall o s1 status url s2,
      getObjectByPath R path (repo w) = (inr o, s1) ->
      delete_object R o all_versions s1
        = (inl (RuntimeException status url), s2) ->
      fst (delete path all_versions w) = inl (FileNotFoundError path)).
Proof.
  split.
  - intros status url s' H. unfold delete.
    erewrite bind_raise by (eapply get_object_missing; exact H). reflexivity.
  - intros o s1 status url s2 H1 H2. unfold delete.
    erewrite bind_ok by (eapply get_object_found; exact H1).
    unfold try_except, call. simpl. rewrite H2. reflexivity.
Qed.

(** C10. Whatever runtime failure the repository's deletion call raises,
    with any status and any URL, [delete(path)] raises
    [FileNotFoundError(path)] in its place: the handler does not look at
    the failure, and the failure itself is not propagated. *)
Theorem delete_translates_every_runtime_failure
    (path : string) (all_versions : bool) (w : world R) o s1 status url s2 :
  getObjectByPath R path (repo w) = (inr o, s1) ->
  delete_object R o all_versions s1 = (inl (RuntimeException status url), s2) ->
  delete path all_versions w =
    (inl (FileNotFoundError path),
     Build_world R s2 (disk w)
       (calls w ++ [Call_getObjectByPath path; Call_delete o all_versions])).
Proof.
  intros H1 H2. unfold delete.
  erewrite bind_ok by (eapply get_object_found; exact H1).
  unfold try_except, call. simpl. rewrite H2. simpl.
  unfold raise. rewrite <- app_assoc. reflexivity.
Qed.

(** The other failures of the deletion call pass through [delete]. *)
Lemma delete_propagates_other_failures
    (path : string) (all_versions : bool) (w : world R) o s1 e s2 :
  getObjectByPath R path (repo w) = (inr o, s1) ->
  delete_object R o all_versions s1 = (inl e, s2) ->
  (forall status url, e <> RuntimeException status url) ->
  fst (delete path all_versions w) = inl (Cmis e).
Proof.
  intros H1 H2 Hne. unfold delete.
  erewrite bind_ok by (eapply get_object_found; exact H1).
  unfold try_except, call. simpl. rewrite H2. simpl.
  destruct e; try reflexivity. exfalso. eapply Hne. reflexivity.
Qed.

End StorageFacts.

(** ** Paths *)

Section PathFacts.

Lemma rcut_no_slash (b : string) :
  Py.contains "/" b = false -> Py.rcut b = (EmptyString, b).
Proof.
  induction b as [| a b IH]; simpl; intros H.
  - reflexivity.
  - apply orb_false_iff in H. destruct H as [Ha Hb].
    rewrite (IH Hb), Ha. reflexivity.
Qed.

Lemma basename_no_slash (p : string) :
  Py.contains "/" (Py.basename p) = false.
Proof.
  unfold Py.basename.
  induction p as [| a p IH]; simpl.
  - reflexivity.
  - destruct (Py.rcut p) as [h t]. simpl in IH.
    destruct h as [| c h].
    + destruct (Ascii.eqb a "/") eqn:Ha; simpl.
      * exact IH.
      * rewrite Ha, IH. reflexivity.
    + simpl. exact IH.
Qed.

(** The cut falls after the last slash. *)
Lemma rcut_glue (p : string) :
  (fst (Py.rcut p) ++ snd (Py.rcut p))%string = p.
Proof.
  induction p as [| a p IH]; simpl.
  - reflexivity.
  - destruct (Py.rcut p) as [h t]. simpl in IH.
    destruct h as [| c h].
    + destruct (Ascii.eqb a "/") eqn:Ha; simpl; simpl in IH; rewrite IH; reflexivity.
    + simpl. simpl in IH. rewrite IH. reflexivity.
Qed.

Lemma rcut_app (a b : string) :
  Py.contains "/" b = false ->
  Py.rcut (a ++ "/" ++ b) = ((a ++ "/")%string, b).
Proof.
  intros Hb. induction a as [| c a IH]; simpl.
  - rewrite (rcut_no_slash _ Hb). reflexivity.
  - simpl in IH. rewrite IH. destruct a; reflexivity.
Qed.

Lemma rstrip_app_slash (d : string) :
  Py.rstrip_slash (d ++ "/") = Py.rstrip_slash d.
Proof.
  induction d as [| a d IH]; simpl.
  - reflexivity.
  - rewrite IH. reflexivity.
Qed.

Lemma rstrip_plain (d : string) :
  Py.endswith_slash d = false -> Py.rstrip_slash d = d.
Proof.
  induction d as [| a d IH]; intros H.
  - reflexivity.
  - destruct d as [| b d].
    + simpl in *. rewrite H. reflexivity.
    + change (Py.endswith_slash (String b d) = false) in H.
      change (Py.rstrip_slash (String a (String b d)))
        with (match Py.rstrip_slash (String b d) with
              | EmptyString =>
                  if Ascii.eqb a "/" then EmptyString else String a EmptyString
              | r => String a r
              end).
      rewrite (IH H). reflexivity.
Qed.

Lemma startswith_no_slash (b : string) :
  Py.contains "/" b = false -> Py.startswith "/" b = false.
Proof.
  destruct b as [| c b]; simpl; intros H.
  - reflexivity.
  - apply orb_false_iff in H. destruct H as [Hc _].
    rewrite Ascii.eqb_sym, Hc. reflexivity.
Qed.

Lemma join_plain (d b : string) :
  plain_dir d -> Py.contains "/" b = false ->
  Py.os_path_join d b = (d ++ "/" ++ b)%string.
Proof.
  intros [Hne Hd] Hb. unfold Py.os_path_join.
  rewrite (startswith_no_slash _ Hb), Hd.
  destruct d; [congruence | reflexivity].
Qed.

Lemma endswith_slash_app (a b : string) :
  Py.endswith_slash a = false -> Py.endswith_slash b = false ->
  Py.endswith_slash (a ++ b) = false.
Proof.
  intros Ha Hb. induction a as [| c a IH].
  - exact Hb.
  - destruct a as [| c' a].
    + simpl in *. destruct b; [exact Ha | exact Hb].
    + change (Py.endswith_slash (String c' a) = false) in Ha.
      change (Py.endswith_slash (String c' (a ++ b)) = false).
      exact (IH Ha).
Qed.

Lemma digits_no_trailing_slash (u : Decimal.uint) :
  Py.endswith_slash (NilEmpty.string_of_uint u) = false.
Proof.
  induction u; simpl; try reflexivity;
    destruct (NilEmpty.string_of_uint u); first [reflexivity | exact IHu].
Qed.

Lemma tmp_name_plain (n : nat) : plain_dir (fs.tmp_name n).
Proof.
  split.
  - unfold fs.tmp_name. discriminate.
  - unfold fs.tmp_name. apply endswith_slash_app.
    + reflexivity.
    + apply digits_no_trailing_slash.
Qed.

End PathFacts.

(** ** The local file system *)

Section DiskFacts.

Lemma lookup_store (p : string) (c : bytes) l :
  fs.lookup p (fs.store p c l) = Some c.
Proof. unfold fs.store. simpl. rewrite String.eqb_refl. reflexivity. Qed.

Lemma lookup_write_file (p : string) (c : bytes) (f : filesystem) :
  fs.lookup p (files (fs.write_file p c f)) = Some c.
Proof. apply lookup_store. Qed.

Lemma remove_twice (p : string) l : fs.remove p (fs.remove p l) = fs.remove p l.
Proof.
  unfold fs.remove. induction l as [| [q c] l IH]; simpl.
  - reflexivity.
  - destruct (String.eqb q p) eqn:E; simpl.
    + exact IH.
    + rewrite E. simpl. rewrite IH. reflexivity.
Qed.

Lemma write_file_twice (p : string) (c c' : bytes) (f : filesystem) :
  fs.write_file p c (fs.write_file p c' f) = fs.write_file p c f.
Proof.
  unfold fs.write_file, fs.store. simpl.
  rewrite String.eqb_refl. simpl. rewrite remove_twice. reflexivity.
Qed.


(** What a successful [io.open] tells. *)
Lemma open_returns (path mode : string) enc (f f' : filesystem) st :
  io.open path mode enc f = (inr st, f') ->
  io.name st = path /\ io.closed st = false
  /\ dirs f' = dirs f /\ next_tmp f' = next_tmp f
  /\ Py.is_filename (Py.basename path) = true
  /\ exists c, fs.lookup path (files f') = Some c.
Proof.
  unfold io.open, Py.basename.
  destruct (io.parse_mode mode) as [m |]; [| discriminate].
  destruct (io.binary m && _); [discriminate |].
  destruct (Py.rcut path) as [head tail].
  destruct (fs.is_dir _ f); simpl; [| discriminate].
  destruct (Py.is_filename tail); simpl; [| discriminate].
  unfold io.open_file.
  destruct (fs.lookup path (files f)) as [c |] eqn:L.
  - destruct (io.creating m); [discriminate |].
    destruct (io.writing m); [| destruct (io.appending m)];
      intros H; inversion H; subst; simpl; repeat split; auto;
      first [ exists []; apply lookup_store | exists c; exact L ].
  - destruct (io.reading m); [discriminate |].
    intros H; inversion H; subst; simpl; repeat split; auto.
    exists []. apply lookup_store.
Qed.

(** A failed [io.open] leaves the disk as it was. *)
Lemma open_raises (path mode : string) enc (f f' : filesystem) e :
  io.open path mode enc f = (inl e, f') -> f' = f.
Proof.
  unfold io.open.
  destruct (io.parse_mode mode) as [m |]; [| intros H; inversion H; reflexivity].
  destruct (io.binary m && _); [intros H; inversion H; reflexivity |].
  destruct (Py.rcut path) as [head tail].
  destruct (fs.is_dir _ f); simpl; [| intros H; inversion H; reflexivity].
  destruct (Py.is_filename tail); simpl; [| intros H; inversion H; reflexivity].
  unfold io.open_file.
  destruct (fs.lookup path (files f)) as [c |].
  - destruct (io.creating m); [intros H; inversion H; reflexivity |].
    destruct (io.writing m); [discriminate |].
    destruct (io.appending m); discriminate.
  - destruct (io.reading m); [intros H; inversion H; reflexivity | discriminate].
Qed.

(** Opening an existing file in a temporary directory for reading its
    bytes. *)
Lemma open_rb (d b : string) (c : bytes) (f : filesystem) :
  plain_dir d -> fs.is_dir d f = true ->
  Py.contains "/" b = false -> Py.is_filename b = true ->
  fs.lookup (d ++ "/" ++ b) (files f) = Some c ->
  io.open (d ++ "/" ++ b) "rb" None f =
    (inr {| io.name := (d ++ "/" ++ b)%string; io.mode := "rb"; io.encoding := None;
            io.can_read := true; io.can_write := false; io.at_end := false;
            io.pos := 0; io.closed := false |}, f).
Proof.
  intros [Hne Hd] Hdir Hb Hfile L. unfold io.open.
  change (io.parse_mode "rb")
    with (Some {| io.creating := false; io.reading := true; io.writing := false;
                  io.appending := false; io.updating := false; io.text := false;
                  io.binary := true |}).
  cbn [io.binary andb].
  rewrite (rcut_app d b Hb), rstrip_app_slash, (rstrip_plain _ Hd), Hdir, Hfile.
  cbn [negb]. unfold io.open_file. rewrite L. reflexivity.
Qed.

(** Opening a file in a temporary directory for writing bytes from the
    start. *)
Lemma open_wb (d b : string) (f : filesystem) :
  plain_dir d -> fs.is_dir d f = true ->
  Py.contains "/" b = false -> Py.is_filename b = true ->
  io.open (d ++ "/" ++ b) "wb" None f =
    (inr {| io.name := (d ++ "/" ++ b)%string; io.mode := "wb"; io.encoding := None;
            io.can_read := false; io.can_write := true; io.at_end := false;
            io.pos := 0; io.closed := false |},
     fs.write_file (d ++ "/" ++ b) [] f).
Proof.
  intros [Hne Hd] Hdir Hb Hfile. unfold io.open.
  change (io.parse_mode "wb")
    with (Some {| io.creating := false; io.reading := false; io.writing := true;
                  io.appending := false; io.updating := false; io.text := false;
                  io.binary := true |}).
  cbn [io.binary andb].
  rewrite (rcut_app d b Hb), rstrip_app_slash, (rstrip_plain _ Hd), Hdir, Hfile.
  cbn [negb]. unfold io.open_file.
  destruct (fs.lookup _ (files f)); reflexivity.
Qed.

(** When the last component cannot name a file, no mode opens it. *)
Lemma open_directory (d b mode : string) enc (f : filesystem) :
  plain_dir d -> Py.contains "/" b = false -> Py.is_filename b = false ->
  exists e, io.open (d ++ "/" ++ b) mode enc f = (inl e, f).
Proof.
  intros [Hne Hd] Hb Hfile. unfold io.open.
  destruct (io.parse_mode mode) as [m |]; [| eauto].
  destruct (io.binary m && _); [eauto |].
  rewrite (rcut_app d b Hb), Hfile.
  destruct (fs.is_dir _ f); simpl; eauto.
Qed.

End DiskFacts.

(** ** Streams *)

#[local] Arguments io.open : simpl never.
#[local] Arguments io.write : simpl never.
#[local] Arguments io.read : simpl never.
#[local] Arguments fs.rmtree : simpl never.
#[local] Arguments fs.mkdtemp : simpl never.
#[local] Arguments fs.write_file : simpl never.
#[local] Arguments Py.os_path_join : simpl never.
#[local] Arguments Py.os_path_split : simpl never.
#[local] Arguments Py.basename : simpl never.

Section StreamFacts.

Lemma write_returns (data : bytes) (st st' : io.stream) (f f' : filesystem) :
  io.write data st f = (inr st', f') ->
  io.name st' = io.name st /\ io.closed st' = false
  /\ dirs f' = dirs f /\ next_tmp f' = next_tmp f
  /\ exists c, fs.lookup (io.name st) (files f') = Some c.
Proof.
  unfold io.write.
  destruct (io.closed st) eqn:C; [discriminate |].
  destruct (io.can_write st); simpl; [| discriminate].
  intros H; inversion H; subst; simpl. repeat split; auto.
  eexists. apply lookup_write_file.
Qed.


Lemma write_raises (data : bytes) (st : io.stream) (f f' : filesystem) e :
  io.write data st f = (inl e, f') -> f' = f.
Proof.
  unfold io.write.
  destruct (io.closed st), (io.can_write st); simpl;
    first [discriminate | intros H; inversion H; reflexivity].
Qed.

Lemma read_returns (st : io.stream) (f f' : filesystem) r :
  io.read st f = (r, f') ->
  f' = f /\ (forall b st', r = inr (b, st') ->
             io.name st' = io.name st /\ io.closed st' = io.closed st).
Proof.
  unfold io.read.
  destruct (io.closed st) eqn:C, (io.can_read st); simpl;
    try (intros H; inversion H; split; [auto | discriminate]).
  destruct (io.is_binary st); [| destruct (io.utf8 _)];
    intros H; inversion H; subst;
    (split; [reflexivity |]); try discriminate;
    intros b st' E; inversion E; subst; simpl; auto.
Qed.

(** A binary stream reads the bytes as they are. *)
Lemma read_binary (st : io.stream) (f : filesystem) :
  io.closed st = false -> io.can_read st = true -> io.is_binary st = true ->
  io.read st f =
    (inr (skipn (io.pos st) (io.content st f),
          {| io.name := io.name st; io.mode := io.mode st;
             io.encoding := io.encoding st; io.can_read := io.can_read st;
             io.can_write := io.can_write st; io.at_end := io.at_end st;
             io.pos := Nat.max (io.pos st) (length (io.content st f));
             io.closed := io.closed st |}), f).
Proof. intros C Rd B. unfold io.read. rewrite C, Rd, B. reflexivity. Qed.

(** A file that is there stays there under [writelines], and so do the
    directories. *)
Lemma write_lines_keeps (lines : list bytes) :
  forall (st : io.stream) (f f' : filesystem) r c,
    fs.lookup (io.name st) (files f) = Some c ->
    io.write_lines lines st f = (r, f') ->
    dirs f' = dirs f /\ next_tmp f' = next_tmp f
    /\ (exists c', fs.lookup (io.name st) (files f') = Some c')
    /\ (forall st', r = inr st' ->
          io.name st' = io.name st /\ io.closed st' = io.closed st).
Proof.
  induction lines as [| l ls IH]; intros st f f' r c L H.
  - inversion H; subst. splits; eauto.
    intros s0 E; inversion E; subst; auto.
  - simpl in H. unfold bind in H.
    destruct (io.write l st f) as [[e | st1] f1] eqn:W.
    + inversion H; subst. rewrite (write_raises _ _ _ W).
      splits; eauto. discriminate.
    + destruct (write_returns _ _ _ W) as (N & C & D & T & c1 & L1).
      assert (C0 : io.closed st = false).
      { unfold io.write in W. destruct (io.closed st); [discriminate | reflexivity]. }
      rewrite <- N in L1.
      destruct (IH st1 f1 f' r c1 L1 H) as (D' & T' & L' & K).
      rewrite N in L'. splits; try congruence; auto.
      intros s0 E; destruct (K s0 E); split; congruence.
Qed.

Lemma writelines_keeps (lines : list bytes) :
  forall (st : io.stream) (f f' : filesystem) r c,
    fs.lookup (io.name st) (files f) = Some c ->
    io.writelines lines st f = (r, f') ->
    dirs f' = dirs f /\ next_tmp f' = next_tmp f
    /\ (exists c', fs.lookup (io.name st) (files f') = Some c')
    /\ (forall st', r = inr st' ->
          io.name st' = io.name st /\ io.closed st' = false).
Proof.
  intros st f f' r c L H. unfold io.writelines in H.
  destruct (io.closed st) eqn:C.
  - inversion H; subst. splits; eauto. discriminate.
  - destruct (write_lines_keeps _ _ _ L H) as (D & T & L' & K).
    splits; auto. intros s0 E. destruct (K s0 E). split; congruence.
Qed.

(** Writing chunks to a stream that stands at the end of its file appends
    them in order, each once. *)
Lemma write_each_appends (chunks : list bytes) :
  forall (st : io.stream) (f : filesystem) c,
    io.closed st = false -> io.can_write st = true -> io.at_end st = false ->
    fs.lookup (io.name st) (files f) = Some c -> io.pos st = length c ->
    exists st' f',
      write_each chunks st f = (inr st', f')
      /\ fs.lookup (io.name st) (files f') = Some (c ++ concat chunks)
      /\ dirs f' = dirs f /\ next_tmp f' = next_tmp f.
Proof.
  induction chunks as [| data rest IH]; intros st f c C W A L P.
  - simpl. exists st, f. rewrite app_nil_r. auto.
  - simpl. unfold bind.
    assert (E : io.write data st f =
                (inr {| io.name := io.name st; io.mode := io.mode st;
                        io.encoding := io.encoding st; io.can_read := io.can_read st;
                        io.can_write := io.can_write st; io.at_end := io.at_end st;
                        io.pos := length c + length data; io.closed := io.closed st |},
                 fs.write_file (io.name st) (c ++ data) f)).
    { unfold io.write, io.content. rewrite C, W, A, L, P. simpl.
      rewrite firstn_all, skipn_all2 by lia. rewrite app_nil_r. reflexivity. }
    rewrite E.
    edestruct (IH {| io.name := io.name st; io.mode := io.mode st;
                     io.encoding := io.encoding st; io.can_read := io.can_read st;
                     io.can_write := io.can_write st; io.at_end := io.at_end st;
                     io.pos := length c + length data; io.closed := io.closed st |}
                  (fs.write_file (io.name st) (c ++ data) f) (c ++ data))
      as (st' & f' & E' & L' & D' & T'); simpl; auto.
    + apply lookup_write_file.
    + rewrite length_app. reflexivity.
    + simpl in *. exists st', f'. rewrite E'. rewrite <- app_assoc in L'. auto.
Qed.

Lemma write_each_keeps (chunks : list bytes) :
  forall (st : io.stream) (f f' : filesystem) r,
    write_each chunks st f = (r, f') ->
    dirs f' = dirs f /\ next_tmp f' = next_tmp f.
Proof.
  induction chunks as [| data rest IH]; intros st f f' r H.
  - inversion H; subst. auto.
  - simpl in H. unfold bind in H.
    destruct (io.write data st f) as [[e | st1] f1] eqn:W.
    + inversion H; subst. rewrite (write_raises _ _ _ W). auto.
    + destruct (write_returns _ _ _ W) as (_ & _ & D & T & _).
      destruct (IH _ _ _ _ H). split; congruence.
Qed.

End StreamFacts.

(** ** [os.path.split] against the segments of a path *)

Section SegmentFacts.

Lemma string_app_assoc (a b c : string) :
  ((a ++ b) ++ c)%string = (a ++ b ++ c)%string.
Proof. induction a as [| x a IH]; cbn [append]; [| rewrite IH]; reflexivity. Qed.

Lemma split_not_nil (p : string) : Py.split "/" p <> [].
Proof.
  destruct p as [| a p]; cbn [Py.split]; [discriminate |].
  destruct (Ascii.eqb a "/"); [discriminate |].
  destruct (Py.split "/" p); discriminate.
Qed.

Lemma split_no_slash (b : string) :
  Py.contains "/" b = false -> Py.split "/" b = [b].
Proof.
  induction b as [| a b IH]; cbn [Py.split Py.contains]; intros H.
  - reflexivity.
  - apply orb_false_iff in H. destruct H as [Ha Hb].
    rewrite Ha, (IH Hb). reflexivity.
Qed.

Lemma split_app_slash (x y : string) :
  Py.split "/" (x ++ "/" ++ y) = Py.split "/" x ++ Py.split "/" y.
Proof.
  induction x as [| a x IH]; cbn [Py.split append].
  - rewrite Ascii.eqb_refl. reflexivity.
  - cbn [append] in IH. rewrite IH.
    destruct (Ascii.eqb a "/"); [reflexivity |].
    destruct (Py.split "/" x) eqn:E; [| reflexivity].
    exfalso. exact (split_not_nil _ E).
Qed.

(** The head of the cut is empty or ends with the slash the cut fell
    after. *)
Lemma rcut_head (p : string) :
  fst (Py.rcut p) = EmptyString \/ exists x, fst (Py.rcut p) = (x ++ "/")%string.
Proof.
  induction p as [| a p IH]; cbn [Py.rcut].
  - left. reflexivity.
  - destruct (Py.rcut p) as [h t]. cbn [fst] in IH.
    destruct h as [| c h].
    + destruct (Ascii.eqb a "/") eqn:Ha; cbn [fst].
      * right. exists EmptyString. apply Ascii.eqb_eq in Ha. subst a. reflexivity.
      * left. reflexivity.
    + cbn [fst]. right. destruct IH as [IH | [x IH]]; [discriminate |].
      exists (String a x). cbn [append]. rewrite IH. reflexivity.
Qed.

(** Stripping trailing slashes only drops empty fields at the end. *)
Lemma split_rstrip (x : string) :
  exists k, Py.split "/" x = Py.split "/" (Py.rstrip_slash x) ++ repeat EmptyString k.
Proof.
  induction x as [| a x [k IH]].
  - exists 0. reflexivity.
  - cbn [Py.split Py.rstrip_slash]. rewrite IH.
    destruct (Ascii.eqb a "/") eqn:Ha.
    + destruct (Py.rstrip_slash x) as [| c r] eqn:E.
      * exists (S k). reflexivity.
      * exists k. cbn [Py.split]. rewrite Ha. reflexivity.
    + destruct (Py.rstrip_slash x) as [| c r] eqn:E.
      * exists k. cbn [Py.split]. rewrite Ha. reflexivity.
      * exists k.
        change (Py.split "/" (String a (String c r)))
          with (if Ascii.eqb a "/" then EmptyString :: Py.split "/" (String c r)
                else match Py.split "/" (String c r) with
                     | f :: fs => String a f :: fs
                     | [] => [String a EmptyString]
                     end).
        rewrite Ha.
        destruct (Py.split "/" (String c r)) eqn:E'; [| reflexivity].
        exfalso. exact (split_not_nil _ E').
Qed.

Lemma filter_repeat_empty (l : list string) (k : nat) :
  filter nonempty (l ++ repeat EmptyString k) = filter nonempty l.
Proof.
  rewrite filter_app.
  assert (E : filter nonempty (repeat EmptyString k) = []).
  { induction k; [reflexivity | exact IHk]. }
  rewrite E. apply app_nil_r.
Qed.

(** [os.path.split] hands the walk the directory segments of the path and
    the final filename. *)
Lemma os_path_split_segments (p : string) :
  filter nonempty (Py.split "/" (fst (Py.os_path_split p))) = directory_segments p
  /\ snd (Py.os_path_split p) = final_filename p
  /\ snd (Py.os_path_split p) = Py.basename p.
Proof.
  unfold Py.os_path_split, directory_segments, final_filename, Py.basename.
  pose proof (rcut_glue p) as G.
  pose proof (basename_no_slash p) as B. unfold Py.basename in B.
  pose proof (rcut_head p) as Hd.
  destruct (Py.rcut p) as [head tail]. cbn [fst snd] in *.
  assert (S : filter nonempty (Py.split "/" head)
              = filter nonempty (removelast (Py.split "/" p))
              /\ tail = last (Py.split "/" p) EmptyString).
  { destruct Hd as [Hd | [x Hd]]; subst head.
    - cbn [append] in G. subst tail.
      rewrite (split_no_slash _ B). split; reflexivity.
    - rewrite <- G, string_app_assoc.
      rewrite split_app_slash, (split_no_slash _ B).
      rewrite removelast_last, last_last.
      replace (x ++ "/")%string with (x ++ "/" ++ EmptyString)%string by reflexivity.
      rewrite split_app_slash. cbn [Py.split].
      rewrite filter_app. cbn [filter]. 
      replace (nonempty EmptyString) with false by reflexivity.
      rewrite app_nil_r. split; reflexivity. }
  destruct S as [S1 S2].
  destruct (split_rstrip head) as [k K].
  destruct (Py.rstrip_slash head) as [| c r] eqn:E; cbn [fst snd].
  - splits; auto.
  - splits; auto.
    transitivity (filter nonempty (Py.split "/" head)); [| exact S1].
    rewrite K. symmetry. apply filter_repeat_empty.
Qed.

End SegmentFacts.

(** ** The folder walk of [_upload] *)

Section WalkFacts.

Variable R : Repository.

Lemma walk_only_app (l1 l2 : list (event (robj R))) :
  walk_only l1 -> walk_only l2 -> walk_only (l1 ++ l2).
Proof.
  unfold walk_only. intros H1 H2. rewrite forallb_app, H1, H2. reflexivity.
Qed.

(** The walk neither resolves a path, nor uploads, nor removes. *)
Lemma walk_only_quiet (evs : list (event (robj R))) :
  walk_only evs ->
  resolve_attempts evs = [] /\ document_creations evs = []
  /\ content_replacements evs = [] /\ removals evs = [].
Proof.
  unfold walk_only. induction evs as [| e evs IH]; intros H.
  - repeat split.
  - cbn [forallb] in H. apply andb_true_iff in H. destruct H as [He H].
    destruct (IH H) as (A & B & C & D).
    destruct e; try discriminate He; cbn; auto.
Qed.

Lemma find_folder_log (segment : string) (results : list (robj R)) :
  forall (w w' : world R) r,
    find_folder segment results w = (r, w') ->
    exists evs,
      calls w' = calls w ++ evs /\ disk w' = disk w /\ walk_only evs.
Proof.
  induction results as [| d rest IH]; intros w w' r H.
  - inversion H; subst. exists []. rewrite app_nil_r. repeat split.
  - cbn [find_folder] in H. unfold bind, call in H.
    destruct (getName R d (repo w)) as [[e | n] s'].
    + inversion H; subst. exists [Call_getName d]. repeat split.
    + destruct (String.eqb n segment).
      * inversion H; subst. exists [Call_getName d]. repeat split.
      * destruct (IH _ _ _ H) as (evs & C & D & W).
        exists (Call_getName d :: evs). rewrite C, D. cbn [calls disk].
        rewrite <- app_assoc. repeat split. exact W.
Qed.

Lemma find_folder_protocol (segment : string) (results : list (robj R)) :
  forall (w : world R) found s',
    first_named segment results (repo w) found s' ->
    exists evs,
      find_folder segment results w
        = (inr found, Build_world R s' (disk w) (calls w ++ evs))
      /\ walk_only evs /\ folder_creations evs = [].
Proof.
  induction results as [| d rest IH]; intros w found s' H; inversion H; subst.
  - exists []. cbn. rewrite app_nil_r. destruct w; repeat split.
  - exists [Call_getName d]. cbn [find_folder]. unfold bind, call.
    match goal with E : getName _ _ _ = _ |- _ => rewrite E end.
    rewrite String.eqb_refl. repeat split.
  - match goal with
    | E : getName _ _ _ = _, N : _ <> segment, F : first_named _ _ _ _ _ |- _ =>
        destruct (IH (Build_world R s'0 (disk w) (calls w ++ [Call_getName d]))
                     found s' F) as (evs & C & W & K);
        exists (Call_getName d :: evs); cbn [find_folder]; unfold bind, call;
        rewrite E; apply String.eqb_neq in N; rewrite N, C
    end.
    cbn [calls disk]. rewrite <- app_assoc. repeat split; assumption.
Qed.

Lemma make_folders_log (dirnames : list string) :
  forall (folder : robj R) (w w' : world R) r,
    make_folders folder dirnames w = (r, w') ->
    exists evs,
      calls w' = calls w ++ evs /\ disk w' = disk w /\ walk_only evs.
Proof.
  induction dirnames as [| dirname rest IH]; intros folder w w' r H.
  - inversion H; subst. exists []. rewrite app_nil_r. repeat split.
  - cbn [make_folders] in H.
    destruct (negb (String.eqb dirname EmptyString)); [| exact (IH _ _ _ _ H)].
    unfold bind at 1 in H. unfold call at 1 in H.
    destruct (getTree R folder (repo w)) as [[e | rs] s1].
    + inversion H; subst. exists [Call_getTree folder]. repeat split.
    + unfold bind at 1 in H.
      match type of H with
      | context [find_folder dirname rs ?w0] =>
          destruct (find_folder dirname rs w0) as [[e | found] w2] eqn:F;
          destruct (find_folder_log _ _ _ F) as (evs1 & C1 & D1 & W1)
      end; cbn [calls disk] in C1, D1.
      * inversion H; subst. exists (Call_getTree folder :: evs1).
        rewrite C1, D1, <- app_assoc. repeat split. exact W1.
      * unfold bind at 1 in H.
        destruct found as [d |].
        -- unfold ret at 1 in H.
           destruct (IH _ _ _ _ H) as (evs2 & C2 & D2 & W2).
           exists (Call_getTree folder :: evs1 ++ evs2).
           rewrite C2, D2, C1, D1, <- !app_assoc. repeat split.
           apply (@walk_only_app (Call_getTree folder :: evs1) evs2);
             [exact W1 | exact W2].
        -- unfold call at 1 in H.
           destruct (createFolder R folder dirname (repo w2)) as [[e | new] s3].
           ++ inversion H; subst.
              exists (Call_getTree folder :: evs1 ++ [Call_createFolder folder dirname]).
              cbn [calls disk]. rewrite C1, D1, <- !app_assoc. repeat split.
              apply (@walk_only_app (Call_getTree folder :: evs1)
                                    [Call_createFolder folder dirname]);
                [exact W1 | reflexivity].
           ++ destruct (IH _ _ _ _ H) as (evs2 & C2 & D2 & W2).
              cbn [calls disk] in C2, D2.
              exists (Call_getTree folder :: evs1
                      ++ Call_createFolder folder dirname :: evs2).
              rewrite C2, D2, C1, D1, <- !app_assoc. repeat split.
              apply (@walk_only_app (Call_getTree folder :: evs1)
                                    (Call_createFolder folder dirname :: evs2));
                [exact W1 | exact W2].
Qed.

(** One step per segment, in the order of the segments. *)
Lemma creation_protocol_segments folder segs s steps last s' :
  creation_protocol (R:=R) folder segs s steps last s' ->
  map (@step_segment R) steps = segs.
Proof.
  induction 1; cbn [map step_segment]; congruence.
Qed.

Lemma folder_creations_app (l1 l2 : list (event (robj R))) :
  folder_creations (l1 ++ l2) = folder_creations l1 ++ folder_creations l2.
Proof. apply flat_map_app. Qed.

(** When the protocol of the specification runs to its end, the loop of
    [_upload] returns its last folder, and has created the folders the
    protocol found missing, no others. *)
Lemma make_folders_protocol (dirnames : list string) :
  forall (folder : robj R) (w : world R) steps last s',
    creation_protocol folder
      (filter nonempty dirnames) (repo w)
      steps last s' ->
    exists evs,
      make_folders folder dirnames w
        = (inr last, Build_world R s' (disk w) (calls w ++ evs))
      /\ walk_only evs
      /\ folder_creations evs = missing_segments steps.
Proof.
  induction dirnames as [| dirname rest IH]; intros folder w steps last s' H.
  - inversion H; subst. exists []. cbn. rewrite app_nil_r.
    destruct w; repeat split.
  - cbn [make_folders filter] in *. unfold nonempty at 1 in H.
    destruct (negb (String.eqb dirname EmptyString)); [| exact (IH _ _ _ _ _ H)].
    inversion H; subst.
    + match goal with
      | T : getTree _ _ _ = _, F : first_named _ _ _ (Some _) _,
        P : creation_protocol child _ _ _ _ _ |- _ =>
          destruct (find_folder_protocol
                      (Build_world R s1 (disk w) (calls w ++ [Call_getTree folder])) F)
            as (evs1 & E1 & W1 & K1);
          destruct (IH child (Build_world R s2 (disk w)
                                ((calls w ++ [Call_getTree folder]) ++ evs1))
                       _ _ _ P) as (evs2 & E2 & W2 & K2);
          cbn [disk calls] in E1, E2;
          exists (Call_getTree folder :: evs1 ++ evs2);
          erewrite bind_ok by (apply call_ok; exact T);
          erewrite bind_ok by (exact E1);
          erewrite bind_ok by reflexivity;
          rewrite E2
      end.
      cbn [disk calls]. rewrite <- !app_assoc. splits.
      * reflexivity.
      * apply (@walk_only_app (Call_getTree folder :: evs1) evs2);
          [exact W1 | exact W2].
      * change (folder_creations (Call_getTree folder :: evs1 ++ evs2))
          with (folder_creations (evs1 ++ evs2)).
        rewrite folder_creations_app, K1, K2. reflexivity.
    + match goal with
      | T : getTree _ _ _ = _, F : first_named _ _ _ None _,
        C : createFolder _ _ _ _ = _, P : creation_protocol new _ _ _ _ _ |- _ =>
          destruct (find_folder_protocol
                      (Build_world R s1 (disk w) (calls w ++ [Call_getTree folder])) F)
            as (evs1 & E1 & W1 & K1);
          destruct (IH new (Build_world R s3 (disk w)
                              (((calls w ++ [Call_getTree folder]) ++ evs1)
                               ++ [Call_createFolder folder dirname]))
                       _ _ _ P) as (evs2 & E2 & W2 & K2);
          cbn [disk calls] in E1, E2;
          exists (Call_getTree folder :: evs1
                  ++ Call_createFolder folder dirname :: evs2);
          erewrite bind_ok by (apply call_ok; exact T);
          erewrite bind_ok by (exact E1);
          erewrite bind_ok by (apply call_ok; exact C);
          cbn [disk calls]; rewrite E2
      end.
      cbn [disk calls]. rewrite <- !app_assoc. splits.
      * reflexivity.
      * apply (@walk_only_app (Call_getTree folder :: evs1)
                 (Call_createFolder folder dirname :: evs2));
          [exact W1 | exact W2].
      * change (folder_creations
                  (Call_getTree folder :: evs1
                   ++ Call_createFolder folder dirname :: evs2))
          with (folder_creations (evs1 ++ Call_createFolder folder dirname :: evs2)).
        rewrite folder_creations_app, K1.
        change (folder_creations (Call_createFolder folder dirname :: evs2))
          with ((folder, dirname) :: folder_creations evs2).
        rewrite K2. reflexivity.
Qed.

End WalkFacts.

(** ** The methods of [CmisFile] *)

Section FileFacts.

Variable R : Repository.

Lemma outside_ok (A : Type) (c : M (world R) A) (h : CmisFile R) (w w' : world R) a :
  c w = (inr a, w') -> outside c (h, w) = (inr a, (h, w')).
Proof. intros H. unfold outside. cbn [fst snd]. rewrite H. reflexivity. Qed.

Lemma outside_raise (A : Type) (c : M (world R) A) (h : CmisFile R) (w w' : world R) e :
  c w = (inl e, w') -> outside c (h, w) = (inl e, (h, w')).
Proof. intros H. unfold outside. cbn [fst snd]. rewrite H. reflexivity. Qed.

Lemma local_ok (A : Type) (op : M filesystem A) (w : world R) r f' :
  op (disk w) = (r, f') ->
  local op w = (r, Build_world R (repo w) f' (calls w)).
Proof. intros H. unfold local. rewrite H. reflexivity. Qed.

Lemma temporary_filename_eq (h : CmisFile R) (w : world R) d :
  _temporary_directory h = Some d -> plain_dir d ->
  _temporary_filename (h, w) = (inr (tmpfile h d), (h, w)).
Proof.
  intros Hd Hp. unfold _temporary_filename, bind, attr, name, this, gets, ret.
  cbn [fst snd]. rewrite Hd.
  rewrite join_plain by auto using basename_no_slash. reflexivity.
Qed.

(** The repository reads the whole temporary file from the stream
    [_upload] opened. *)
Lemma read_file_rb (path : string) (w : world R) c :
  fs.lookup path (files (disk w)) = Some c ->
  read_file {| io.name := path; io.mode := "rb"; io.encoding := None;
               io.can_read := true; io.can_write := false; io.at_end := false;
               io.pos := 0; io.closed := false |} w
  = (inr c, Build_world R (repo w) (disk w) (calls w)).
Proof.
  intros L. unfold read_file, bind, local, io.read, io.content, ret.
  cbn [io.closed io.can_read io.name io.pos negb]. rewrite L. reflexivity.
Qed.

(** [_upload] when the path resolves: one lookup, then the content of the
    temporary file replaces the content of the object. *)
Lemma upload_replace (h : CmisFile R) (w : world R) d c o s1 r s2 :
  staged h w d c ->
  getObjectByPath R (_name h) (repo w) = (inr o, s1) ->
  setContentStream R o c s1 = (r, s2) ->
  _upload (h, w) =
    (match r with inl e => inl (Cmis e) | inr u => inr u end,
     (set_cmis_obj o h,
      Build_world R s2 (disk w)
        (calls w ++ [Call_getObjectByPath (_name h); Call_setContentStream o c]))).
Proof.
  intros (Hd & Hp & Hdir & Hf & L) G S. unfold _upload.
  erewrite bind_ok by (apply temporary_filename_eq; eassumption).
  erewrite bind_ok
    by (eapply outside_ok, local_ok, open_rb; eauto using basename_no_slash).
  unfold try_except.
  erewrite bind_ok by reflexivity.
  erewrite bind_ok by (apply outside_ok, get_object_found; exact G).
  erewrite bind_ok by reflexivity.
  erewrite bind_ok by (apply outside_ok, read_file_rb; exact L).
  cbn [fst snd repo disk calls]. unfold outside, call. cbn [fst snd repo disk calls].
  rewrite S. rewrite <- app_assoc. destruct r as [e | []]; reflexivity.
Qed.

(** [_upload] when the lookup fails for another reason than absence: the
    failure propagates, nothing else is called. *)
Lemma upload_lookup_fails (h : CmisFile R) (w : world R) d c e s1 :
  staged h w d c ->
  getObjectByPath R (_name h) (repo w) = (inl e, s1) ->
  (forall status url, e <> ObjectNotFoundException status url) ->
  _upload (h, w) =
    (inl (Cmis e),
     (h, Build_world R s1 (disk w) (calls w ++ [Call_getObjectByPath (_name h)]))).
Proof.
  intros (Hd & Hp & Hdir & Hf & L) G N. unfold _upload.
  erewrite bind_ok by (apply temporary_filename_eq; eassumption).
  erewrite bind_ok
    by (eapply outside_ok, local_ok, open_rb; eauto using basename_no_slash).
  unfold try_except.
  erewrite bind_ok by reflexivity.
  assert (E : _get_object (_name h) (Build_world R (repo w) (disk w) (calls w))
              = (inl (Cmis e),
                 Build_world R s1 (disk w) (calls w ++ [Call_getObjectByPath (_name h)]))).
  { unfold _get_object, try_except, call. cbn [repo disk calls]. rewrite G.
    destruct e; try reflexivity. exfalso. eapply N. reflexivity. }
  erewrite bind_raise by (apply outside_raise; exact E).
  reflexivity.
Qed.

(** [_upload] when the path is absent: one lookup, the folder walk, then
    the document is created under the folder the walk ended in. *)
Lemma upload_create_runs (h : CmisFile R) (w : world R) d c status url s1 :
  staged h w d c ->
  getObjectByPath R (_name h) (repo w)
    = (inl (ObjectNotFoundException status url), s1) ->
  _upload (h, w) =
    match make_folders (rootFolder R s1)
            (Py.split "/" (fst (Py.os_path_split (_name h))))
            (Build_world R s1 (disk w) (calls w ++ [Call_getObjectByPath (_name h)]))
    with
    | (inl e, w2) => (inl e, (h, w2))
    | (inr last, w2) =>
        let filename := snd (Py.os_path_split (_name h)) in
        match createDocument R last filename c (repo w2) with
        | (inl e, s3) =>
            (inl (Cmis e),
             (h, Build_world R s3 (disk w2)
                   (calls w2 ++ [Call_createDocument last filename c])))
        | (inr doc, s3) =>
            (inr tt,
             (set_cmis_obj doc h,
              Build_world R s3 (disk w2)
                (calls w2 ++ [Call_createDocument last filename c])))
        end
    end.
Proof.
  intros (Hd & Hp & Hdir & Hf & L) G. unfold _upload.
  erewrite bind_ok by (apply temporary_filename_eq; eassumption).
  erewrite bind_ok
    by (eapply outside_ok, local_ok, open_rb; eauto using basename_no_slash).
  erewrite try_raise.
  2:{ erewrite bind_ok by reflexivity.
      erewrite bind_raise
        by (eapply outside_raise, get_object_missing; exact G).
      reflexivity. }
  cbn [repo disk calls].
  erewrite bind_ok by reflexivity.
  erewrite bind_ok by reflexivity.
  cbn [fst snd repo disk calls].
  destruct (Py.os_path_split (_name h)) as [dirpath filename]. cbn [fst snd].
  destruct (make_folders _ _ _) as [[e | last] w2] eqn:F.
  - erewrite bind_raise by (apply outside_raise; exact F). reflexivity.
  - destruct (make_folders_log _ _ _ F) as (evs & _ & D & _). cbn [disk] in D.
    erewrite bind_ok by (apply outside_ok; exact F).
    erewrite bind_ok
      by (apply outside_ok, read_file_rb; rewrite D; exact L).
    destruct (createDocument R last filename c (repo w2)) as [[e | doc] s3] eqn:C.
    + erewrite bind_raise by (apply outside_raise, call_raise; exact C).
      reflexivity.
    + erewrite bind_ok by (apply outside_ok, call_ok; exact C).
      reflexivity.
Qed.

Lemma upload_create (h : CmisFile R) (w : world R) d c status url s1
    steps last s2 doc s3 :
  staged h w d c ->
  getObjectByPath R (_name h) (repo w)
    = (inl (ObjectNotFoundException status url), s1) ->
  creation_protocol (rootFolder R s1) (directory_segments (_name h)) s1
    steps last s2 ->
  createDocument R last (final_filename (_name h)) c s2 = (inr doc, s3) ->
  exists evs,
    _upload (h, w) =
      (inr tt,
       (set_cmis_obj doc h,
        Build_world R s3 (disk w)
          (calls w ++ Call_getObjectByPath (_name h) :: evs
             ++ [Call_createDocument last (final_filename (_name h)) c])))
    /\ walk_only evs
    /\ folder_creations evs = missing_segments steps.
Proof.
  intros St G P C.
  rewrite (upload_create_runs St G).
  destruct (os_path_split_segments (_name h)) as (Segs & Fn & _).
  rewrite <- Segs in P.
  destruct (make_folders_protocol _
              (Build_world R s1 (disk w) (calls w ++ [Call_getObjectByPath (_name h)]))
              P) as (evs & E & W & K).
  cbn [repo disk calls] in E.
  exists evs. rewrite E. cbn [repo disk calls]. rewrite Fn, C.
  rewrite <- !app_assoc. splits; auto.
Qed.

Lemma same_handle_refl (h : CmisFile R) : same_handle h h.
Proof. repeat split. Qed.

Lemma same_handle_set_obj (h : CmisFile R) o : same_handle h (set_cmis_obj o h).
Proof. repeat split. Qed.

(** Opening for reading never changes the disk. *)
Lemma open_rb_disk (path : string) (f f' : filesystem) r :
  io.open path "rb" None f = (r, f') -> f' = f.
Proof.
  destruct r as [e | st]; [apply open_raises |].
  unfold io.open.
  change (io.parse_mode "rb")
    with (Some {| io.creating := false; io.reading := true; io.writing := false;
                  io.appending := false; io.updating := false; io.text := false;
                  io.binary := true |}).
  cbn [io.binary andb]. unfold io.open_file. cbn [io.reading io.creating io.writing
    io.appending io.updating].
  intros H. repeat break_match_in H; try discriminate; inversion H; reflexivity.
Qed.

Lemma make_folders_disk dirnames (folder : robj R) (w w' : world R) r :
  make_folders folder dirnames w = (r, w') -> disk w' = disk w.
Proof. intros H. destruct (make_folders_log _ _ _ H) as (evs & _ & D & _). exact D. Qed.

(** [_upload] assigns [cmis_obj] and no other attribute, and leaves the
    local disk alone, whatever the repository answers. *)
Lemma upload_keeps (h h' : CmisFile R) (w w' : world R) r :
  _upload (h, w) = (r, (h', w')) ->
  same_handle h h' /\ disk w' = disk w.
Proof.
  intros H. unfold _upload, _temporary_filename, read_file, _get_object in H.
  unfold_monad_in H.
  repeat (break_match_in H; cbn [fst snd repo disk calls] in *;
          try discriminate);
    inversion H; subst; clear H;
    repeat match goal with
      | E : io.open _ "rb" None _ = _ |- _ => apply open_rb_disk in E; subst
      | E : io.read _ _ = _ |- _ =>
          apply read_returns in E; destruct E as [E _]; subst
      | E : make_folders _ _ _ = _ |- _ =>
          apply make_folders_disk in E; cbn [disk] in E
      | E : (_, _) = (_, _) |- _ => inversion E; subst; clear E
      end;
    (split; [repeat split | cbn [disk]; congruence]).
Qed.

Lemma rmtree_removes (d : string) (f : filesystem) :
  fs.is_dir d (snd (fs.rmtree d f)) = false.
Proof.
  unfold fs.rmtree. destruct (fs.is_dir d f) eqn:E; cbn [snd]; [| exact E].
  unfold fs.is_dir. cbn [dirs]. clear E.
  induction (dirs f) as [| x l IH]; cbn [filter existsb]; [reflexivity |].
  destruct (String.eqb d x) eqn:Ex; cbn [negb]; [exact IH |].
  cbn [existsb]. rewrite Ex. exact IH.
Qed.

Lemma rmtree_existing (d : string) (f : filesystem) :
  fs.is_dir d f = true -> fst (fs.rmtree d f) = inr tt.
Proof. intros H. unfold fs.rmtree. rewrite H. reflexivity. Qed.

Lemma remove_temporary_directory_eq (h : CmisFile R) (w : world R) d :
  _temporary_directory h = Some d ->
  _remove_temporary_directory (h, w) =
    (fst (fs.rmtree d (disk w)),
     (h, Build_world R (repo w) (snd (fs.rmtree d (disk w)))
           (calls w ++ [Call_rmtree d]))).
Proof.
  intros Hd. unfold _remove_temporary_directory, bind, attr, outside, rmtree.
  cbn [fst snd]. rewrite Hd. cbn [fst snd].
  destruct (fs.rmtree d (disk w)); reflexivity.
Qed.

(** [close] on a closed handle does nothing. *)
Lemma close_closed (h : CmisFile R) (w : world R) st :
  _stream h = Some st -> io.closed st = true ->
  close (h, w) = (inr tt, (h, w)).
Proof.
  intros Hs Hc. unfold close, closed, bind, attr, ret. cbn [fst snd].
  rewrite Hs, Hc. reflexivity.
Qed.

(** [close] on an open handle: the stream is closed first, the upload
    follows when the handle has changed, the removal comes last and is
    reached only when the upload returned. *)
Lemma close_open (h : CmisFile R) (w : world R) st :
  _stream h = Some st -> io.closed st = false ->
  close (h, w) =
    if _has_changed h then
      match _upload (set_stream (io.close st) h, w) with
      | (inl e, s) => (inl e, s)
      | (inr _, s) => _remove_temporary_directory s
      end
    else _remove_temporary_directory (set_stream (io.close st) h, w).
Proof.
  intros Hs Hc. unfold close, closed.
  unfold bind at 1. unfold bind at 1. unfold attr at 1. cbn [fst snd].
  rewrite Hs. unfold ret at 1. rewrite Hc. cbn [negb].
  unfold bind at 1. unfold attr at 1. cbn [fst snd]. rewrite Hs.
  unfold bind at 1. unfold assign at 1, modify at 1. cbn [fst snd].
  unfold bind at 1. unfold this at 1, gets at 1. cbn [fst snd set_stream _has_changed].
  destruct (_has_changed h).
  - unfold bind at 1. reflexivity.
  - unfold bind at 1, ret at 1. reflexivity.
Qed.

(** Whatever [close] does, it leaves a handle with a closed stream. *)
Lemma close_leaves_closed (h h' : CmisFile R) (w w' : world R) r st :
  _stream h = Some st ->
  close (h, w) = (r, (h', w')) ->
  exists st', _stream h' = Some st' /\ io.closed st' = true.
Proof.
  intros Hs H. destruct (io.closed st) eqn:Hc.
  - rewrite (close_closed _ _ Hs Hc) in H. inversion H; subst. eauto.
  - rewrite (close_open _ _ Hs Hc) in H.
    assert (K : forall (s s' : self_state R) r0,
               _remove_temporary_directory s = (r0, s') -> fst s' = fst s).
    { intros [h0 w0] s' r0 E.
      unfold _remove_temporary_directory, bind, attr, outside, rmtree in E.
      cbn [fst snd] in E. repeat break_match_in E; inversion E; subst; reflexivity. }
    destruct (_has_changed h).
    + destruct (_upload _) as [[e | u] [h1 w1]] eqn:U;
        destruct (upload_keeps _ _ U) as [(_ & _ & _ & _ & _ & S1) _];
        cbn [set_stream _stream] in S1.
      * inversion H; subst. eauto.
      * apply K in H. cbn [fst] in H. subst h1. eauto.
    + apply K in H. cbn [fst] in H. subst h'. cbn. eauto.
Qed.

End FileFacts.

(** ** [close] *)

Section Close.

Variable R : Repository.

(** C8. A second [close] after a [close] that returned is a no-op: it
    returns without raising and leaves the handle and the world as they
    were, so no call is issued, neither a second upload nor a second
    removal of the temporary directory. *)
Theorem second_close_is_noop (s s1 : self_state R) :
  close s = (inr tt, s1) -> close s1 = (inr tt, s1).
Proof.
  destruct s as [h w], s1 as [h1 w1]. intros H.
  destruct (_stream h) as [st |] eqn:Hs.
  - destruct (close_leaves_closed _ _ Hs H) as (st' & Hs' & Hc').
    exact (close_closed _ _ Hs' Hc').
  - unfold close, closed, bind, attr in H. cbn [fst snd] in H.
    rewrite Hs in H. discriminate H.
Qed.


End Close.

(** The handle on the folder [/docs]: open, changed, with its temporary
    directory on the disk. *)
Lemma writing_folder_ready :
  exists h w st,
    Run.writing_folder = (h, w)
    /\ _stream h = Some st /\ io.closed st = false
    /\ _has_changed h = true
    /\ _temporary_directory h = Some "/tmp/tmp0"
    /\ fs.is_dir "/tmp/tmp0" (disk w) = true.
Proof. do 3 eexists. vm_compute. repeat split. Qed.

(** Closing it: the upload raises, and the temporary directory is still
    there. *)
Lemma writing_folder_close :
  exists h' w',
    close Run.writing_folder
      = (inl (Cmis (NotSupportedException 405 "content")), (h', w'))
    /\ fs.is_dir "/tmp/tmp0" (disk w') = true
    /\ removals (calls w') = [].
Proof. do 2 eexists. vm_compute. repeat split. Qed.

(** C1, at the failing input: [storage.open('docs', 'w')] on a repository
    where [/docs] is a folder, then [close()].  The handle is open and
    changed, and its temporary directory [/tmp/tmp0] is on the disk.  The
    upload raises (a folder takes no content stream); [close] raises the
    same error and never reaches the removal of the temporary directory:
    no [rmtree] is called and [/tmp/tmp0] is still on the disk.  So the
    cleanup that the specification asks for, whatever the upload does, is
    skipped. *)
Lemma cleanup_is_skipped_when_upload_raises :
  (exists h' w',
      close Run.writing_folder
        = (inl (Cmis (NotSupportedException 405 "content")), (h', w'))
      /\ _has_changed (fst Run.writing_folder) = true
      /\ fs.is_dir "/tmp/tmp0" (disk (snd Run.writing_folder)) = true
      /\ fs.is_dir "/tmp/tmp0" (disk w') = true
      /\ removals (calls w') = [])
  /\ ~ cleanup_survives_upload_failure.
Proof.
  destruct writing_folder_ready as (h & w & st & E & Hs & Hc & Hch & Hd & Hdir).
  destruct writing_folder_close as (h' & w' & C & Hdir' & Rm).
  split.
  - exists h', w'. rewrite E. cbn [fst snd]. splits; auto.
    rewrite E in C. exact C.
  - intros claim. rewrite E in C.
    pose proof (claim _ h h' w w' st _ _ Hs Hc Hch Hd Hdir C) as K.
    rewrite Hdir' in K. discriminate K.
Qed.

(** A witness for C8: [/docs/a.txt] read and closed, then closed again. *)
Lemma second_close_witness :
  close Run.reading = (inr tt, Run.reading_closed)
  /\ close Run.reading_closed = (inr tt, Run.reading_closed).
Proof.
  assert (H : close Run.reading = (inr tt, Run.reading_closed))
    by (vm_compute; reflexivity).
  split; [exact H | exact (second_close_is_noop _ H)].
Defined.

(** ** Opening a handle *)

Section OpenFacts.

Variable R : Repository.

Lemma is_dir_same_dirs (d : string) (f f' : filesystem) :
  dirs f' = dirs f -> fs.is_dir d f' = fs.is_dir d f.
Proof. intros H. unfold fs.is_dir. rewrite H. reflexivity. Qed.

Lemma open_keeps_dirs (path mode : string) enc (f f' : filesystem) r :
  io.open path mode enc f = (r, f') -> dirs f' = dirs f.
Proof.
  destruct r as [e | st]; intros H.
  - apply open_raises in H. subst. reflexivity.
  - apply open_returns in H. tauto.
Qed.

Lemma make_temporary_directory_eq (h : CmisFile R) (w : world R) :
  _make_temporary_directory (h, w) =
    (inr tt,
     (set_temporary_directory (fs.tmp_name (next_tmp (disk w))) h,
      Build_world R (repo w)
        {| dirs := fs.tmp_name (next_tmp (disk w)) :: dirs (disk w);
           files := files (disk w);
           next_tmp := S (next_tmp (disk w)) |}
        (calls w ++ [Call_mkdtemp (fs.tmp_name (next_tmp (disk w)))]))).
Proof. reflexivity. Qed.

(** [_download_or_mark_changed] assigns [cmis_obj] and [_has_changed] and
    writes the temporary file; it touches nothing else. *)
Lemma download_or_mark_keeps (mode : string) (h h' : CmisFile R) (w w' : world R) r :
  _download_or_mark_changed mode (h, w) = (r, (h', w')) ->
  cmis_object h' = cmis_object h /\ _name h' = _name h
  /\ _temporary_directory h' = _temporary_directory h
  /\ _stream h' = _stream h
  /\ dirs (disk w') = dirs (disk w).
Proof.
  intros H.
  unfold _download_or_mark_changed, _download, _temporary_filename, _get_object in H.
  unfold_monad_in H.
  repeat (break_match_in H; cbn [fst snd repo disk calls] in *;
          try discriminate);
    inversion H; subst; clear H;
    repeat match goal with
      | E : io.open _ _ _ _ = _ |- _ => apply open_keeps_dirs in E
      | E : write_each _ _ _ = _ |- _ =>
          apply write_each_keeps in E; destruct E as [E _]
      | E : (_, _) = (_, _) |- _ => inversion E; subst; clear E
      end;
    cbn [disk]; splits;
    first [ reflexivity | congruence
          | match goal with E : _temporary_directory _ = _ |- _ => exact E end ].
Qed.

(** The handle [storage.open] returns is open: its temporary directory
    exists and holds its temporary file, on which its stream is open. It
    carries the path with a leading slash, and its documented attribute
    [cmis_object] is [None]. *)
Lemma init_open_handle (n mode : string) enc (w w' : world R) (h : CmisFile R) :
  __init__ n mode enc w = (inr h, w') ->
  open_handle h w'
  /\ _name h = (if Py.startswith "/" n then n else "/" ++ n)%string
  /\ cmis_object h = None.
Proof.
  unfold __init__.
  set (self := Build_CmisFile R None None _ _ _ None None).
  destruct (_open mode enc (self, w)) as [[e | u] [h3 w3]] eqn:O; [discriminate |].
  intros H; inversion H; subst; clear H.
  unfold _open in O.
  erewrite bind_ok in O by apply make_temporary_directory_eq.
  erewrite bind_ok in O by reflexivity.
  set (d := fs.tmp_name (next_tmp (disk w))) in *.
  unfold bind at 1 in O.
  match type of O with
  | context [match ?c ?s with _ => _ end] =>
      assert (K : exists r h2 w2,
                 c s = (r, (h2, w2))
                 /\ cmis_object h2 = None /\ _name h2 = _name self
                 /\ _temporary_directory h2 = Some d /\ _stream h2 = None
                 /\ dirs (disk w2) = d :: dirs (disk w))
  end.
  { cbn [fst set_temporary_directory _should_download].
    destruct (_should_download self).
    - destruct (_download_or_mark_changed _ _) as [r [h2 w2]] eqn:D.
      destruct (download_or_mark_keeps _ _ _ D) as (A & B & C & E & F).
      exists r, h2, w2. splits; auto.
    - do 3 eexists. splits; reflexivity. }
  destruct K as (r & h2 & w2 & E & Ho & Hn & Hd & Hs & Hdirs).
  rewrite E in O. destruct r as [e | u']; [discriminate |].
  erewrite bind_ok in O
    by (apply temporary_filename_eq; [exact Hd | apply tmp_name_plain]).
  unfold bind at 1, outside at 1, local at 1 in O. cbn [fst snd] in O.
  destruct (io.open _ mode enc (disk w2)) as [[e | st] f3] eqn:Op; [discriminate |].
  unfold assign, modify in O. inversion O; subst; clear O.
  destruct (open_returns _ _ _ _ Op) as (N & C & D & _ & Fn & c & L).
  unfold tmpfile in Fn. unfold Py.basename at 1 in Fn.
  rewrite (rcut_app _ _ (basename_no_slash (_name h2))) in Fn. cbn [snd] in Fn.
  splits.
  - exists d, c, st. unfold staged. cbn [set_stream _temporary_directory _stream _name disk].
    splits; auto.
    + apply tmp_name_plain.
    + unfold fs.is_dir. rewrite D, Hdirs. cbn [existsb]. rewrite String.eqb_refl.
      reflexivity.
  - cbn [set_stream _name]. rewrite Hn. reflexivity.
  - cbn [set_stream cmis_object]. exact Ho.
Qed.

(** Reading and writing keep a handle open, keep its path, never reset
    [_has_changed], and call neither the repository nor [tempfile] nor
    [shutil]. *)
Lemma perform_keeps_open (op : operation) (h h' : CmisFile R) (w w' : world R) r :
  open_handle h w ->
  perform op (h, w) = (r, (h', w')) ->
  open_handle h' w'
  /\ _name h' = _name h
  /\ (_has_changed h = true -> _has_changed h' = true)
  /\ calls w' = calls w /\ repo w' = repo w.
Proof.
  intros (d & c & st & (Hd & Hp & Hdir & Hf & L) & Hs & Hn & Hc) H.
  assert (Ready : forall (h0 : CmisFile R) st0 f0 c0,
             _name h0 = _name h -> _temporary_directory h0 = Some d ->
             _stream h0 = Some st0 -> io.name st0 = tmpfile h d ->
             io.closed st0 = false -> dirs f0 = dirs (disk w) ->
             fs.lookup (tmpfile h d) (files f0) = Some c0 ->
             open_handle h0 (Build_world R (repo w) f0 (calls w))).
  { intros h0 st0 f0 c0 En Ed Es Ename Ec Edirs El.
    exists d, c0, st0. unfold staged, tmpfile in *. rewrite En. cbn [disk].
    splits; auto. rewrite (is_dir_same_dirs _ _ _ Edirs). exact Hdir. }
  destruct op as [| data | lines]; cbn [perform] in H.
  - (* read *)
    unfold read in H. unfold_monad_in H. rewrite Hs in H.
    cbn [fst snd repo disk calls] in H.
    destruct (io.read st (disk w)) as [[e | [b st']] f'] eqn:Rd;
      destruct (read_returns _ _ Rd) as [Ef K]; subst f';
      cbn [fst snd] in H; inversion H; subst; clear H.
    + splits; auto. eapply Ready; eauto.
    + destruct (K _ _ eq_refl) as [K1 K2].
      splits; auto. eapply Ready; cbn; eauto; try congruence.
  - (* write *)
    unfold write in H. unfold_monad_in H.
    cbn [set_has_changed _stream] in H. rewrite Hs in H.
    cbn [fst snd repo disk calls] in H.
    destruct (io.write data st (disk w)) as [[e | st'] f'] eqn:W;
      inversion H; subst; clear H.
    + apply write_raises in W. subst f'.
      splits; auto. eapply Ready; cbn; eauto.
    + destruct (write_returns _ _ _ W) as (N & C & D & _ & c' & L').
      rewrite Hn in L'. splits; auto. eapply Ready; cbn; eauto; try congruence.
  - (* writelines *)
    unfold writelines in H. unfold_monad_in H.
    cbn [set_has_changed _stream] in H. rewrite Hs in H.
    cbn [fst snd repo disk calls] in H.
    destruct (io.writelines lines st (disk w)) as [[e | st'] f'] eqn:W;
      inversion H; subst; clear H;
      rewrite <- Hn in L;
      destruct (writelines_keeps _ _ _ L W) as (D & _ & (c' & L') & K);
      rewrite Hn in L'.
    + splits; auto. eapply Ready; cbn; eauto; try congruence.
    + destruct (K _ eq_refl) as [K1 K2].
      splits; auto. eapply Ready; cbn; eauto; try congruence.
Qed.

Lemma perform_all_keeps_open (ops : list operation) :
  forall (h h' : CmisFile R) (w w' : world R),
    open_handle h w ->
    perform_all ops (h, w) = (h', w') ->
    open_handle h' w'
    /\ _name h' = _name h
    /\ (_has_changed h = true -> _has_changed h' = true)
    /\ calls w' = calls w /\ repo w' = repo w.
Proof.
  induction ops as [| op rest IH]; intros h h' w w' Ho H.
  - inversion H; subst. splits; auto.
  - cbn [perform_all] in H.
    destruct (perform op (h, w)) as [r [h1 w1]] eqn:P. cbn [snd] in H.
    destruct (perform_keeps_open _ Ho P) as (Ho1 & N1 & C1 & L1 & R1).
    destruct (IH _ _ _ _ Ho1 H) as (Ho2 & N2 & C2 & L2 & R2).
    splits; auto; congruence.
Qed.

End OpenFacts.

(** ** Resolve attempts *)

Section Resolves.

Variable R : Repository.

Lemma resolve_attempts_app (l1 l2 : list (event (robj R))) :
  resolve_attempts (l1 ++ l2) = resolve_attempts l1 ++ resolve_attempts l2.
Proof. apply flat_map_app. Qed.


Lemma removals_app (l1 l2 : list (event (robj R))) :
  removals (l1 ++ l2) = removals l1 ++ removals l2.
Proof. apply flat_map_app. Qed.

(** However [_upload] ends, it has resolved the path of the handle exactly
    once, as its first call, and has removed nothing. *)
Lemma upload_resolves_once (h h' : CmisFile R) (w w' : world R) d c r :
  staged h w d c ->
  _upload (h, w) = (r, (h', w')) ->
  exists evs,
    calls w' = calls w ++ Call_getObjectByPath (_name h) :: evs
    /\ resolve_attempts evs = [] /\ removals evs = [].
Proof.
  intros St U.
  destruct (getObjectByPath R (_name h) (repo w)) as [[e | o] s1] eqn:G.
  - assert (D : (exists status url, e = ObjectNotFoundException status url)
                \/ (forall status url, e <> ObjectNotFoundException status url)).
    { destruct e; try (right; intros; discriminate). left. eauto. }
    destruct D as [(status & url & E) | N].
    + subst e. rewrite (upload_create_runs St G) in U.
      destruct (make_folders _ _ _) as [[e | last] w2] eqn:F;
        destruct (make_folders_log _ _ _ F) as (evs & C & _ & W);
        cbn [calls] in C;
        destruct (walk_only_quiet W) as (Q1 & _ & _ & Q4).
      * injection U as _ _ Ew. rewrite <- Ew.
        exists evs. rewrite C, <- app_assoc. auto.
      * cbn zeta in U.
        destruct (createDocument R last _ c (repo w2)) as [[e | doc] s3];
          injection U as _ _ Ew; rewrite <- Ew; cbn [calls];
          exists (evs ++ [Call_createDocument last
                            (snd (Py.os_path_split (_name h))) c]);
          rewrite C, <- !app_assoc, resolve_attempts_app, removals_app, Q1, Q4;
          auto.
    + rewrite (upload_lookup_fails St G N) in U.
      injection U as _ _ Ew. rewrite <- Ew. exists []. auto.
  - destruct (setContentStream R o c s1) as [r0 s2] eqn:S.
    rewrite (upload_replace St G S) in U.
    injection U as _ _ Ew. rewrite <- Ew.
    exists [Call_setContentStream o c]. auto.
Qed.

Lemma parse_mode_writing (mode : string) m :
  io.parse_mode mode = Some m -> io.writing m = true ->
  Py.contains "r" mode = false /\ Py.contains "a" mode = false.
Proof.
  unfold io.parse_mode. intros H Hw.
  destruct (negb _ || negb _); [discriminate |].
  destruct (Py.contains "t" mode && Py.contains "b" mode); [discriminate |].
  destruct (negb _) eqn:One; [discriminate |].
  inversion H; subst; clear H. cbn [io.writing] in Hw.
  apply negb_false_iff, Nat.eqb_eq in One. rewrite Hw in One.
  destruct (Py.contains "r" mode), (Py.contains "a" mode),
    (Py.contains "x" mode); cbn in One; try discriminate; auto.
Qed.



End Resolves.

(** ** The creation protocol *)

Section Creation.

Variable R : Repository.

Lemma find_folder_sound (segment : string) (results : list (robj R)) :
  forall (w w' : world R) found,
    find_folder segment results w = (inr found, w') ->
    first_named segment results (repo w) found (repo w').
Proof.
  induction results as [| d rest IH]; intros w w' found H.
  - inversion H; subst. constructor.
  - cbn [find_folder] in H. unfold bind, call in H.
    destruct (getName R d (repo w)) as [[e | n] s'] eqn:N; [discriminate |].
    destruct (String.eqb n segment) eqn:E.
    + inversion H; subst. apply String.eqb_eq in E. subst n.
      apply first_named_here. exact N.
    + apply String.eqb_neq in E.
      eapply first_named_later; [exact N | exact E |].
      exact (IH _ _ _ H).
Qed.

(** What the loop of [_upload] did, when it returned, is a run of the
    protocol. *)
Lemma make_folders_sound (dirnames : list string) :
  forall (folder : robj R) (w w' : world R) last,
    make_folders folder dirnames w = (inr last, w') ->
    exists steps,
      creation_protocol folder
        (filter nonempty dirnames) (repo w)
        steps last (repo w').
Proof.
  induction dirnames as [| dirname rest IH]; intros folder w w' last H.
  - inversion H; subst. exists []. constructor.
  - cbn [make_folders filter] in *. unfold nonempty at 1.
    destruct (negb (String.eqb dirname EmptyString)); [| exact (IH _ _ _ _ H)].
    unfold bind at 1 in H. unfold call at 1 in H.
    destruct (getTree R folder (repo w)) as [[e | rs] s1] eqn:T; [discriminate |].
    unfold bind at 1 in H.
    destruct (find_folder dirname rs _) as [[e | found] w2] eqn:F; [discriminate |].
    apply find_folder_sound in F. cbn [repo] in F.
    unfold bind at 1 in H.
    destruct found as [d |].
    + unfold ret at 1 in H. destruct (IH _ _ _ _ H) as (steps & P).
      exists (Existing R dirname d :: steps).
      eapply protocol_descend; eauto.
    + unfold call at 1 in H.
      destruct (createFolder R folder dirname (repo w2)) as [[e | new] s3] eqn:C;
        [discriminate |].
      destruct (IH _ _ _ _ H) as (steps & P). cbn [repo] in P.
      exists (Missing R dirname folder new :: steps).
      eapply protocol_create; eauto.
Qed.

(** C3. When the path of a staged handle does not resolve at upload time,
    [_upload] runs the creation protocol.  If the protocol of the
    specification can run from the root folder over the directory segments
    of the path, and the document can be created under the folder it ends
    in, then [_upload] returns, having issued after the one resolve
    attempt: the calls of the walk, among them one [createFolder] for each
    segment the protocol found missing, under its parent and in order, and
    none for a segment it found; and last one [createDocument] under the
    last folder, named after the final filename, with the bytes of the
    temporary file.  The protocol takes one step per directory segment, in
    order.  Conversely an [_upload] that returns has run the protocol. *)
Theorem upload_runs_creation_protocol
    (h : CmisFile R) (w : world R) d c status url s1 :
  staged h w d c ->
  getObjectByPath R (_name h) (repo w)
    = (inl (ObjectNotFoundException status url), s1) ->
  (forall steps last s2 doc s3,
      creation_protocol (rootFolder R s1) (directory_segments (_name h)) s1
        steps last s2 ->
      createDocument R last (final_filename (_name h)) c s2 = (inr doc, s3) ->
      map (@step_segment R) steps = directory_segments (_name h)
      /\ exists evs,
          _upload (h, w) =
            (inr tt,
             (set_cmis_obj doc h,
              Build_world R s3 (disk w)
                (calls w ++ Call_getObjectByPath (_name h) :: evs
                   ++ [Call_createDocument last (final_filename (_name h)) c])))
          /\ folder_creations evs = missing_segments steps
          /\ document_creations evs = []
          /\ content_replacements evs = []
          /\ resolve_attempts evs = [])
  /\
  (forall h' w',
      _upload (h, w) = (inr tt, (h', w')) ->
      exists steps last s2 doc,
        creation_protocol (rootFolder R s1) (directory_segments (_name h)) s1
          steps last s2
        /\ createDocument R last (final_filename (_name h)) c s2
           = (inr doc, repo w')
        /\ h' = set_cmis_obj doc h).
Proof.
  intros St G. split.
  - intros steps last s2 doc s3 P C. split.
    + exact (creation_protocol_segments P).
    + destruct (upload_create St G P C) as (evs & U & W & K).
      destruct (walk_only_quiet W) as (Q1 & Q2 & Q3 & _).
      exists evs. splits; auto.
  - intros h' w' U. rewrite (upload_create_runs St G) in U.
    destruct (os_path_split_segments (_name h)) as (Segs & Fn & _).
    destruct (make_folders _ _ _) as [[e | last] w2] eqn:F; [discriminate |].
    destruct (make_folders_sound _ _ _ F) as (steps & P).
    cbn [repo] in P. rewrite Segs in P. cbn zeta in U. rewrite Fn in U.
    destruct (createDocument R last _ c (repo w2)) as [[e | doc] s3] eqn:C;
      [discriminate |].
    inversion U; subst. cbn [repo].
    exists steps, last, (repo w2), doc. auto.
Qed.

End Creation.

(** ** [_download] *)

Section Download.

Variable R : Repository.


(** [_download] of a path that resolves: the chunks of the content stream
    are written to the temporary file in the order they arrive. *)
Lemma download_found (h : CmisFile R) (w : world R) d o s1 chunks s2 :
  _temporary_directory h = Some d -> plain_dir d ->
  fs.is_dir d (disk w) = true ->
  Py.is_filename (Py.basename (_name h)) = true ->
  getObjectByPath R (_name h) (repo w) = (inr o, s1) ->
  getContentStream R o s1 = (inr chunks, s2) ->
  exists f',
    _download (h, w) =
      (inr tt,
       (set_cmis_obj o h,
        Build_world R s2 f'
          (calls w ++ [Call_getObjectByPath (_name h); Call_getContentStream o])))
    /\ fs.lookup (tmpfile h d) (files f') = Some (concat chunks)
    /\ dirs f' = dirs (disk w).
Proof.
  intros Hd Hp Hdir Hf G Cs. unfold _download.
  erewrite bind_ok by (apply temporary_filename_eq; eassumption).
  erewrite bind_ok
    by (eapply outside_ok, local_ok, open_wb; eauto using basename_no_slash).
  erewrite bind_ok by reflexivity.
  erewrite bind_ok by (eapply outside_ok, get_object_found; exact G).
  erewrite bind_ok by reflexivity.
  erewrite bind_ok by (eapply outside_ok, call_ok; exact Cs).
  cbn [fst snd repo disk calls set_cmis_obj].
  edestruct (write_each_appends chunks
               {| io.name := tmpfile h d; io.mode := "wb"; io.encoding := None;
                  io.can_read := false; io.can_write := true; io.at_end := false;
                  io.pos := 0; io.closed := false |}
               (fs.write_file (tmpfile h d) [] (disk w)) (c:=[]))
    as (st' & f' & E & L & D & _); try reflexivity.
  { apply lookup_write_file. }
  cbn [io.name app] in L. exists f'.
  erewrite bind_ok by (eapply outside_ok, local_ok; exact E).
  rewrite <- app_assoc. splits; auto.
Qed.

End Download.

(** ** Modes *)

Section Modes.

Lemma parse_mode_flags (mode : string) m :
  io.parse_mode mode = Some m ->
  io.creating m = Py.contains "x" mode /\ io.reading m = Py.contains "r" mode
  /\ io.writing m = Py.contains "w" mode /\ io.appending m = Py.contains "a" mode
  /\ io.b2n (io.creating m) + io.b2n (io.reading m)
     + io.b2n (io.writing m) + io.b2n (io.appending m) = 1.
Proof.
  unfold io.parse_mode. intros H.
  destruct (negb _ || negb _); [discriminate |].
  destruct (Py.contains "t" mode && Py.contains "b" mode); [discriminate |].
  destruct (negb _) eqn:One; [discriminate |].
  inversion H; subst; clear H. cbn [io.creating io.reading io.writing io.appending].
  apply negb_false_iff, Nat.eqb_eq in One. auto.
Qed.


Lemma parse_mode_reading (mode : string) m :
  io.parse_mode mode = Some m -> io.reading m = true ->
  io.creating m = false /\ io.writing m = false /\ io.appending m = false
  /\ Py.contains "r" mode = true /\ Py.contains "w" mode = false.
Proof.
  intros P A. destruct (parse_mode_flags _ P) as (_ & Er & Ew & _ & One).
  rewrite <- Er, <- Ew, A in *.
  destruct (io.creating m), (io.writing m), (io.appending m);
    cbn in One; try discriminate; auto.
Qed.

Lemma parse_mode_write (mode : string) m :
  io.parse_mode mode = Some m -> io.writing m = true ->
  io.creating m = false /\ io.reading m = false /\ io.appending m = false
  /\ Py.contains "w" mode = true.
Proof.
  intros P A. destruct (parse_mode_flags _ P) as (_ & _ & Ew & _ & One).
  rewrite <- Ew, A in *.
  destruct (io.creating m), (io.reading m), (io.appending m);
    cbn in One; try discriminate; auto.
Qed.

(** [io.open] on the temporary file of a handle, in a mode it accepts. *)
Lemma open_in_tmp (d b mode : string) enc m (f : filesystem) :
  plain_dir d -> fs.is_dir d f = true ->
  Py.contains "/" b = false -> Py.is_filename b = true ->
  io.parse_mode mode = Some m ->
  io.binary m && (match enc with Some _ => true | None => false end) = false ->
  io.open (d ++ "/" ++ b) mode enc f = io.open_file (d ++ "/" ++ b) mode enc m f.
Proof.
  intros [Hne Hd] Hdir Hb Hfile P E. unfold io.open. rewrite P, E.
  rewrite (rcut_app d b Hb), rstrip_app_slash, (rstrip_plain _ Hd), Hdir, Hfile.
  reflexivity.
Qed.

End Modes.

(** ** The kind of the stream of a handle *)

Section StreamKind.

Variable R : Repository.

Lemma parse_mode_binary (mode : string) m :
  io.parse_mode mode = Some m ->
  io.binary m = Py.contains "b" mode /\ io.updating m = Py.contains "+" mode.
Proof.
  unfold io.parse_mode. intros H.
  destruct (negb _ || negb _); [discriminate |].
  destruct (Py.contains "t" mode && Py.contains "b" mode); [discriminate |].
  destruct (negb _); [discriminate |].
  inversion H; subst; clear H. split; reflexivity.
Qed.

(** The stream [io.open] returns carries the mode it was opened with. *)
Lemma open_stream_mode (path mode : string) enc (f f' : filesystem) st :
  io.open path mode enc f = (inr st, f') ->
  io.mode st = mode
  /\ exists m, io.parse_mode mode = Some m
       /\ io.can_read st = io.reading m || io.updating m
       /\ io.can_write st = negb (io.reading m) || io.updating m.
Proof.
  unfold io.open.
  destruct (io.parse_mode mode) as [m |]; [| discriminate].
  destruct (io.binary m && _); [discriminate |].
  destruct (Py.rcut path) as [head tail].
  destruct (fs.is_dir _ f); simpl; [| discriminate].
  destruct (Py.is_filename tail); simpl; [| discriminate].
  unfold io.open_file.
  destruct (fs.lookup path (files f)) as [c |].
  - destruct (io.creating m); [discriminate |].
    destruct (io.writing m); [| destruct (io.appending m)];
      intros H; inversion H; subst; simpl; eauto.
  - destruct (io.reading m) eqn:Rm; [discriminate |].
    intros H; inversion H; subst; simpl.
    split; [reflexivity |]. exists m. rewrite Rm. auto.
Qed.

(** The stream of the handle [storage.open] returns: open, of the mode
    that was asked for. *)
Lemma init_stream_mode (n mode : string) enc (w w1 : world R) (h : CmisFile R) m :
  open n mode enc w = (inr h, w1) ->
  io.parse_mode mode = Some m ->
  exists st,
    _stream h = Some st
    /\ io.is_binary st = io.binary m
    /\ io.can_read st = io.reading m || io.updating m
    /\ io.can_write st = negb (io.reading m) || io.updating m.
Proof.
  unfold open, __init__.
  set (self := Build_CmisFile R None None _ _ _ None None).
  destruct (_open mode enc (self, w)) as [[e | u] [h3 w3]] eqn:O; [discriminate |].
  intros H P; inversion H; subst; clear H.
  unfold _open in O.
  erewrite bind_ok in O by apply make_temporary_directory_eq.
  erewrite bind_ok in O by reflexivity.
  unfold bind at 1 in O.
  match type of O with
  | context [match ?c ?s with _ => _ end] =>
      destruct (c s) as [[e | u'] s2] eqn:D; [discriminate |]
  end.
  unfold bind at 1 in O.
  destruct (_temporary_filename s2) as [[e | tmp] s3] eqn:T; [discriminate |].
  unfold bind at 1, outside at 1, local at 1 in O.
  destruct (io.open tmp mode enc (disk (snd s3))) as [[e | st] f3] eqn:Op;
    [discriminate |].
  unfold assign, modify in O. inversion O; subst; clear O.
  destruct (open_stream_mode _ _ _ _ Op) as (Hm & m' & P' & Hr & Hw).
  assert (m' = m) by congruence. subst m'.
  exists st. cbn [set_stream _stream]. splits; auto.
  unfold io.is_binary. rewrite Hm. symmetry. apply (parse_mode_binary _ P).
Qed.

Lemma same_kind_refl (st : io.stream) : same_kind st st.
Proof. unfold same_kind. auto. Qed.

Lemma same_kind_trans (a b c : io.stream) :
  same_kind a b -> same_kind b c -> same_kind a c.
Proof. unfold same_kind. intros (A & B & C) (D & E & F). splits; congruence. Qed.

Lemma write_keeps_kind (data : bytes) (st st' : io.stream) (f f' : filesystem) :
  io.write data st f = (inr st', f') -> same_kind st st'.
Proof.
  unfold io.write.
  destruct (io.closed st || negb (io.can_write st)); [discriminate |].
  intros H; inversion H; subst. unfold same_kind. simpl. auto.
Qed.

Lemma read_keeps_kind (st st' : io.stream) (f f' : filesystem) b :
  io.read st f = (inr (b, st'), f') -> same_kind st st'.
Proof.
  unfold io.read.
  destruct (io.closed st || negb (io.can_read st)); [discriminate |].
  destruct (io.is_binary st); [| destruct (io.utf8 _); [| discriminate]];
    intros H; inversion H; subst; unfold same_kind; simpl; auto.
Qed.

Lemma write_lines_keeps_kind (lines : list bytes) :
  forall (st st' : io.stream) (f f' : filesystem),
    io.write_lines lines st f = (inr st', f') -> same_kind st st'.
Proof.
  induction lines as [| l ls IH]; intros st st' f f' H.
  - inversion H; subst. apply same_kind_refl.
  - simpl in H. unfold bind in H.
    destruct (io.write l st f) as [[e | st1] f1] eqn:W; [discriminate |].
    exact (same_kind_trans (write_keeps_kind _ _ _ W) (IH _ _ _ _ H)).
Qed.

Lemma writelines_keeps_kind (lines : list bytes) (st st' : io.stream)
    (f f' : filesystem) :
  io.writelines lines st f = (inr st', f') -> same_kind st st'.
Proof.
  unfold io.writelines. destruct (io.closed st); [discriminate |].
  apply write_lines_keeps_kind.
Qed.

(** No operation changes the kind of the stream of a handle. *)
Lemma perform_keeps_kind (op : operation) (h h' : CmisFile R) (w w' : world R) r st :
  perform op (h, w) = (r, (h', w')) ->
  _stream h = Some st ->
  exists st', _stream h' = Some st' /\ same_kind st st'.
Proof.
  intros H Hs. destruct op as [| data | lines]; cbn [perform] in H.
  - unfold read in H. unfold_monad_in H. rewrite Hs in H.
    cbn [fst snd repo disk calls] in H.
    destruct (io.read st (disk w)) as [[e | [b st']] f'] eqn:Rd;
      cbn [fst snd] in H; inversion H; subst; clear H.
    + eauto using same_kind_refl.
    + cbn [set_stream _stream]. eauto using read_keeps_kind.
  - unfold write in H. unfold_monad_in H.
    cbn [set_has_changed _stream] in H. rewrite Hs in H.
    cbn [fst snd repo disk calls] in H.
    destruct (io.write data st (disk w)) as [[e | st'] f'] eqn:W;
      inversion H; subst; clear H; cbn [set_stream set_has_changed _stream].
    + eauto using same_kind_refl.
    + eauto using write_keeps_kind.
  - unfold writelines in H. unfold_monad_in H.
    cbn [set_has_changed _stream] in H. rewrite Hs in H.
    cbn [fst snd repo disk calls] in H.
    destruct (io.writelines lines st (disk w)) as [[e | st'] f'] eqn:W;
      inversion H; subst; clear H; cbn [set_stream set_has_changed _stream].
    + eauto using same_kind_refl.
    + eauto using writelines_keeps_kind.
Qed.

Lemma perform_all_keeps_kind (ops : list operation) :
  forall (h h' : CmisFile R) (w w' : world R) st,
    perform_all ops (h, w) = (h', w') ->
    _stream h = Some st ->
    exists st', _stream h' = Some st' /\ same_kind st st'.
Proof.
  induction ops as [| op rest IH]; intros h h' w w' st H Hs.
  - inversion H; subst. eauto using same_kind_refl.
  - cbn [perform_all] in H.
    destruct (perform op (h, w)) as [r [h1 w1]] eqn:P. cbn [snd] in H.
    destruct (perform_keeps_kind _ _ _ P Hs) as (st1 & Hs1 & K1).
    destruct (IH _ _ _ _ _ H Hs1) as (st2 & Hs2 & K2).
    eauto using same_kind_trans.
Qed.

(** [close] leaves the stream closed and of the kind it was. *)
Lemma close_keeps_kind (h h' : CmisFile R) (w w' : world R) r st :
  close (h, w) = (r, (h', w')) ->
  _stream h = Some st ->
  exists st', _stream h' = Some st' /\ io.closed st' = true /\ same_kind st st'.
Proof.
  intros H Hs. destruct (io.closed st) eqn:Hc.
  - rewrite (close_closed _ _ Hs Hc) in H. inversion H; subst.
    eauto using same_kind_refl.
  - rewrite (close_open _ _ Hs Hc) in H.
    assert (K : forall (s s' : self_state R) r0,
               _remove_temporary_directory s = (r0, s') -> fst s' = fst s).
    { intros [h0 w0] s' r0 E.
      unfold _remove_temporary_directory, bind, attr, outside, rmtree in E.
      cbn [fst snd] in E. repeat break_match_in E; inversion E; subst; reflexivity. }
    assert (Kc : same_kind st (io.close st)) by (unfold same_kind; simpl; auto).
    destruct (_has_changed h).
    + destruct (_upload _) as [[e | u] [h1 w1]] eqn:U;
        destruct (upload_keeps _ _ U) as [(_ & _ & _ & _ & _ & S1) _];
        cbn [set_stream _stream] in S1.
      * inversion H; subst. eauto.
      * apply K in H. cbn [fst] in H. subst h1. eauto.
    + apply K in H. cbn [fst] in H. subst h'. cbn. eauto.
Qed.

End StreamKind.

(** ** Writing and closing *)

Section WriteClose.

Variable R : Repository.

(** A write at the end of the temporary file appends to it. *)
Lemma write_appends (h : CmisFile R) (w : world R) d c st data :
  staged h w d c ->
  _stream h = Some st -> io.name st = tmpfile h d ->
  io.closed st = false -> io.can_write st = true ->
  io.at_end st = true \/ io.pos st = length c ->
  exists h2 w2 st2,
    write data (h, w) = (inr tt, (h2, w2))
    /\ staged h2 w2 d (c ++ data)
    /\ _has_changed h2 = true /\ _name h2 = _name h
    /\ _stream h2 = Some st2 /\ io.name st2 = tmpfile h2 d
    /\ io.closed st2 = false
    /\ repo w2 = repo w /\ calls w2 = calls w.
Proof.
  intros (Hd & Hp & Hdir & Hf & L) Hs Hn Hc Hw Hpos.
  assert (E : io.write data st (disk w) =
              (inr {| io.name := io.name st; io.mode := io.mode st;
                      io.encoding := io.encoding st; io.can_read := io.can_read st;
                      io.can_write := io.can_write st; io.at_end := io.at_end st;
                      io.pos := length c + length data; io.closed := io.closed st |},
               fs.write_file (io.name st) (c ++ data) (disk w))).
  { unfold io.write, io.content. rewrite Hc, Hw, Hn, L. cbn [negb].
    assert (P : (if io.at_end st then length c else io.pos st) = length c).
    { destruct Hpos as [A | A]; rewrite A; [reflexivity |].
      destruct (io.at_end st); reflexivity. }
    rewrite P, firstn_all, skipn_all2 by lia. rewrite app_nil_r. reflexivity. }
  do 3 eexists. unfold write.
  erewrite bind_ok by reflexivity.
  erewrite bind_ok
    by (unfold attr; cbn [fst set_has_changed _stream]; rewrite Hs; reflexivity).
  erewrite bind_ok by (eapply outside_ok, local_ok; exact E).
  unfold assign, modify. cbn [fst snd].
  split; [reflexivity |].
  unfold staged, tmpfile in *.
  cbn [set_stream set_has_changed _temporary_directory _name _has_changed
         _stream disk repo calls io.name io.closed].
  rewrite Hn. splits; auto. apply lookup_write_file.
Qed.



End WriteClose.

(** ** Opening a path that is absent *)

Section Missing.

Variable R : Repository.




End Missing.

Section MissingPath.

Variable R : Repository.

Lemma document_creations_app (l1 l2 : list (event (robj R))) :
  document_creations (l1 ++ l2) = document_creations l1 ++ document_creations l2.
Proof. apply flat_map_app. Qed.

Lemma content_replacements_app (l1 l2 : list (event (robj R))) :
  content_replacements (l1 ++ l2)
  = content_replacements l1 ++ content_replacements l2.
Proof. apply flat_map_app. Qed.


(** A path whose last component cannot name a file: an open that
    downloads raises the local error when [_download] opens the temporary
    file, before anything is looked up, whatever the repository holds. *)
Lemma open_not_a_filename (n mode : string) enc (w : world R) :
  Py.is_filename (Py.basename (remote_path n)) = false ->
  Py.contains "r" mode || Py.contains "a" mode = true ->
  open n mode enc w
  = (inl (OSError "EISDIR"),
     Build_world R (repo w)
       {| dirs := fs.tmp_name (next_tmp (disk w)) :: dirs (disk w);
          files := files (disk w);
          next_tmp := S (next_tmp (disk w)) |}
       (calls w ++ [Call_mkdtemp (fs.tmp_name (next_tmp (disk w)))])).
Proof.
  intros Hf Cd.
  set (d := fs.tmp_name (next_tmp (disk w))).
  set (f1 := {| dirs := d :: dirs (disk w); files := files (disk w);
                next_tmp := S (next_tmp (disk w)) |}).
  assert (Hdir : fs.is_dir d f1 = true).
  { unfold fs.is_dir, f1. cbn [dirs existsb]. rewrite String.eqb_refl. reflexivity. }
  assert (O : io.open (d ++ "/" ++ Py.basename (remote_path n)) "wb" None f1
              = (inl (OSError "EISDIR"), f1)).
  { destruct (tmp_name_plain (next_tmp (disk w))) as [Hne Hd]. fold d in Hne, Hd.
    unfold io.open.
    change (io.parse_mode "wb")
      with (Some {| io.creating := false; io.reading := false; io.writing := true;
                    io.appending := false; io.updating := false; io.text := false;
                    io.binary := true |}).
    cbn [io.binary andb].
    rewrite (rcut_app d _ (basename_no_slash (remote_path n))),
      rstrip_app_slash, (rstrip_plain _ Hd), Hdir, Hf.
    reflexivity. }
  set (self := Build_CmisFile R None None (remote_path n) true
                 (Py.contains "w" mode) (Some d) None).
  set (w1 := Build_world R (repo w) f1 (calls w ++ [Call_mkdtemp d])).
  assert (D : _download (self, w1) = (inl (OSError "EISDIR"), (self, w1))).
  { unfold _download.
    erewrite bind_ok
      by (apply (temporary_filename_eq self w1 (d:=d));
          [reflexivity | apply tmp_name_plain]).
    erewrite bind_raise
      by (apply outside_raise, local_ok; unfold tmpfile; cbn [_name self disk w1];
          exact O).
    reflexivity. }
  unfold open, __init__, _open.
  erewrite bind_ok by apply make_temporary_directory_eq.
  erewrite bind_ok by reflexivity.
  rewrite Cd. fold (remote_path n). fold d. fold f1.
  cbn [fst _should_download set_temporary_directory cmis_object cmis_obj
         _name _has_changed _temporary_directory _stream].
  fold self. fold w1.
  erewrite bind_raise
    by (unfold _download_or_mark_changed;
        erewrite try_raise by exact D; reflexivity).
  reflexivity.
Qed.

End MissingPath.


(** ** Opening for writing, opening for reading *)

Section OpenModes.

Variable R : Repository.

(** A write mode [io.open] accepts: nothing is downloaded, the handle is
    returned changed, with an empty temporary file. *)
Lemma init_write (n mode : string) enc (w : world R) m :
  Py.is_filename (Py.basename (remote_path n)) = true ->
  io.parse_mode mode = Some m -> io.writing m = true ->
  io.binary m && (match enc with Some _ => true | None => false end) = false ->
  exists h w1 st,
    open n mode enc w = (inr h, w1)
    /\ _has_changed h = true /\ _name h = remote_path n
    /\ staged h w1 (fs.tmp_name (next_tmp (disk w))) []
    /\ _stream h = Some st
    /\ io.name st = tmpfile h (fs.tmp_name (next_tmp (disk w)))
    /\ io.closed st = false /\ io.can_write st = true /\ io.pos st = 0
    /\ repo w1 = repo w.
Proof.
  intros Hf P Wm E.
  destruct (parse_mode_write _ P Wm) as (Hx & Hr & Ha & Hw).
  destruct (parse_mode_writing _ P Wm) as (Cr & Ca).
  set (d := fs.tmp_name (next_tmp (disk w))).
  set (f1 := {| dirs := d :: dirs (disk w); files := files (disk w);
                next_tmp := S (next_tmp (disk w)) |}).
  assert (Hdir : fs.is_dir d f1 = true).
  { unfold fs.is_dir, f1. cbn [dirs existsb]. rewrite String.eqb_refl. reflexivity. }
  assert (O : io.open (d ++ "/" ++ Py.basename (remote_path n)) mode enc f1
              = (inr {| io.name := (d ++ "/" ++ Py.basename (remote_path n))%string;
                        io.mode := mode; io.encoding := enc;
                        io.can_read := io.reading m || io.updating m;
                        io.can_write := negb (io.reading m) || io.updating m;
                        io.at_end := io.appending m; io.pos := 0;
                        io.closed := false |},
                 fs.write_file (d ++ "/" ++ Py.basename (remote_path n)) [] f1)).
  { erewrite open_in_tmp;
      [ | apply tmp_name_plain | exact Hdir | apply basename_no_slash
        | exact Hf | exact P | exact E ].
    unfold io.open_file. rewrite Hx, Wm, Hr.
    destruct (fs.lookup _ (files f1)); reflexivity. }
  do 3 eexists. split.
  - unfold open, __init__, _open.
    erewrite bind_ok by apply make_temporary_directory_eq.
    erewrite bind_ok by reflexivity.
    cbn [_should_download set_temporary_directory].
    rewrite Cr, Ca. cbn [orb]. fold (remote_path n). fold d. fold f1.
    erewrite bind_ok by reflexivity.
    erewrite bind_ok
      by (apply temporary_filename_eq; [reflexivity | apply tmp_name_plain]).
    unfold tmpfile. cbn [_name].
    erewrite bind_ok by (eapply outside_ok, local_ok; exact O).
    unfold assign, modify. cbn [fst snd repo disk calls]. reflexivity.
  - unfold staged, tmpfile.
    cbn [set_stream _has_changed _name _temporary_directory _stream disk repo
           io.name io.closed io.can_write io.pos].
    rewrite Hr, Hw. cbn [negb orb]. splits; auto.
    + apply tmp_name_plain.
    + apply lookup_write_file.
Qed.

(** A read mode [io.open] accepts, on a path that resolves: the content
    stream is downloaded to the temporary file, and the stream stands at
    its start.  The object the lookup returned goes to [cmis_obj]; the
    documented attribute [cmis_object] stays [None]. *)
Lemma init_read_found (n mode : string) enc (w : world R) m o s1 chunks s2 :
  Py.is_filename (Py.basename (remote_path n)) = true ->
  io.parse_mode mode = Some m -> io.reading m = true ->
  io.binary m && (match enc with Some _ => true | None => false end) = false ->
  getObjectByPath R (remote_path n) (repo w) = (inr o, s1) ->
  getContentStream R o s1 = (inr chunks, s2) ->
  exists h w1 st,
    open n mode enc w = (inr h, w1)
    /\ staged h w1 (fs.tmp_name (next_tmp (disk w))) (concat chunks)
    /\ _stream h = Some st
    /\ io.name st = tmpfile h (fs.tmp_name (next_tmp (disk w)))
    /\ io.closed st = false /\ io.can_read st = true /\ io.pos st = 0
    /\ cmis_object h = None /\ cmis_obj h = Some o
    /\ _has_changed h = false /\ _name h = remote_path n
    /\ repo w1 = s2
    /\ calls w1 = calls w ++ [Call_mkdtemp (fs.tmp_name (next_tmp (disk w)));
                              Call_getObjectByPath (remote_path n);
                              Call_getContentStream o].
Proof.
  intros Hf P Rm E G Cs.
  destruct (parse_mode_reading _ P Rm) as (Hx & Hw & Ha & Cr & Cw).
  set (d := fs.tmp_name (next_tmp (disk w))).
  set (f1 := {| dirs := d :: dirs (disk w); files := files (disk w);
                next_tmp := S (next_tmp (disk w)) |}).
  set (self := Build_CmisFile R None None (remote_path n) true false (Some d) None).
  set (w1 := Build_world R (repo w) f1 (calls w ++ [Call_mkdtemp d])).
  assert (Hdir : fs.is_dir d f1 = true).
  { unfold fs.is_dir, f1. cbn [dirs existsb]. rewrite String.eqb_refl. reflexivity. }
  destruct (download_found self w1 (d:=d) eq_refl (tmp_name_plain _) Hdir Hf G Cs)
    as (f2 & D & L & Dirs).
  cbn [disk w1] in Dirs.
  assert (Hdir2 : fs.is_dir d f2 = true).
  { rewrite (is_dir_same_dirs _ _ _ Dirs). exact Hdir. }
  unfold tmpfile in L. cbn [_name self] in L.
  assert (O : io.open (d ++ "/" ++ Py.basename (remote_path n)) mode enc f2
              = (inr {| io.name := (d ++ "/" ++ Py.basename (remote_path n))%string;
                        io.mode := mode; io.encoding := enc;
                        io.can_read := io.reading m || io.updating m;
                        io.can_write := negb (io.reading m) || io.updating m;
                        io.at_end := io.appending m; io.pos := 0;
                        io.closed := false |}, f2)).
  { erewrite open_in_tmp;
      [ | apply tmp_name_plain | exact Hdir2 | apply basename_no_slash
        | exact Hf | exact P | exact E ].
    unfold io.open_file. rewrite L, Hx, Hw, Ha. reflexivity. }
  do 3 eexists. split.
  - unfold open, __init__, _open.
    erewrite bind_ok by apply make_temporary_directory_eq.
    erewrite bind_ok by reflexivity.
    rewrite Cr, Cw. cbn [orb]. fold (remote_path n). fold d. fold f1.
    cbn [fst _should_download set_temporary_directory cmis_object cmis_obj
           _name _has_changed _temporary_directory _stream].
    fold self.
    erewrite bind_ok
      by (unfold _download_or_mark_changed;
          erewrite try_ok by exact D; reflexivity).
    erewrite bind_ok
      by (apply temporary_filename_eq; [reflexivity | apply tmp_name_plain]).
    unfold tmpfile. cbn [set_cmis_obj _name self].
    erewrite bind_ok by (eapply outside_ok, local_ok; exact O).
    unfold assign, modify. cbn [fst snd repo disk calls]. reflexivity.
  - unfold staged, tmpfile.
    cbn [set_stream set_cmis_obj _has_changed _name _temporary_directory _stream
           cmis_object cmis_obj self disk repo calls w1
           io.name io.closed io.can_read io.pos].
    rewrite Rm. cbn [orb]. rewrite <- app_assoc. splits; auto.
    apply tmp_name_plain.
Qed.

(** Reading from the start of the temporary file returns all of it. *)
Lemma read_from_start (h : CmisFile R) (w : world R) d c st :
  staged h w d c ->
  _stream h = Some st -> io.name st = tmpfile h d ->
  io.closed st = false -> io.can_read st = true -> io.pos st = 0 ->
  io.is_binary st = true ->
  fst (read (h, w)) = inr c.
Proof.
  intros (_ & _ & _ & _ & L) Hs Hn Hc Hr Hp Hb.
  unfold read, bind, attr, outside, local, assign, modify, ret.
  cbn [fst snd]. rewrite Hs. cbn [fst snd].
  rewrite (@read_binary st (disk w) Hc Hr Hb). unfold io.content.
  rewrite Hn, L, Hp. reflexivity.
Qed.

End OpenModes.

(** ** Round trip *)

Section RoundTrip.

Variable R : Repository.

Lemma uploaded_bytes_app (l1 l2 : list (event (robj R))) :
  uploaded_bytes (l1 ++ l2) = uploaded_bytes l1 ++ uploaded_bytes l2.
Proof. apply flat_map_app. Qed.

Lemma walk_only_uploads_nothing (evs : list (event (robj R))) :
  walk_only evs -> uploaded_bytes evs = [].
Proof.
  unfold walk_only. induction evs as [| e evs IH]; intros H; [reflexivity |].
  cbn [forallb] in H. apply andb_true_iff in H. destruct H as [He H].
  destruct e; try discriminate He; exact (IH H).
Qed.

Lemma calls_since_app (w w' : world R) evs :
  calls w' = calls w ++ evs -> calls_since w w' = evs.
Proof.
  intros H. unfold calls_since. rewrite H, skipn_app, skipn_all, Nat.sub_diag.
  reflexivity.
Qed.

(** An [_upload] that returns has handed the repository the content of
    the temporary file, once. *)
Lemma upload_uploads (h h' : CmisFile R) (w w' : world R) d c :
  staged h w d c ->
  _upload (h, w) = (inr tt, (h', w')) ->
  exists evs,
    calls w' = calls w ++ evs /\ uploaded_bytes evs = [c]
    /\ removals evs = [].
Proof.
  intros St U.
  destruct (getObjectByPath R (_name h) (repo w)) as [[e | o] s1] eqn:G.
  - assert (D : (exists status url, e = ObjectNotFoundException status url)
                \/ (forall status url, e <> ObjectNotFoundException status url)).
    { destruct e; try (right; intros; discriminate). left. eauto. }
    destruct D as [(status & url & E) | N].
    + subst e. rewrite (upload_create_runs St G) in U.
      destruct (make_folders _ _ _) as [[e | last] w2] eqn:F; [discriminate |].
      destruct (make_folders_log _ _ _ F) as (evs & C & _ & W).
      cbn [calls] in C. cbn zeta in U.
      destruct (createDocument R last _ c (repo w2)) as [[e | doc] s3];
        [discriminate |].
      injection U as _ Ew. rewrite <- Ew. cbn [calls].
      exists (Call_getObjectByPath (_name h) :: evs
              ++ [Call_createDocument last (snd (Py.os_path_split (_name h))) c]).
      rewrite C, <- !app_assoc. splits; [reflexivity | |].
      * change (uploaded_bytes (Call_getObjectByPath (_name h) :: ?l))
          with (uploaded_bytes l).
        rewrite uploaded_bytes_app, (walk_only_uploads_nothing W). reflexivity.
      * change (removals (Call_getObjectByPath (_name h) :: ?l))
          with (removals l).
        destruct (walk_only_quiet W) as (_ & _ & _ & Q).
        rewrite removals_app, Q. reflexivity.
    + rewrite (upload_lookup_fails St G N) in U. discriminate U.
  - destruct (setContentStream R o c s1) as [r0 s2] eqn:S.
    rewrite (upload_replace St G S) in U.
    destruct r0 as [e | []]; [discriminate |].
    injection U as _ Ew. rewrite <- Ew. cbn [calls].
    exists [Call_getObjectByPath (_name h); Call_setContentStream o c]. auto.
Qed.

(** A [close] that returns on an open, changed handle has uploaded the
    content of the temporary file, once. *)
Lemma close_uploads (h h3 : CmisFile R) (w w3 : world R) d c st :
  staged h w d c -> _stream h = Some st -> io.closed st = false ->
  _has_changed h = true ->
  close (h, w) = (inr tt, (h3, w3)) ->
  exists evs,
    calls w3 = calls w ++ evs /\ uploaded_bytes evs = [c]
    /\ removals evs = [d].
Proof.
  intros St Hs Hc Hch C.
  assert (St0 : staged (set_stream (io.close st) h) w d c).
  { destruct St as (A & B & D & E & F). unfold staged. splits; auto. }
  rewrite (close_open _ _ Hs Hc), Hch in C.
  destruct (_upload _) as [[e | []] [h1 w1]] eqn:U; [discriminate |].
  destruct (upload_uploads St0 U) as (evs & E & Ub & Rm).
  destruct (upload_keeps _ _ U) as [(_ & _ & _ & _ & D1 & _) _].
  cbn [set_stream _temporary_directory] in D1.
  destruct St as (Hd & _). rewrite Hd in D1.
  rewrite (remove_temporary_directory_eq _ _ D1) in C.
  injection C as _ _ Ew. rewrite <- Ew. cbn [calls].
  exists (evs ++ [Call_rmtree d]). rewrite E, <- app_assoc.
  rewrite uploaded_bytes_app, removals_app, Ub, Rm. auto.
Qed.

(** A [close] that returns on an open, changed handle has looked up the
    path of the handle, once. *)
Lemma close_resolves (h h3 : CmisFile R) (w w3 : world R) d c st :
  staged h w d c -> _stream h = Some st -> io.closed st = false ->
  _has_changed h = true ->
  close (h, w) = (inr tt, (h3, w3)) ->
  resolve_attempts (calls_since w w3) = [_name h].
Proof.
  intros St Hs Hc Hch C.
  assert (St0 : staged (set_stream (io.close st) h) w d c).
  { destruct St as (A & B & D & E & F). unfold staged. splits; auto. }
  rewrite (close_open _ _ Hs Hc), Hch in C.
  destruct (_upload _) as [[e | []] [h1 w1]] eqn:U; [discriminate |].
  destruct (upload_resolves_once St0 U) as (evs & E & Ra & _).
  cbn [set_stream _name] in E.
  destruct (upload_keeps _ _ U) as [(_ & _ & _ & _ & D1 & _) _].
  cbn [set_stream _temporary_directory] in D1.
  destruct St as (Hd & _). rewrite Hd in D1.
  rewrite (remove_temporary_directory_eq _ _ D1) in C.
  injection C as _ _ Ew. rewrite <- Ew.
  assert (Cl : calls (Build_world R (repo w1) (snd (fs.rmtree d (disk w1)))
                        (calls w1 ++ [Call_rmtree d]))
               = calls w ++ Call_getObjectByPath (_name h)
                             :: evs ++ [Call_rmtree d]).
  { cbn [calls]. rewrite E, <- app_assoc. reflexivity. }
  rewrite (calls_since_app _ _ _ Cl).
  change (resolve_attempts (Call_getObjectByPath (_name h) :: ?l))
    with (_name h :: resolve_attempts l).
  rewrite resolve_attempts_app, Ra. reflexivity.
Qed.

(** Where a [close] that returns has put the content of the temporary
    file: into the object the path of the handle resolved to, or into a
    new document that carries the final name of the path. *)
Lemma close_uploads_to_path (h h3 : CmisFile R) (w w3 : world R) d c st :
  staged h w d c -> _stream h = Some st -> io.closed st = false ->
  _has_changed h = true ->
  close (h, w) = (inr tt, (h3, w3)) ->
  (exists o s1,
      getObjectByPath R (_name h) (repo w) = (inr o, s1)
      /\ content_replacements (calls_since w w3) = [(o, c)]
      /\ document_creations (calls_since w w3) = [])
  \/
  (exists status url s1 last,
      getObjectByPath R (_name h) (repo w)
        = (inl (ObjectNotFoundException status url), s1)
      /\ document_creations (calls_since w w3)
         = [(last, final_filename (_name h), c)]
      /\ content_replacements (calls_since w w3) = []).
Proof.
  intros St Hs Hc Hch C.
  assert (St0 : staged (set_stream (io.close st) h) w d c).
  { destruct St as (A & B & D & E & F). unfold staged. splits; auto. }
  rewrite (close_open _ _ Hs Hc), Hch in C.
  destruct (_upload _) as [[e | []] [h1 w1]] eqn:U; [discriminate |].
  destruct (upload_keeps _ _ U) as [(_ & _ & _ & _ & D1 & _) _].
  cbn [set_stream _temporary_directory] in D1.
  destruct St as (Hd & _). rewrite Hd in D1.
  rewrite (remove_temporary_directory_eq _ _ D1) in C.
  injection C as _ _ Ew. rewrite <- Ew. clear Ew.
  assert (Since : forall evs,
             calls w1 = calls w ++ evs ->
             calls_since w (Build_world R (repo w1) (snd (fs.rmtree d (disk w1)))
                              (calls w1 ++ [Call_rmtree d]))
             = evs ++ [Call_rmtree d]).
  { intros evs E. apply calls_since_app. cbn [calls].
    rewrite E, <- app_assoc. reflexivity. }
  cbn [set_stream _name] in U.
  destruct (getObjectByPath R (_name h) (repo w)) as [[e | o] s1] eqn:G.
  - assert (D : (exists status url, e = ObjectNotFoundException status url)
                \/ (forall status url, e <> ObjectNotFoundException status url)).
    { destruct e; try (right; intros; discriminate). left. eauto. }
    destruct D as [(status & url & E) | N].
    + subst e. rewrite (upload_create_runs St0 G) in U.
      cbn [set_stream _name] in U.
      destruct (make_folders _ _ _) as [[e | last] w2] eqn:F; [discriminate |].
      destruct (make_folders_log _ _ _ F) as (evs & Cl & _ & W).
      cbn [calls] in Cl. cbn zeta in U.
      destruct (createDocument R last _ c (repo w2)) as [[e | doc] s3];
        [discriminate |].
      injection U as _ Ew. right. exists status, url, s1, last.
      split; [reflexivity |].
      rewrite (Since (Call_getObjectByPath (_name h) :: evs
                      ++ [Call_createDocument last
                            (snd (Py.os_path_split (_name h))) c])).
      * destruct (walk_only_quiet W) as (_ & Dc & Cr & _).
        destruct (os_path_split_segments (_name h)) as (_ & Fn & _).
        rewrite document_creations_app, content_replacements_app.
        change (document_creations (Call_getObjectByPath (_name h) :: ?l))
          with (document_creations l).
        change (content_replacements (Call_getObjectByPath (_name h) :: ?l))
          with (content_replacements l).
        rewrite document_creations_app, content_replacements_app, Dc, Cr, Fn.
        split; reflexivity.
      * rewrite <- Ew. cbn [calls]. rewrite Cl, <- !app_assoc. reflexivity.
    + rewrite (upload_lookup_fails St0 G N) in U. discriminate U.
  - destruct (setContentStream R o c s1) as [r0 s2] eqn:S.
    rewrite (upload_replace St0 G S) in U.
    destruct r0 as [e | []]; [discriminate |].
    injection U as _ Ew. left. exists o, s1.
    split; [reflexivity |].
    rewrite (Since [Call_getObjectByPath (_name h); Call_setContentStream o c]).
    + split; reflexivity.
    + rewrite <- Ew. reflexivity.
Qed.

(** C4, amended.  Let the last component of the remote path of [name] be
    able to name the temporary file.  Opening [name] in a binary write
    mode and writing the bytes [B] both return.  If the close returns, it
    has looked up the path, once, and uploaded [B], once, into the object
    the path resolved to or into a new document of the path's final name;
    and if the repository then returns for the path what the close
    uploaded, opening [name] in a binary read mode returns a handle whose
    [read] yields exactly [B]. *)
Theorem write_close_read_round_trip
    (n wmode rmode : string) (w : world R) (B : bytes) mw mr :
  Py.is_filename (Py.basename (remote_path n)) = true ->
  io.parse_mode wmode = Some mw -> io.writing mw = true ->
  io.binary mw = true ->
  io.parse_mode rmode = Some mr -> io.reading mr = true ->
  io.binary mr = true ->
  exists h w1 h2 w2,
    open n wmode None w = (inr h, w1)
    /\ write B (h, w1) = (inr tt, (h2, w2))
    /\ forall h3 w3,
        close (h2, w2) = (inr tt, (h3, w3)) ->
        resolve_attempts (calls_since w2 w3) = [remote_path n]
        /\ uploaded_bytes (calls_since w2 w3) = [B]
        /\ ((exists o s1,
               getObjectByPath R (remote_path n) (repo w2) = (inr o, s1)
               /\ content_replacements (calls_since w2 w3) = [(o, B)]
               /\ document_creations (calls_since w2 w3) = [])
            \/
            (exists status url s1 last,
               getObjectByPath R (remote_path n) (repo w2)
                 = (inl (ObjectNotFoundException status url), s1)
               /\ document_creations (calls_since w2 w3)
                  = [(last, final_filename (remote_path n), B)]
               /\ content_replacements (calls_since w2 w3) = []))
        /\ (faithful_store (calls_since w2 w3) (repo w3) (remote_path n) ->
            exists h4 w4,
              open n rmode None w3 = (inr h4, w4)
              /\ fst (read (h4, w4)) = inr B).
Proof.
  intros Hf Pw Ww Bw Pr Rr Br.
  destruct (init_write n wmode None w Hf Pw Ww (andb_false_r _))
    as (h & w1 & st & O & Hch & Hn & St & Hs & Hname & Hc & Hcw & Hp & _).
  destruct (write_appends B St Hs Hname Hc Hcw (or_intror Hp))
    as (h2 & w2 & st2 & Wr & St2 & Hch2 & Hn2 & Hs2 & _ & Hc2 & _).
  cbn [app] in St2.
  exists h, w1, h2, w2. splits; [exact O | exact Wr |].
  intros h3 w3 C.
  destruct (close_uploads St2 Hs2 Hc2 Hch2 C) as (evs & E & Ub & _).
  pose proof (close_resolves St2 Hs2 Hc2 Hch2 C) as Ra.
  pose proof (close_uploads_to_path St2 Hs2 Hc2 Hch2 C) as Up.
  rewrite Hn2, Hn in Ra, Up.
  split; [exact Ra |].
  split; [rewrite (calls_since_app _ _ _ E); exact Ub |].
  split; [exact Up |].
  rewrite (calls_since_app _ _ _ E).
  intros F.
  destruct (F B) as (o & s1 & chunks & s2 & G & Cs & Cat).
  { rewrite Ub. left. reflexivity. }
  destruct (init_read_found n rmode None w3 Hf Pr Rr (andb_false_r _) G Cs)
    as (h4 & w4 & st4 & O4 & St4 & Hs4 & Hn4 & Hc4 & Hr4 & Hp4 & _).
  destruct (init_stream_mode _ _ _ _ O4 Pr) as (st' & Hs' & Hb & _).
  assert (st' = st4) by congruence. subst st'. rewrite Br in Hb.
  exists h4, w4. split; [exact O4 |].
  rewrite <- Cat. exact (read_from_start St4 Hs4 Hn4 Hc4 Hr4 Hp4 Hb).
Qed.

End RoundTrip.

(** C4, as stated, fails for a text read mode.  The bytes [a], carriage
    return, [b] are written to [/docs/cr.txt] in mode [wb]; the close
    uploads them, and the repository returns them for the path.  Opening
    the path in mode [r] and reading yields [a], newline, [b]: the text
    stream hands out the carriage return as a newline.  In mode [rb] the
    read yields the bytes written. *)
Lemma text_read_is_not_the_written_bytes :
  fst (write a_cr_b (Run.opened "docs/cr.txt" "wb" TreeRepo.sample)) = inr tt
  /\ fst (close cr_written) = inr tt
  /\ uploaded_bytes (calls_since (snd cr_written) (snd cr_closed)) = [a_cr_b]
  /\ store_returns (R:=TreeRepo.repository) (repo (snd cr_closed))
       "/docs/cr.txt" a_cr_b
  /\ (exists h4 w4,
        open (R:=TreeRepo.repository) "docs/cr.txt" "r" None (snd cr_closed)
          = (inr h4, w4)
        /\ fst (read (h4, w4)) = inr [Byte.x61; Byte.x0a; Byte.x62])
  /\ [Byte.x61; Byte.x0a; Byte.x62] <> a_cr_b
  /\ (exists h4 w4,
        open (R:=TreeRepo.repository) "docs/cr.txt" "rb" None (snd cr_closed)
          = (inr h4, w4)
        /\ fst (read (h4, w4)) = inr a_cr_b).
Proof.
  splits.
  - vm_compute. reflexivity.
  - vm_compute. reflexivity.
  - vm_compute. reflexivity.
  - exists 3, (repo (snd cr_closed)).
    exists [firstn 4 a_cr_b; skipn 4 a_cr_b], (repo (snd cr_closed)).
    splits; vm_compute; reflexivity.
  - do 2 eexists. split; vm_compute; reflexivity.
  - discriminate.
  - do 2 eexists. split; vm_compute; reflexivity.
Qed.

(** ** The temporary file name *)

Section TemporaryPath.

Lemma resolve_components_app (l1 l2 acc : list string) :
  Py.resolve_components acc (l1 ++ l2)
  = Py.resolve_components (Py.resolve_components acc l1) l2.
Proof.
  revert acc. induction l1 as [| c l1 IH]; intros acc; cbn [app Py.resolve_components].
  - reflexivity.
  - destruct (String.eqb c EmptyString || String.eqb c "."); [apply IH |].
    destruct (String.eqb c ".."); apply IH.
Qed.

Lemma is_prefix_refl (l : list string) : Py.is_prefix l l = true.
Proof.
  induction l as [| a l IH]; cbn [Py.is_prefix]; [reflexivity |].
  rewrite String.eqb_refl, IH. reflexivity.
Qed.

Lemma is_prefix_app (l l' : list string) : Py.is_prefix l (l ++ l') = true.
Proof.
  induction l as [| a l IH]; cbn [Py.is_prefix app]; [reflexivity |].
  rewrite String.eqb_refl, IH. reflexivity.
Qed.

Lemma removelast_length (l : list string) : length (removelast l) <= length l.
Proof.
  induction l as [| a l IH]; cbn [removelast]; [lia |].
  destruct l; cbn [length] in *; lia.
Qed.

(** The path [dir/b], for a [b] without slash, names something strictly
    below [dir] exactly when [b] can name a file. *)
Lemma joined_path_inside (d b : string) :
  Py.contains "/" b = false ->
  Py.strictly_inside d (d ++ "/" ++ b) = Py.is_filename b.
Proof.
  intros Hb. unfold Py.strictly_inside, Py.resolved.
  rewrite split_app_slash, (split_no_slash _ Hb), resolve_components_app.
  set (l := Py.resolve_components [] (Py.split "/" d)).
  unfold Py.is_filename. cbn [Py.resolve_components].
  destruct (String.eqb b EmptyString || String.eqb b ".") eqn:E1.
  - rewrite is_prefix_refl, Nat.ltb_irrefl. reflexivity.
  - cbn [orb].
    destruct (String.eqb b "..") eqn:E3; cbn [negb].
    + apply andb_false_intro2. apply Nat.ltb_ge. apply removelast_length.
    + rewrite is_prefix_app, length_app. cbn [length andb].
      apply Nat.ltb_lt. lia.
Qed.

(** For a handle whose last path component can name a file, the temporary
    file lies strictly inside its temporary directory; for the other
    handles it does not. *)
Lemma temporary_filename_inside (R : Repository) (h : CmisFile R) (w : world R) d :
  _temporary_directory h = Some d -> plain_dir d ->
  exists p,
    _temporary_filename (h, w) = (inr p, (h, w))
    /\ Py.strictly_inside d p = Py.is_filename (Py.basename (_name h)).
Proof.
  intros Hd Hp. exists (tmpfile h d). split.
  - apply temporary_filename_eq; assumption.
  - apply joined_path_inside, basename_no_slash.
Qed.

End TemporaryPath.

(** C7, at the failing input [storage.open('..')].  The handle gets the
    remote path [/..] and the temporary directory [/tmp/tmp0]; the local
    path derived from them is [/tmp/tmp0/..], which resolves to [/tmp], the
    parent of the temporary directory and not a path inside it.  ([io.open]
    then refuses the path, a directory, so the open raises.) *)
Lemma dotdot_leaves_the_temporary_directory :
  let self := Build_CmisFile TreeRepo.repository None None (remote_path "..")
                true false None None in
  let made := snd (_make_temporary_directory (self, TreeRepo.start TreeRepo.sample)) in
  _temporary_directory (fst made) = Some "/tmp/tmp0"
  /\ fst (_temporary_filename made) = inr "/tmp/tmp0/.."
  /\ Py.resolved "/tmp/tmp0/.." = ["tmp"]
  /\ Py.strictly_inside "/tmp/tmp0" "/tmp/tmp0/.." = false
  /\ fst (open ".." "r" None (TreeRepo.start TreeRepo.sample))
     = inl (OSError "EISDIR").
Proof. vm_compute. repeat split. Qed.

(** C2, at the failing input [storage.open('docs/a.txt', 'r')] on a
    repository that holds the document.  The download resolves the path to
    object 2 and assigns it to [cmis_obj]; the documented attribute
    [cmis_object] is still [None], and stays [None] through the close. *)
Lemma cmis_object_is_not_assigned :
  cmis_obj (fst Run.reading) = Some 2
  /\ resolve_attempts (calls (snd Run.reading)) = ["/docs/a.txt"]
  /\ cmis_object (fst Run.reading) = None
  /\ cmis_object (fst Run.reading_closed) = None.
Proof. vm_compute. repeat split. Qed.

(** * Witnesses

    Each theorem above that has hypotheses, applied to a run against the
    tree repository. *)

(** [delete] of a path that never existed, and of [/docs/a.txt] which the
    lagging index still lists after the server removed it. *)
Lemma delete_raises_not_found_witness :
  fst (delete (R:=TreeRepo.repository) "nope.txt" false
         (TreeRepo.start TreeRepo.sample))
    = inl (FileNotFoundError "nope.txt")
  /\ fst (delete (R:=TreeRepo.lagging) "/docs/a.txt" false
            (Build_world TreeRepo.lagging TreeRepo.sample_removed
               TreeRepo.empty_disk []))
     = inl (FileNotFoundError "/docs/a.txt").
Proof.
  split.
  - apply (proj1 (delete_raises_not_found (R:=TreeRepo.repository)
                    "nope.txt" false (TreeRepo.start TreeRepo.sample))
             404 "nope.txt" TreeRepo.sample).
    vm_compute. reflexivity.
  - apply (proj2 (delete_raises_not_found (R:=TreeRepo.lagging)
                    "/docs/a.txt" false
                    (Build_world TreeRepo.lagging TreeRepo.sample_removed
                       TreeRepo.empty_disk []))
             2 TreeRepo.sample_removed 500 "delete" TreeRepo.sample_removed).
    + vm_compute. reflexivity.
    + vm_compute. reflexivity.
Defined.

(** [delete('/')]: the root folder is there, the server refuses to delete
    it with a runtime failure, and [delete] reports the path as not
    found. *)
Lemma delete_translates_witness :
  delete (R:=TreeRepo.repository) "/" false (TreeRepo.start TreeRepo.sample)
  = (inl (FileNotFoundError "/"),
     Build_world TreeRepo.repository TreeRepo.sample TreeRepo.empty_disk
       [Call_getObjectByPath "/"; Call_delete 0 false]).
Proof.
  apply (delete_translates_every_runtime_failure (R:=TreeRepo.repository)
           "/" false (TreeRepo.start TreeRepo.sample)
           (o:=0) (s1:=TreeRepo.sample) (status:=500) (url:="delete")).
  - vm_compute. reflexivity.
  - vm_compute. reflexivity.
Defined.



(** The run of the protocol for [/docs/new/b.txt] on the sample: [docs] is
    found, [new] is created as object 3. *)
Lemma sample_protocol :
  creation_protocol (R:=TreeRepo.repository) 0 ["docs"; "new"] TreeRepo.sample
    [Existing TreeRepo.repository "docs" 1; Missing TreeRepo.repository "new" 1 3]
    3
    (TreeRepo.sample
       ++ [{| TreeRepo.parent := 1; TreeRepo.nname := "new";
              TreeRepo.nkind := TreeRepo.Folder; TreeRepo.live := true |}]).
Proof.
  eapply protocol_descend with (children := [1]) (s1 := TreeRepo.sample)
                               (s2 := TreeRepo.sample).
  - reflexivity.
  - apply first_named_here. reflexivity.
  - eapply protocol_create with (children := []) (s1 := TreeRepo.sample)
                                (s2 := TreeRepo.sample).
    + reflexivity.
    + apply first_named_none.
    + reflexivity.
    + apply protocol_done.
Defined.

(** The upload of the written handle on [/docs/new/b.txt]: [docs] is
    reused, [new] is created under it, the document is created under
    [new]. *)
Lemma upload_runs_creation_protocol_witness :
  exists (evs : list (event (robj TreeRepo.repository))) doc w',
    _upload (fst Run.closing_deep, snd Run.closing_deep)
      = (inr tt, (set_cmis_obj doc (fst Run.closing_deep), w'))
    /\ calls w' = calls (snd Run.closing_deep)
         ++ Call_getObjectByPath "/docs/new/b.txt" :: evs
         ++ [Call_createDocument 3 "b.txt" Run.hello]
    /\ folder_creations (R:=TreeRepo.repository) evs = [(1, "new")].
Proof.
  assert (St : staged (fst Run.closing_deep) (snd Run.closing_deep)
                 "/tmp/tmp0" Run.hello).
  { unfold staged. splits.
    - vm_compute. reflexivity.
    - split; [discriminate | vm_compute; reflexivity].
    - vm_compute. reflexivity.
    - vm_compute. reflexivity.
    - vm_compute. reflexivity. }
  assert (G : getObjectByPath TreeRepo.repository
                (_name (fst Run.closing_deep)) (repo (snd Run.closing_deep))
              = (inl (ObjectNotFoundException 404 "/docs/new/b.txt"),
                 TreeRepo.sample)).
  { vm_compute. reflexivity. }
  destruct (proj1 (upload_runs_creation_protocol St G)
              [Existing TreeRepo.repository "docs" 1;
               Missing TreeRepo.repository "new" 1 3]
              3
              (TreeRepo.sample
                 ++ [{| TreeRepo.parent := 1; TreeRepo.nname := "new";
                        TreeRepo.nkind := TreeRepo.Folder; TreeRepo.live := true |}])
              4
              (TreeRepo.sample
                 ++ [{| TreeRepo.parent := 1; TreeRepo.nname := "new";
                        TreeRepo.nkind := TreeRepo.Folder; TreeRepo.live := true |};
                     {| TreeRepo.parent := 3; TreeRepo.nname := "b.txt";
                        TreeRepo.nkind := TreeRepo.Document Run.hello;
                        TreeRepo.live := true |}]))
    as (_ & evs & U & F & _).
  - exact sample_protocol.
  - vm_compute. reflexivity.
  - exists evs, 4. eexists. split; [exact U |]. split; [reflexivity | exact F].
Defined.


(** [hello] written to [/docs/new/b.txt] in mode [wb] and closed, on the
    tree repository, which returns what was stored: opening the path in
    mode [rb] and reading yields [hello]. *)
Lemma round_trip_witness :
  exists h4 w4,
    open (R:=TreeRepo.repository) Run.deep "rb" None (snd Run.closed_deep)
      = (inr h4, w4)
    /\ fst (read (h4, w4)) = inr Run.hello.
Proof.
  destruct (write_close_read_round_trip (R:=TreeRepo.repository)
              Run.deep "wb" "rb" (TreeRepo.start TreeRepo.sample)
              Run.hello
              (mw := {| io.creating := false; io.reading := false;
                        io.writing := true; io.appending := false;
                        io.updating := false; io.text := false;
                        io.binary := true |})
              (mr := {| io.creating := false; io.reading := true;
                        io.writing := false; io.appending := false;
                        io.updating := false; io.text := false;
                        io.binary := true |})
              ltac:(vm_compute; reflexivity) eq_refl eq_refl eq_refl
              eq_refl eq_refl eq_refl)
    as (h & w1 & h2 & w2 & O & Wr & K).
  assert (O' : open (R:=TreeRepo.repository) Run.deep "wb" None
                 (TreeRepo.start TreeRepo.sample)
               = (inr (fst Run.writing_deep), snd Run.writing_deep))
    by (vm_compute; reflexivity).
  assert (Eh : fst Run.writing_deep = h) by congruence.
  assert (Ew : snd Run.writing_deep = w1) by congruence.
  subst h w1.
  assert (Wr' : write Run.hello (fst Run.writing_deep, snd Run.writing_deep)
                = (inr tt, (fst Run.written_deep, snd Run.written_deep)))
    by (vm_compute; reflexivity).
  assert (Eh : fst Run.written_deep = h2) by congruence.
  assert (Ew : snd Run.written_deep = w2) by congruence.
  subst h2 w2.
  destruct (K (fst Run.closed_deep) (snd Run.closed_deep)
              ltac:(vm_compute; reflexivity)) as (_ & _ & _ & K').
  apply K'.
  intros b Hin.
  assert (E : b = Run.hello).
  { vm_compute in Hin. destruct Hin as [E | []]. symmetry. exact E. }
  subst b. exists 4, (repo (snd Run.closed_deep)).
  exists [firstn 4 Run.hello; skipn 4 Run.hello], (repo (snd Run.closed_deep)).
  splits; vm_compute; reflexivity.
Defined.

(** * Further properties of the module *)

(** ** [CmisStorage.exists], [CmisStorage.delete], [CmisStorage.size] *)

Section StorageMore.

Variable R : Repository.

(** X1. [exists(name)] answers with one lookup: [True] when the path
    resolves, [False] when the repository reports it absent; any other
    failure of the lookup is not an answer and is raised unchanged. *)
Theorem exists_answers_the_lookup (name : string) (w : world R) :
  (forall o s',
      getObjectByPath R name (repo w) = (inr o, s') ->
      exists_ name w
      = (inr true, Build_world R s' (disk w) (calls w ++ [Call_getObjectByPath name])))
  /\
  (forall status url s',
      getObjectByPath R name (repo w)
        = (inl (ObjectNotFoundException status url), s') ->
      exists_ name w
      = (inr false, Build_world R s' (disk w) (calls w ++ [Call_getObjectByPath name])))
  /\
  (forall e s',
      getObjectByPath R name (repo w) = (inl e, s') ->
      (forall status url, e <> ObjectNotFoundException status url) ->
      exists_ name w
      = (inl (Cmis e),
         Build_world R s' (disk w) (calls w ++ [Call_getObjectByPath name]))).
Proof.
  splits.
  - intros o s' G. unfold exists_.
    erewrite try_ok; [reflexivity |].
    erewrite bind_ok by (eapply get_object_found; exact G). reflexivity.
  - intros status url s' G. unfold exists_.
    erewrite try_raise
      by (erewrite bind_raise by (eapply get_object_missing; exact G);
          reflexivity).
    reflexivity.
  - intros e s' G N. unfold exists_, _get_object, try_except, bind, call.
    rewrite G. destruct e; try reflexivity. exfalso. eapply N. reflexivity.
Qed.

(** X2. When the lookup and the deletion call both return, [delete]
    returns after exactly these two calls and hands [all_versions] on to
    the deletion call.  A lookup failure other than absence is raised
    unchanged and no deletion is attempted; a failure of the deletion call
    other than the runtime failure is raised unchanged. *)
Theorem delete_calls_and_failures (name : string) (all_versions : bool) (w : world R) :
  (forall o s1 s2,
      getObjectByPath R name (repo w) = (inr o, s1) ->
      delete_object R o all_versions s1 = (inr tt, s2) ->
      delete name all_versions w
      = (inr tt,
         Build_world R s2 (disk w)
           (calls w ++ [Call_getObjectByPath name; Call_delete o all_versions])))
  /\
  (forall e s1,
      getObjectByPath R name (repo w) = (inl e, s1) ->
      (forall status url, e <> ObjectNotFoundException status url) ->
      delete name all_versions w
      = (inl (Cmis e),
         Build_world R s1 (disk w) (calls w ++ [Call_getObjectByPath name])))
  /\
  (forall o s1 e s2,
      getObjectByPath R name (repo w) = (inr o, s1) ->
      delete_object R o all_versions s1 = (inl e, s2) ->
      (forall status url, e <> RuntimeException status url) ->
      delete name all_versions w
      = (inl (Cmis e),
         Build_world R s2 (disk w)
           (calls w ++ [Call_getObjectByPath name; Call_delete o all_versions]))).
Proof.
  splits.
  - intros o s1 s2 G D. unfold delete.
    erewrite bind_ok by (eapply get_object_found; exact G).
    unfold try_except, call. cbn [repo disk calls]. rewrite D.
    rewrite <- app_assoc. reflexivity.
  - intros e s1 G N. unfold delete, _get_object, try_except, bind, call.
    rewrite G. destruct e; try reflexivity. exfalso. eapply N. reflexivity.
  - intros o s1 e s2 G D N. unfold delete.
    erewrite bind_ok by (eapply get_object_found; exact G).
    unfold try_except, call. cbn [repo disk calls]. rewrite D.
    rewrite <- app_assoc.
    destruct e; try reflexivity. exfalso. eapply N. reflexivity.
Qed.

Variable V : Type.
Variable properties : robj R -> rstate R -> (cmis_error + list (string * V)) * rstate R.

Lemma dict_get_absent (key : string) (d : list (string * V)) :
  (forall v, ~ In (key, v) d) -> dict_get key d = None.
Proof.
  induction d as [| [k v] d IH]; intros Hno; [reflexivity |].
  cbn [dict_get]. destruct (String.eqb k key) eqn:K.
  - apply String.eqb_eq in K. subst k. exfalso. apply (Hno v). left. reflexivity.
  - apply IH. intros v' Hin. apply (Hno v'). right. exact Hin.
Qed.

(** X3. [size(name)] raises [FileNotFoundError(name)] when the path is
    absent.  When it resolves, [size] returns what the property dictionary
    of the object holds under [cmis:contentStreamLength]; a dictionary
    without that key gives [None], not an error. *)
Theorem size_reads_the_length_property (name : string) (w : world R) :
  (forall status url s',
      getObjectByPath R name (repo w)
        = (inl (ObjectNotFoundException status url), s') ->
      fst (size properties name w) = inl (FileNotFoundError name))
  /\
  (forall o s1 props s2,
      getObjectByPath R name (repo w) = (inr o, s1) ->
      properties o s1 = (inr props, s2) ->
      fst (size properties name w)
      = inr (dict_get "cmis:contentStreamLength" props)
      /\ ((forall v, ~ In ("cmis:contentStreamLength", v) props) ->
          fst (size properties name w) = inr None)).
Proof.
  split.
  - intros status url s' G. unfold size.
    erewrite bind_raise by (eapply get_object_missing; exact G). reflexivity.
  - intros o s1 props s2 G P.
    assert (E : fst (size properties name w)
                = inr (dict_get "cmis:contentStreamLength" props)).
    { unfold size.
      erewrite bind_ok by (eapply get_object_found; exact G).
      unfold bind, fetch, ret. cbn [repo disk calls]. rewrite P. reflexivity. }
    split; [exact E |].
    intros Hno. rewrite E, (dict_get_absent _ _ Hno). reflexivity.
Qed.

End StorageMore.

(** ** What the methods of a handle keep *)

Section HandleKeeps.

Variable R : Repository.

Lemma remove_temporary_directory_handle (s s' : self_state R) r :
  _remove_temporary_directory s = (r, s') -> fst s' = fst s.
Proof.
  destruct s as [h w]. intros E.
  unfold _remove_temporary_directory, bind, attr, outside, rmtree in E.
  cbn [fst snd] in E. repeat break_match_in E; inversion E; subst; reflexivity.
Qed.

(** [close] assigns the stream and [cmis_obj], nothing else. *)
Lemma close_keeps (h h' : CmisFile R) (w w' : world R) r :
  close (h, w) = (r, (h', w')) ->
  cmis_object h' = cmis_object h /\ _name h' = _name h
  /\ _should_download h' = _should_download h
  /\ _has_changed h' = _has_changed h
  /\ _temporary_directory h' = _temporary_directory h.
Proof.
  intros C. destruct (_stream h) as [st |] eqn:Hs.
  - destruct (io.closed st) eqn:Hc.
    + rewrite (close_closed _ _ Hs Hc) in C. inversion C; subst. splits; reflexivity.
    + rewrite (close_open _ _ Hs Hc) in C.
      destruct (_has_changed h) eqn:Hch.
      * destruct (_upload _) as [[e | u] [h1 w1]] eqn:U;
          destruct (upload_keeps _ _ U) as [(A & B & D & E & F & _) _];
          cbn [set_stream cmis_object _name _should_download _has_changed
                 _temporary_directory] in A, B, D, E, F.
        -- inversion C; subst. splits; congruence.
        -- apply remove_temporary_directory_handle in C. cbn [fst] in C.
           subst h1. splits; congruence.
      * apply remove_temporary_directory_handle in C. cbn [fst] in C.
        subst h'. cbn. splits; congruence.
  - unfold close, closed, bind, attr in C. cbn [fst snd] in C.
    rewrite Hs in C. inversion C; subst. splits; reflexivity.
Qed.

(** No operation on a handle changes its path or its documented
    attribute, and none takes [_has_changed] back. *)
Lemma perform_keeps (op : operation) (h h' : CmisFile R) (w w' : world R) r :
  perform op (h, w) = (r, (h', w')) ->
  cmis_object h' = cmis_object h /\ cmis_obj h' = cmis_obj h
  /\ _name h' = _name h
  /\ _temporary_directory h' = _temporary_directory h
  /\ (_has_changed h = true -> _has_changed h' = true)
  /\ repo w' = repo w /\ calls w' = calls w.
Proof.
  intros H. destruct op as [| data | lines]; cbn [perform] in H;
    unfold read, write, writelines in H; unfold_monad_in H;
    cbn [set_has_changed _stream] in H;
    repeat (break_match_in H; cbn [fst snd repo disk calls] in *;
            try discriminate);
    inversion H; subst; clear H;
    repeat match goal with
      | E : (_, _) = (_, _) |- _ => inversion E; subst; clear E
      end;
    cbn; splits; auto.
Qed.

End HandleKeeps.

(** ** Opening a path that resolves *)

Section Downloaded.

Variable R : Repository.

Lemma parse_mode_download (mode : string) m :
  io.parse_mode mode = Some m -> io.reading m || io.appending m = true ->
  io.creating m = false /\ io.writing m = false
  /\ Py.contains "r" mode || Py.contains "a" mode = true
  /\ Py.contains "w" mode = false.
Proof.
  intros P A. destruct (parse_mode_flags _ P) as (_ & Er & Ew & Ea & One).
  rewrite <- Er, <- Ew, <- Ea.
  destruct (io.creating m), (io.reading m), (io.writing m), (io.appending m);
    cbn in One, A; try discriminate; auto.
Qed.

(** A read or append mode [io.open] accepts, on a path that resolves: the
    content stream is downloaded to the temporary file, on which the stream
    is then opened as the mode says. *)
Lemma init_download_found (n mode : string) enc (w : world R) m o s1 chunks s2 :
  Py.is_filename (Py.basename (remote_path n)) = true ->
  io.parse_mode mode = Some m -> io.reading m || io.appending m = true ->
  io.binary m && (match enc with Some _ => true | None => false end) = false ->
  getObjectByPath R (remote_path n) (repo w) = (inr o, s1) ->
  getContentStream R o s1 = (inr chunks, s2) ->
  exists h w1 st,
    open n mode enc w = (inr h, w1)
    /\ staged h w1 (fs.tmp_name (next_tmp (disk w))) (concat chunks)
    /\ _stream h = Some st
    /\ io.name st = tmpfile h (fs.tmp_name (next_tmp (disk w)))
    /\ io.closed st = false
    /\ io.can_read st = io.reading m || io.updating m
    /\ io.can_write st = negb (io.reading m) || io.updating m
    /\ io.at_end st = io.appending m
    /\ io.pos st = (if io.appending m then length (concat chunks) else 0)
    /\ cmis_obj h = Some o
    /\ _has_changed h = false /\ _name h = remote_path n
    /\ repo w1 = s2
    /\ calls w1 = calls w ++ [Call_mkdtemp (fs.tmp_name (next_tmp (disk w)));
                              Call_getObjectByPath (remote_path n);
                              Call_getContentStream o].
Proof.
  intros Hf P Dm E G Cs.
  destruct (parse_mode_download _ P Dm) as (Hx & Hw & Cd & Cw).
  set (d := fs.tmp_name (next_tmp (disk w))).
  set (f1 := {| dirs := d :: dirs (disk w); files := files (disk w);
                next_tmp := S (next_tmp (disk w)) |}).
  set (self := Build_CmisFile R None None (remote_path n) true false (Some d) None).
  set (w1 := Build_world R (repo w) f1 (calls w ++ [Call_mkdtemp d])).
  assert (Hdir : fs.is_dir d f1 = true).
  { unfold fs.is_dir, f1. cbn [dirs existsb]. rewrite String.eqb_refl. reflexivity. }
  destruct (download_found self w1 (d:=d) eq_refl (tmp_name_plain _) Hdir Hf G Cs)
    as (f2 & D & L & Dirs).
  cbn [disk w1] in Dirs.
  assert (Hdir2 : fs.is_dir d f2 = true).
  { rewrite (is_dir_same_dirs _ _ _ Dirs). exact Hdir. }
  unfold tmpfile in L. cbn [_name self] in L.
  assert (O : io.open (d ++ "/" ++ Py.basename (remote_path n)) mode enc f2
              = (inr {| io.name := (d ++ "/" ++ Py.basename (remote_path n))%string;
                        io.mode := mode; io.encoding := enc;
                        io.can_read := io.reading m || io.updating m;
                        io.can_write := negb (io.reading m) || io.updating m;
                        io.at_end := io.appending m;
                        io.pos := if io.appending m
                                  then length (concat chunks) else 0;
                        io.closed := false |}, f2)).
  { erewrite open_in_tmp;
      [ | apply tmp_name_plain | exact Hdir2 | apply basename_no_slash
        | exact Hf | exact P | exact E ].
    unfold io.open_file. rewrite L, Hx, Hw.
    destruct (io.appending m); reflexivity. }
  do 3 eexists. split.
  - unfold open, __init__, _open.
    erewrite bind_ok by apply make_temporary_directory_eq.
    erewrite bind_ok by reflexivity.
    rewrite Cd, Cw. fold (remote_path n). fold d. fold f1.
    cbn [fst _should_download set_temporary_directory cmis_object cmis_obj
           _name _has_changed _temporary_directory _stream].
    fold self.
    erewrite bind_ok
      by (unfold _download_or_mark_changed;
          erewrite try_ok by exact D; reflexivity).
    erewrite bind_ok
      by (apply temporary_filename_eq; [reflexivity | apply tmp_name_plain]).
    unfold tmpfile. cbn [set_cmis_obj _name self].
    erewrite bind_ok by (eapply outside_ok, local_ok; exact O).
    unfold assign, modify. cbn [fst snd repo disk calls]. reflexivity.
  - unfold staged, tmpfile.
    cbn [set_stream set_cmis_obj _has_changed _name _temporary_directory _stream
           cmis_object cmis_obj self disk repo calls w1
           io.name io.closed io.can_read io.can_write io.at_end io.pos].
    rewrite <- app_assoc. splits; auto.
    apply tmp_name_plain.
Qed.

End Downloaded.

(** ** Download at open, close without change *)

Section OpenClose.

Variable R : Repository.

(** X4. Opening a path that resolves, in a read or an append mode that
    [io.open] accepts, downloads it: after exactly one [mkdtemp], one lookup
    and one [getContentStream], the temporary file holds the chunks of the
    content stream in the order they arrived, the handle is returned
    unchanged ([_has_changed] false), and in a binary read mode [read]
    yields the downloaded bytes. *)
Theorem open_downloads_in_arrival_order
    (n mode : string) enc (w : world R) m o s1 chunks s2 :
  Py.is_filename (Py.basename (remote_path n)) = true ->
  io.parse_mode mode = Some m -> io.reading m || io.appending m = true ->
  io.binary m && (match enc with Some _ => true | None => false end) = false ->
  getObjectByPath R (remote_path n) (repo w) = (inr o, s1) ->
  getContentStream R o s1 = (inr chunks, s2) ->
  exists h w1 p,
    open n mode enc w = (inr h, w1)
    /\ _temporary_filename (h, w1) = (inr p, (h, w1))
    /\ fs.lookup p (files (disk w1)) = Some (concat chunks)
    /\ _has_changed h = false
    /\ calls w1 = calls w ++ [Call_mkdtemp (fs.tmp_name (next_tmp (disk w)));
                              Call_getObjectByPath (remote_path n);
                              Call_getContentStream o]
    /\ (io.reading m = true -> io.binary m = true ->
        fst (read (h, w1)) = inr (concat chunks)).
Proof.
  intros Hf P Dm E G Cs.
  destruct (init_download_found n mode enc w Hf P Dm E G Cs)
    as (h & w1 & st & O & St & Hs & Hn & Hc & Hr & _ & _ & Hp & _ & Hch & _ & _ & Cl).
  exists h, w1, (tmpfile h (fs.tmp_name (next_tmp (disk w)))).
  pose proof St as (Hd & Hpl & _ & _ & L).
  splits; auto.
  - apply temporary_filename_eq; assumption.
  - intros Rm Bm. destruct (parse_mode_reading _ P Rm) as (_ & _ & Ha & _).
    rewrite Ha in Hp. rewrite Rm in Hr.
    destruct (init_stream_mode _ _ _ _ O P) as (st' & Hs' & Hb & _).
    assert (st' = st) by congruence. subst st'. rewrite Bm in Hb.
    exact (read_from_start St Hs Hn Hc Hr Hp Hb).
Qed.

Lemma startswith_app (a b : string) : Py.startswith a (a ++ b) = true.
Proof.
  induction a as [| c a IH]; cbn [Py.startswith append]; [reflexivity |].
  rewrite Ascii.eqb_refl, IH. reflexivity.
Qed.

Lemma lookup_after_rmtree (d b : string) (f : filesystem) :
  fs.is_dir d f = true ->
  fs.lookup (d ++ "/" ++ b) (files (snd (fs.rmtree d f))) = None.
Proof.
  intros Hdir. unfold fs.rmtree. rewrite Hdir. cbn [snd files].
  induction (files f) as [| [q c] l IH]; cbn [filter fs.lookup fst];
    [reflexivity |].
  destruct (Py.startswith (d ++ "/") q) eqn:S; cbn [negb]; [exact IH |].
  cbn [fs.lookup]. destruct (String.eqb q (d ++ "/" ++ b)) eqn:Q; [| exact IH].
  apply String.eqb_eq in Q. subst q.
  rewrite <- string_app_assoc, startswith_app in S. discriminate S.
Qed.

(** Closing an open handle that has not changed: the stream is closed and
    the temporary directory removed, nothing else. *)
Lemma close_unchanged (h : CmisFile R) (w : world R) d c st :
  staged h w d c -> _stream h = Some st -> io.closed st = false ->
  _has_changed h = false ->
  close (h, w)
  = (inr tt,
     (set_stream (io.close st) h,
      Build_world R (repo w) (snd (fs.rmtree d (disk w)))
        (calls w ++ [Call_rmtree d]))).
Proof.
  intros (Hd & _ & Hdir & _) Hs Hc Hch.
  rewrite (close_open _ _ Hs Hc), Hch.
  rewrite (remove_temporary_directory_eq _ _ (d:=d)) by exact Hd.
  cbn [repo disk calls]. rewrite (rmtree_existing _ _ Hdir). reflexivity.
Qed.

(** X5. Closing a handle that has not changed, whatever was read from it
    since it was opened, uploads nothing: [close] returns after the one
    call that removes the temporary directory, the repository is neither
    called nor changed, and the temporary directory and the temporary file
    are gone from the disk. *)
Theorem close_of_unchanged_handle_uploads_nothing
    (n mode : string) enc (w w1 w2 : world R) h ops h2 :
  open n mode enc w = (inr h, w1) ->
  perform_all ops (h, w1) = (h2, w2) ->
  _has_changed h2 = false ->
  exists d p h3 w3,
    _temporary_directory h2 = Some d
    /\ _temporary_filename (h2, w2) = (inr p, (h2, w2))
    /\ close (h2, w2) = (inr tt, (h3, w3))
    /\ calls w3 = calls w2 ++ [Call_rmtree d]
    /\ repo w3 = repo w2
    /\ fs.is_dir d (disk w3) = false
    /\ fs.lookup p (files (disk w3)) = None.
Proof.
  intros O P Hch.
  destruct (init_open_handle _ _ _ _ O) as (Ho & _ & _).
  destruct (perform_all_keeps_open _ Ho P) as (Ho2 & _ & _ & _ & _).
  destruct Ho2 as (d & c & st & St & Hs & Hn & Hc).
  pose proof St as (Hd & Hpl & Hdir & _ & _).
  exists d, (tmpfile h2 d). do 2 eexists.
  split; [exact Hd |].
  split; [apply temporary_filename_eq; assumption |].
  split; [exact (close_unchanged St Hs Hc Hch) |].
  cbn [repo disk calls]. splits; auto.
  - apply rmtree_removes.
  - apply lookup_after_rmtree. exact Hdir.
Qed.

End OpenClose.

(** ** Writing to a downloaded file *)

Section WriteMore.

Variable R : Repository.

(** A write the stream refuses still marks the handle changed. *)
Lemma write_refused (h : CmisFile R) (w : world R) st data :
  _stream h = Some st -> io.closed st || negb (io.can_write st) = true ->
  write data (h, w)
  = (inl (io.write_error st),
     (set_has_changed true h, Build_world R (repo w) (disk w) (calls w))).
Proof.
  intros Hs Hw. unfold write.
  erewrite bind_ok by reflexivity.
  erewrite bind_ok
    by (unfold attr; cbn [fst set_has_changed _stream]; rewrite Hs; reflexivity).
  erewrite bind_raise; [reflexivity |].
  apply outside_raise, local_ok. unfold io.write. rewrite Hw. reflexivity.
Qed.





End WriteMore.

(** ** What is uploaded *)

Section Uploaded.

Variable R : Repository.

Lemma staged_marked (h : CmisFile R) (w : world R) d c :
  staged h w d c ->
  staged (set_has_changed true h) (Build_world R (repo w) (disk w) (calls w)) d c.
Proof. intros (A & B & C & D & E). unfold staged. splits; auto. Qed.

(** X6. A [write] on a handle opened in a read-only mode is refused by the
    stream, a binary one with the message [write], a text one with the
    message [not writable]; but the handle is marked changed before the
    stream is asked: the write raises, [_has_changed] is true, and a close
    that returns has uploaded the bytes that were downloaded, unchanged. *)
Theorem refused_write_still_marks_changed
    (n mode : string) enc (w : world R) m o s1 chunks s2 data :
  Py.is_filename (Py.basename (remote_path n)) = true ->
  io.parse_mode mode = Some m ->
  io.reading m = true -> io.updating m = false ->
  io.binary m && (match enc with Some _ => true | None => false end) = false ->
  getObjectByPath R (remote_path n) (repo w) = (inr o, s1) ->
  getContentStream R o s1 = (inr chunks, s2) ->
  exists h w1 h2 w2,
    open n mode enc w = (inr h, w1)
    /\ _has_changed h = false
    /\ write data (h, w1)
       = (inl (UnsupportedOperation
                 (if io.binary m then "write" else "not writable")), (h2, w2))
    /\ _has_changed h2 = true
    /\ forall h3 w3,
        close (h2, w2) = (inr tt, (h3, w3)) ->
        uploaded_bytes (calls_since w2 w3) = [concat chunks].
Proof.
  intros Hf P Rm Um E G Cs.
  assert (Dm : io.reading m || io.appending m = true) by (rewrite Rm; reflexivity).
  destruct (init_download_found n mode enc w Hf P Dm E G Cs)
    as (h & w1 & st & O & St & Hs & Hn & Hc & _ & Hw & _ & _ & _ & Hch & _).
  rewrite Rm, Um in Hw. cbn [negb orb] in Hw.
  destruct (init_stream_mode _ _ _ _ O P) as (st' & Hs' & Hb & _).
  assert (st' = st) by congruence. subst st'.
  assert (We : io.write_error st
               = UnsupportedOperation
                   (if io.binary m then "write" else "not writable")).
  { unfold io.write_error. rewrite Hb, Hc, Hw. destruct (io.binary m); reflexivity. }
  exists h, w1. do 2 eexists.
  split; [exact O |]. split; [exact Hch |].
  split; [rewrite <- We; apply write_refused;
          [exact Hs | rewrite Hc, Hw; reflexivity] |].
  split; [reflexivity |].
  intros h3 w3 C.
  destruct (close_uploads (staged_marked St) (st:=st) Hs Hc eq_refl C)
    as (evs & Ev & Ub & _).
  rewrite (calls_since_app _ _ _ Ev). exact Ub.
Qed.




End Uploaded.

(** ** Failures at close *)

Section CloseFailures.

Variable R : Repository.


(** X11. [_has_changed] is never reset.  [write] and [writelines] set it
    whether or not the stream takes the data; no operation and no close
    takes it back. *)
Theorem has_changed_is_never_reset :
  (forall (h h' : CmisFile R) (w w' : world R) data r,
      write data (h, w) = (r, (h', w')) -> _has_changed h' = true)
  /\
  (forall (h h' : CmisFile R) (w w' : world R) lines r,
      writelines lines (h, w) = (r, (h', w')) -> _has_changed h' = true)
  /\
  (forall op (h h' : CmisFile R) (w w' : world R) r,
      perform op (h, w) = (r, (h', w')) ->
      _has_changed h = true -> _has_changed h' = true)
  /\
  (forall (h h' : CmisFile R) (w w' : world R) r,
      close (h, w) = (r, (h', w')) -> _has_changed h' = _has_changed h).
Proof.
  splits.
  - intros h h' w w' data r H. unfold write in H. unfold_monad_in H.
    cbn [set_has_changed _stream] in H.
    repeat (break_match_in H; cbn [fst snd repo disk calls] in *; try discriminate);
      inversion H; subst; reflexivity.
  - intros h h' w w' lines r H. unfold writelines in H. unfold_monad_in H.
    cbn [set_has_changed _stream] in H.
    repeat (break_match_in H; cbn [fst snd repo disk calls] in *; try discriminate);
      inversion H; subst; reflexivity.
  - intros op h h' w w' r H. exact (proj1 (proj2 (proj2 (proj2 (proj2
      (perform_keeps _ _ _ H)))))).
  - intros h h' w w' r H.
    exact (proj1 (proj2 (proj2 (proj2 (close_keeps _ _ H))))).
Qed.


End CloseFailures.

(** ** Failures at open *)

Section OpenFailures.

Variable R : Repository.

(** [_download_or_mark_changed] calls the repository at most twice and
    never removes a directory. *)
Lemma download_or_mark_calls (mode : string) (h h' : CmisFile R) (w w' : world R) r :
  _download_or_mark_changed mode (h, w) = (r, (h', w')) ->
  exists evs, calls w' = calls w ++ evs /\ removals evs = [].
Proof.
  intros H.
  unfold _download_or_mark_changed, _download, _temporary_filename, _get_object in H.
  unfold_monad_in H.
  repeat (break_match_in H; cbn [fst snd repo disk calls] in *;
          try discriminate);
    inversion H; subst; clear H;
    repeat match goal with
      | E : (_, _) = (_, _) |- _ => inversion E; subst; clear E
      end;
    cbn [calls];
    match goal with
    | |- exists evs, (?a ++ ?b) ++ ?c = ?a ++ evs /\ _ =>
        exists (b ++ c); split; [symmetry; apply app_assoc | reflexivity]
    | |- exists evs, ?a ++ ?b = ?a ++ evs /\ _ =>
        exists b; split; reflexivity
    | |- exists evs, ?a = ?a ++ evs /\ _ =>
        exists []; split; [symmetry; apply app_nil_r | reflexivity]
    end.
Qed.

(** X13. An open that raises leaves its temporary directory behind.
    [_open] makes the directory first and nothing removes it when a later
    step raises, whatever the step and the error: the path is absent and the
    mode reads, the repository fails, the last component cannot name a file,
    or [io.open] refuses the mode.  The caller gets no handle to close. *)
Theorem failed_open_leaves_its_directory
    (n mode : string) enc (w w' : world R) e :
  open n mode enc w = (inl e, w') ->
  fs.is_dir (fs.tmp_name (next_tmp (disk w))) (disk w') = true
  /\ exists evs,
      calls w' = calls w ++ Call_mkdtemp (fs.tmp_name (next_tmp (disk w))) :: evs
      /\ removals evs = [].
Proof.
  unfold open, __init__.
  set (self := Build_CmisFile R None None _ _ _ None None).
  destruct (_open mode enc (self, w)) as [[e' | u] [h3 w3]] eqn:O; [| discriminate].
  intros H; inversion H; subst; clear H.
  unfold _open in O.
  erewrite bind_ok in O by apply make_temporary_directory_eq.
  erewrite bind_ok in O by reflexivity.
  set (d := fs.tmp_name (next_tmp (disk w))) in *.
  unfold bind at 1 in O.
  match type of O with
  | context [match ?c ?s with _ => _ end] =>
      assert (K : exists r h2 w2 evs,
                 c s = (r, (h2, w2))
                 /\ _temporary_directory h2 = Some d
                 /\ dirs (disk w2) = d :: dirs (disk w)
                 /\ calls w2 = calls w ++ Call_mkdtemp d :: evs
                 /\ removals evs = [])
  end.
  { cbn [fst set_temporary_directory _should_download].
    destruct (_should_download self).
    - destruct (_download_or_mark_changed _ _) as [r [h2 w2]] eqn:D.
      destruct (download_or_mark_keeps _ _ _ D) as (_ & _ & C & _ & F).
      destruct (download_or_mark_calls _ _ _ D) as (evs & Cl & Rm).
      cbn [calls] in Cl.
      exists r, h2, w2, evs. splits; auto.
      rewrite Cl, <- app_assoc. reflexivity.
    - exists (inr tt). do 2 eexists. exists []. splits; reflexivity. }
  destruct K as (r & h2 & w2 & evs & E & Hd & Hdirs & Cl & Rm).
  assert (Hdir : forall f, dirs f = dirs (disk w2) -> fs.is_dir d f = true).
  { intros f Ef. unfold fs.is_dir. rewrite Ef, Hdirs. cbn [existsb].
    rewrite String.eqb_refl. reflexivity. }
  rewrite E in O. destruct r as [e0 | u'].
  - inversion O; subst. split; [apply Hdir; reflexivity | eauto].
  - erewrite bind_ok in O
      by (apply temporary_filename_eq; [exact Hd | apply tmp_name_plain]).
    unfold bind at 1, outside at 1, local at 1 in O. cbn [fst snd] in O.
    destruct (io.open _ mode enc (disk w2)) as [[e0 | st] f3] eqn:Op.
    + inversion O; subst. cbn [disk calls].
      split; [apply Hdir; exact (open_keeps_dirs _ _ _ _ Op) | eauto].
    + unfold assign, modify in O. discriminate O.
Qed.

(** [_download] when the content stream cannot be fetched. *)
Lemma download_stream_fails (h : CmisFile R) (w : world R) d o s1 err s2 :
  _temporary_directory h = Some d -> plain_dir d ->
  fs.is_dir d (disk w) = true ->
  Py.is_filename (Py.basename (_name h)) = true ->
  getObjectByPath R (_name h) (repo w) = (inr o, s1) ->
  getContentStream R o s1 = (inl err, s2) ->
  _download (h, w) =
    (inl (Cmis err),
     (set_cmis_obj o h,
      Build_world R s2 (fs.write_file (tmpfile h d) [] (disk w))
        (calls w ++ [Call_getObjectByPath (_name h); Call_getContentStream o]))).
Proof.
  intros Hd Hp Hdir Hf G Cs. unfold _download.
  erewrite bind_ok by (apply temporary_filename_eq; eassumption).
  erewrite bind_ok
    by (eapply outside_ok, local_ok, open_wb; eauto using basename_no_slash).
  erewrite bind_ok by reflexivity.
  erewrite bind_ok by (eapply outside_ok, get_object_found; exact G).
  erewrite bind_ok by reflexivity.
  erewrite bind_raise by (eapply outside_raise, call_raise; exact Cs).
  cbn [fst snd repo disk calls set_cmis_obj].
  rewrite <- app_assoc. reflexivity.
Qed.

(** X14. Only the lookup's not-found signal counts as absence.  When the
    path resolves but the content stream cannot be fetched, an open that
    downloads (a mode with [r] or [a] in it) raises the repository's error
    unchanged, also in an append mode and also when that error is itself a
    not-found signal; the handle is not marked changed and no stream is
    opened. *)
Theorem open_raises_the_content_stream_failure
    (n mode : string) enc (w : world R) o s1 err s2 :
  Py.is_filename (Py.basename (remote_path n)) = true ->
  Py.contains "r" mode || Py.contains "a" mode = true ->
  getObjectByPath R (remote_path n) (repo w) = (inr o, s1) ->
  getContentStream R o s1 = (inl err, s2) ->
  exists w',
    open n mode enc w = (inl (Cmis err), w')
    /\ repo w' = s2
    /\ calls w' = calls w ++ [Call_mkdtemp (fs.tmp_name (next_tmp (disk w)));
                              Call_getObjectByPath (remote_path n);
                              Call_getContentStream o].
Proof.
  intros Hf Cd G Cs.
  set (d := fs.tmp_name (next_tmp (disk w))).
  set (f1 := {| dirs := d :: dirs (disk w); files := files (disk w);
                next_tmp := S (next_tmp (disk w)) |}).
  set (self := Build_CmisFile R None None (remote_path n) true
                 (Py.contains "w" mode) (Some d) None).
  set (w1 := Build_world R (repo w) f1 (calls w ++ [Call_mkdtemp d])).
  assert (Hdir : fs.is_dir d f1 = true).
  { unfold fs.is_dir, f1. cbn [dirs existsb]. rewrite String.eqb_refl. reflexivity. }
  pose proof (download_stream_fails self w1 (d:=d) eq_refl (tmp_name_plain _)
                Hdir Hf G Cs) as D.
  eexists. split.
  - unfold open, __init__, _open.
    erewrite bind_ok by apply make_temporary_directory_eq.
    erewrite bind_ok by reflexivity.
    rewrite Cd. fold (remote_path n). fold d. fold f1.
    cbn [fst _should_download set_temporary_directory cmis_object cmis_obj
           _name _has_changed _temporary_directory _stream].
    fold self.
    erewrite bind_raise
      by (unfold _download_or_mark_changed;
          erewrite try_raise by exact D; reflexivity).
    reflexivity.
  - cbn [repo calls w1]. rewrite <- app_assoc. split; reflexivity.
Qed.

End OpenFailures.

(** ** Scoped use and iteration *)

Section ScopedFacts.

Variable R : Repository.

Lemma perform_keeps_stream (op : operation) (h h' : CmisFile R) (w w' : world R) r :
  perform op (h, w) = (r, (h', w')) ->
  (exists st, _stream h = Some st) -> exists st', _stream h' = Some st'.
Proof.
  intros H. destruct op as [| data | lines]; cbn [perform] in H;
    unfold read, write, writelines in H; unfold_monad_in H;
    cbn [set_has_changed _stream] in H;
    repeat (break_match_in H; cbn [fst snd repo disk calls] in *;
            try discriminate);
    inversion H; subst; clear H;
    repeat match goal with
      | E : (_, _) = (_, _) |- _ => inversion E; subst; clear E
      end;
    intros [st0 E0]; cbn in *; first [congruence | eauto].
Qed.

Lemma perform_seq_keeps_stream (ops : list operation) :
  forall (h h' : CmisFile R) (w w' : world R) r,
    perform_seq ops (h, w) = (r, (h', w')) ->
    (exists st, _stream h = Some st) -> exists st', _stream h' = Some st'.
Proof.
  induction ops as [| op rest IH]; intros h h' w w' r H Hs.
  - inversion H; subst. exact Hs.
  - cbn [perform_seq] in H. unfold bind in H.
    destruct (perform op (h, w)) as [[e | u] [h1 w1]] eqn:P.
    + inversion H; subst. exact (perform_keeps_stream _ _ _ P Hs).
    + exact (IH _ _ _ _ _ H (perform_keeps_stream _ _ _ P Hs)).
Qed.

(** X15. A handle used in a [with] block is closed however the block is
    left: whether the operations of the body all return or one of them
    raises, the stream is closed afterwards and a further [close] does
    nothing.  [__exit__] does not swallow the error of the body: when the
    body raised and the close returned, the block raises what the body
    raised. *)
Theorem with_block_closes_on_every_path
    (ops : list operation) (h h' : CmisFile R) (w w' : world R) st r :
  _stream h = Some st ->
  with_block (perform_seq ops) (h, w) = (r, (h', w')) ->
  (exists st', _stream h' = Some st' /\ io.closed st' = true)
  /\ close (h', w') = (inr tt, (h', w'))
  /\ (forall e s1,
        perform_seq ops (h, w) = (inl e, s1) ->
        fst (close s1) = inr tt -> r = inl e).
Proof.
  intros Hs H. unfold with_block in H. cbn [__enter__ ret] in H.
  unfold __enter__, ret in H.
  destruct (perform_seq ops (h, w)) as [rb [h1 w1]] eqn:B.
  destruct (perform_seq_keeps_stream _ _ _ B (ex_intro _ st Hs)) as [st1 Hs1].
  unfold __exit__ in H.
  destruct (close (h1, w1)) as [rc [h2 w2]] eqn:C.
  destruct (close_leaves_closed _ _ Hs1 C) as (st2 & Hs2 & Hc2).
  assert (E : (h2, w2) = (h', w')) by (destruct rc; inversion H; reflexivity).
  inversion E; subst h2 w2. splits.
  - eauto.
  - exact (close_closed _ _ Hs2 Hc2).
  - intros e s1 Eb Cr. inversion Eb; subst. rewrite C in Cr. cbn [fst] in Cr.
    subst rc. inversion H; reflexivity.
Qed.

Lemma split_lines_concat (l : bytes) :
  forall cur, concat (split_lines cur l) = cur ++ l.
Proof.
  induction l as [| b rest IH]; intros cur; cbn [split_lines].
  - destruct cur; cbn [concat]; rewrite ?app_nil_r; reflexivity.
  - destruct (Byte.eqb b Byte.x0a).
    + cbn [concat]. rewrite IH, <- app_assoc. reflexivity.
    + rewrite IH, <- app_assoc. reflexivity.
Qed.

Lemma split_lines_nonempty (l : bytes) :
  forall cur, Forall (fun x => x <> []) (split_lines cur l).
Proof.
  induction l as [| b rest IH]; intros cur; cbn [split_lines].
  - destruct cur; constructor; [discriminate | constructor].
  - destruct (Byte.eqb b Byte.x0a); [| apply IH].
    constructor; [| apply IH]. destruct cur; discriminate.
Qed.

(** A line holds no newline before its last byte. *)
Lemma split_lines_newline_last (l : bytes) :
  forall cur, ~ In Byte.x0a cur ->
    Forall (fun x => ~ In Byte.x0a (removelast x)) (split_lines cur l).
Proof.
  induction l as [| b rest IH]; intros cur Hcur; cbn [split_lines].
  - destruct cur as [| c cur']; constructor; [| constructor].
    intros Hin. apply Hcur.
    rewrite (app_removelast_last c (l:=c :: cur')) by discriminate.
    apply in_or_app. left. exact Hin.
  - destruct (Byte.eqb b Byte.x0a) eqn:Eb.
    + constructor.
      * rewrite removelast_last. exact Hcur.
      * apply IH. intros [].
    + apply IH. intros Hin. apply in_app_or in Hin. destruct Hin as [Hin | [Hin | []]].
      * exact (Hcur Hin).
      * apply Byte.eqb_false in Eb. exact (Eb Hin).
Qed.

(** Every line but the last one ends with the newline. *)
Lemma split_lines_ends (l : bytes) :
  forall cur i x,
    nth_error (split_lines cur l) i = Some x ->
    S i < length (split_lines cur l) ->
    last x Byte.x00 = Byte.x0a.
Proof.
  induction l as [| b rest IH]; intros cur i x Hn Hi; cbn [split_lines] in *.
  - destruct cur; cbn [length] in Hi; lia.
  - destruct (Byte.eqb b Byte.x0a) eqn:Eb.
    + destruct i as [| j]; cbn [nth_error length] in *.
      * inversion Hn; subst. rewrite last_last.
        exact (Byte.byte_dec_bl _ _ Eb).
      * apply (IH [] j x Hn). lia.
    + exact (IH _ i x Hn Hi).
Qed.

(** X16. Iterating over a handle opened in a binary read mode on a path
    that resolves yields the downloaded content line by line: the lines put
    together are the content as it arrived, no line is empty, a line holds
    the newline byte at most as its last byte, and every line but the last
    one ends with it. *)
Theorem iteration_yields_the_lines_of_the_content
    (n mode : string) enc (w : world R) m o s1 chunks s2 :
  Py.is_filename (Py.basename (remote_path n)) = true ->
  io.parse_mode mode = Some m ->
  io.reading m = true -> io.binary m = true ->
  io.binary m && (match enc with Some _ => true | None => false end) = false ->
  getObjectByPath R (remote_path n) (repo w) = (inr o, s1) ->
  getContentStream R o s1 = (inr chunks, s2) ->
  exists h w1 lines,
    open n mode enc w = (inr h, w1)
    /\ fst (__iter__ (h, w1)) = inr lines
    /\ concat lines = concat chunks
    /\ Forall (fun l => l <> []) lines
    /\ Forall (fun l => ~ In Byte.x0a (removelast l)) lines
    /\ (forall i l, nth_error lines i = Some l -> S i < length lines ->
                    last l Byte.x00 = Byte.x0a).
Proof.
  intros Hf P Rm Bm E G Cs.
  assert (Dm : io.reading m || io.appending m = true) by (rewrite Rm; reflexivity).
  destruct (parse_mode_reading _ P Rm) as (_ & _ & Ha & _).
  destruct (init_download_found n mode enc w Hf P Dm E G Cs)
    as (h & w1 & st & O & St & Hs & Hn & Hc & Hr & _ & _ & Hp & _).
  rewrite Rm in Hr. cbn [orb] in Hr. rewrite Ha in Hp.
  destruct (init_stream_mode _ _ _ _ O P) as (st' & Hs' & Hb & _).
  assert (st' = st) by congruence. subst st'. rewrite Bm in Hb.
  destruct St as (_ & _ & _ & _ & L).
  exists h, w1, (split_lines [] (concat chunks)). splits.
  - exact O.
  - unfold __iter__, bind, attr, outside, local, stream_lines, assign, modify, ret.
    cbn [fst snd]. rewrite Hs. cbn [fst snd]. rewrite Hc. unfold bind.
    rewrite (@read_binary st (disk w1) Hc Hr Hb). unfold io.content.
    rewrite Hn, L, Hp. reflexivity.
  - apply split_lines_concat.
  - apply split_lines_nonempty.
  - apply split_lines_newline_last. intros [].
  - apply split_lines_ends.
Qed.

(** X17. A closed handle refuses reading and writing.  After [close], in
    whatever way it ended, [read] and [write] raise what the closed stream
    raises: a text stream the error of the closed file; a binary stream
    the error of the closed file when it can do what is asked, and the
    error of the unsupported operation when it cannot.  The write still
    marks the handle changed, but its data is lost: a later [close] takes
    the handle for closed, so nothing is uploaded. *)
Theorem closed_handle_refuses_io
    (n mode : string) enc (w w1 w2 w3 : world R) h ops h2 r h3 m data :
  open n mode enc w = (inr h, w1) ->
  io.parse_mode mode = Some m ->
  perform_all ops (h, w1) = (h2, w2) ->
  close (h2, w2) = (r, (h3, w3)) ->
  fst (read (h3, w3))
    = inl (if io.binary m
           then if io.reading m || io.updating m
                then ValueError "read of closed file"
                else UnsupportedOperation "read"
           else ValueError "I/O operation on closed file.")
  /\ exists h4,
      write data (h3, w3)
      = (inl (if io.binary m
              then if negb (io.reading m) || io.updating m
                   then ValueError "write to closed file"
                   else UnsupportedOperation "write"
              else ValueError "I/O operation on closed file."),
         (h4, w3))
      /\ _has_changed h4 = true
      /\ close (h4, w3) = (inr tt, (h4, w3)).
Proof.
  intros O P Pf C.
  destruct (init_stream_mode _ _ _ _ O P) as (st & Hs & Hb & Hr & Hw).
  destruct (perform_all_keeps_kind _ _ _ Pf Hs) as (st2 & Hs2 & K2).
  destruct (close_keeps_kind _ _ C Hs2) as (st3 & Hs3 & Hc3 & K3).
  destruct (same_kind_trans K2 K3) as (Km & Kr & Kw).
  assert (Hb3 : io.is_binary st3 = io.binary m).
  { unfold io.is_binary in *. rewrite Km. exact Hb. }
  rewrite Hr in Kr. rewrite Hw in Kw.
  destruct w3 as [s f evs]. split.
  - unfold read, bind, attr, outside, local, io.read. cbn [fst snd].
    rewrite Hs3. cbn [fst snd disk]. rewrite Hc3. cbn [orb fst].
    unfold io.read_error. rewrite Hb3, Kr, Hc3. reflexivity.
  - exists (set_has_changed true h3). splits.
    + rewrite (write_refused _ _ data Hs3) by (rewrite Hc3; reflexivity).
      unfold io.write_error. rewrite Hb3, Kw, Hc3. reflexivity.
    + reflexivity.
    + apply (close_closed (set_has_changed true h3) _ (st:=st3)); assumption.
Qed.

End ScopedFacts.

(** ** Exclusive creation *)

Section Exclusive.

Variable R : Repository.



End Exclusive.

(** ** The name of a handle *)

Section Name.

Variable R : Repository.

Lemma remote_path_rooted (n : string) : Py.startswith "/" (remote_path n) = true.
Proof.
  unfold remote_path. destruct (Py.startswith "/" n) eqn:S; [exact S |].
  apply startswith_app.
Qed.

(** X19. The name of a handle is the name it was opened with, with a slash
    put in front unless it has one already; it starts with a slash, and no
    read, write or close changes it. *)
Theorem name_is_rooted_and_fixed
    (n mode : string) enc (w w1 w2 w3 : world R) h ops h2 r h3 :
  open n mode enc w = (inr h, w1) ->
  perform_all ops (h, w1) = (h2, w2) ->
  close (h2, w2) = (r, (h3, w3)) ->
  name (h, w1) = (inr (remote_path n), (h, w1))
  /\ name (h3, w3) = (inr (remote_path n), (h3, w3))
  /\ Py.startswith "/" (remote_path n) = true
  /\ (Py.startswith "/" n = true -> remote_path n = n)
  /\ (Py.startswith "/" n = false -> remote_path n = ("/" ++ n)%string).
Proof.
  intros O P C.
  destruct (init_open_handle _ _ _ _ O) as (Ho & Hn & _).
  destruct (perform_all_keeps_open _ Ho P) as (_ & Hn2 & _).
  destruct (close_keeps _ _ C) as (_ & Hn3 & _).
  fold (remote_path n) in Hn.
  splits.
  - unfold name, this, gets. cbn [fst]. rewrite Hn. reflexivity.
  - unfold name, this, gets. cbn [fst]. rewrite Hn3, Hn2, Hn. reflexivity.
  - apply remote_path_rooted.
  - intros S. unfold remote_path. rewrite S. reflexivity.
  - intros S. unfold remote_path. rewrite S. reflexivity.
Qed.

End Name.

(** * Witnesses of the further properties

    Each of them applied to a run against the tree repository, the
    read-only server or the server that denies every request. *)

Ltac run := vm_compute; reflexivity.

(** [exists] of the document, of an absent path, and on the server that
    denies the lookup. *)
Lemma exists_answers_witness :
  fst (exists_ (R:=TreeRepo.repository) "/docs/a.txt" (TreeRepo.start TreeRepo.sample))
    = inr true
  /\ fst (exists_ (R:=TreeRepo.repository) "nope.txt" (TreeRepo.start TreeRepo.sample))
     = inr false
  /\ fst (exists_ (R:=denied) "/a.txt" denied_start)
     = inl (Cmis (PermissionDeniedException 403 "/a.txt")).
Proof.
  splits.
  - rewrite (proj1 (exists_answers_the_lookup (R:=TreeRepo.repository)
                      "/docs/a.txt" (TreeRepo.start TreeRepo.sample))
               2 TreeRepo.sample ltac:(run)).
    reflexivity.
  - rewrite (proj1 (proj2 (exists_answers_the_lookup (R:=TreeRepo.repository)
                             "nope.txt" (TreeRepo.start TreeRepo.sample)))
               404 "nope.txt" TreeRepo.sample ltac:(run)).
    reflexivity.
  - rewrite (proj2 (proj2 (exists_answers_the_lookup (R:=denied)
                             "/a.txt" denied_start))
               (PermissionDeniedException 403 "/a.txt") tt ltac:(run)
               ltac:(intros; discriminate)).
    reflexivity.
Defined.

(** [delete] of the document on the tree repository, on the server that
    denies the lookup, and on the read-only server, which finds the
    document and refuses to delete it. *)
Lemma delete_calls_witness :
  calls (snd (delete (R:=TreeRepo.repository) "/docs/a.txt" true
                (TreeRepo.start TreeRepo.sample)))
    = [Call_getObjectByPath "/docs/a.txt"; Call_delete 2 true]
  /\ delete (R:=denied) "/a.txt" false denied_start
     = (inl (Cmis (PermissionDeniedException 403 "/a.txt")),
        @Build_world denied tt TreeRepo.empty_disk [Call_getObjectByPath "/a.txt"])
  /\ fst (delete (R:=read_only) "/docs/a.txt" false read_only_start)
     = inl (Cmis (PermissionDeniedException 403 "delete")).
Proof.
  splits.
  - rewrite (proj1 (delete_calls_and_failures (R:=TreeRepo.repository)
                      "/docs/a.txt" true (TreeRepo.start TreeRepo.sample))
               2 TreeRepo.sample
               (snd (TreeRepo.delete_object 2 true TreeRepo.sample))
               ltac:(run) ltac:(run)).
    reflexivity.
  - rewrite (proj1 (proj2 (delete_calls_and_failures (R:=denied)
                             "/a.txt" false denied_start))
               (PermissionDeniedException 403 "/a.txt") tt ltac:(run)
               ltac:(intros; discriminate)).
    reflexivity.
  - rewrite (proj2 (proj2 (delete_calls_and_failures (R:=read_only)
                             "/docs/a.txt" false read_only_start))
               2 TreeRepo.sample (PermissionDeniedException 403 "delete")
               TreeRepo.sample ltac:(run) ltac:(run)
               ltac:(intros; discriminate)).
    reflexivity.
Defined.

(** [size] of an absent path, of the document (fifteen bytes) and of the
    folder, which has no length. *)
Lemma size_witness :
  fst (size (R:=TreeRepo.repository) tree_properties "nope.txt" (TreeRepo.start TreeRepo.sample))
    = inl (FileNotFoundError "nope.txt")
  /\ fst (size (R:=TreeRepo.repository) tree_properties "/docs/a.txt" (TreeRepo.start TreeRepo.sample))
     = inr (Some 15)
  /\ fst (size (R:=TreeRepo.repository) tree_properties "/docs" (TreeRepo.start TreeRepo.sample))
     = inr None.
Proof.
  splits.
  - exact (proj1 (size_reads_the_length_property (R:=TreeRepo.repository)
                    tree_properties "nope.txt" (TreeRepo.start TreeRepo.sample))
             404 "nope.txt" TreeRepo.sample ltac:(run)).
  - exact (proj1 (proj2 (size_reads_the_length_property (R:=TreeRepo.repository)
                           tree_properties "/docs/a.txt"
                           (TreeRepo.start TreeRepo.sample))
                    2 TreeRepo.sample [("cmis:contentStreamLength"%string, 15)]
                    TreeRepo.sample ltac:(run) ltac:(run))).
  - apply (proj2 (proj2 (size_reads_the_length_property (R:=TreeRepo.repository)
                           tree_properties "/docs"
                           (TreeRepo.start TreeRepo.sample))
                    1 TreeRepo.sample [] TreeRepo.sample ltac:(run) ltac:(run))).
    intros v [].
Defined.

(** [/docs/a.txt] opened in mode [rb]: the two chunks make up the
    temporary file, and [read] returns them. *)
Lemma open_downloads_witness :
  exists h w1 p,
    open (R:=TreeRepo.repository) "docs/a.txt" "rb" None
      (TreeRepo.start TreeRepo.sample) = (inr h, w1)
    /\ _temporary_filename (h, w1) = (inr p, (h, w1))
    /\ fs.lookup p (files (disk w1)) = Some fox
    /\ calls w1 = [Call_mkdtemp "/tmp/tmp0"; Call_getObjectByPath "/docs/a.txt";
                   Call_getContentStream 2]
    /\ fst (read (h, w1)) = inr fox.
Proof.
  destruct (open_downloads_in_arrival_order (R:=TreeRepo.repository)
              "docs/a.txt" "rb" None (TreeRepo.start TreeRepo.sample)
              (m:=flags "rb") (o:=2) (s1:=TreeRepo.sample)
              (chunks:=[firstn 4 fox; skipn 4 fox]) (s2:=TreeRepo.sample)
              ltac:(run) ltac:(run) ltac:(run) ltac:(run) ltac:(run) ltac:(run))
    as (h & w1 & p & O & T & L & _ & Cl & Rd).
  exists h, w1, p. splits.
  - exact O.
  - exact T.
  - exact L.
  - exact Cl.
  - exact (Rd eq_refl eq_refl).
Defined.

(** [/docs/a.txt] opened in mode [r], read, and closed: the only call of
    the close is the removal of the temporary directory. *)
Lemma close_unchanged_witness :
  exists d p h3 w3,
    _temporary_filename (snd (read Run.reading)) = (inr p, snd (read Run.reading))
    /\ close (snd (read Run.reading)) = (inr tt, (h3, w3))
    /\ calls w3 = calls (snd Run.reading) ++ [Call_rmtree d]
    /\ repo w3 = TreeRepo.sample
    /\ fs.is_dir d (disk w3) = false
    /\ fs.lookup p (files (disk w3)) = None.
Proof.
  destruct (close_of_unchanged_handle_uploads_nothing (R:=TreeRepo.repository)
              "docs/a.txt" "r" None (TreeRepo.start TreeRepo.sample)
              (w1:=snd Run.reading) (h:=fst Run.reading) [Read]
              (w2:=snd (perform_all [Read] Run.reading))
              (h2:=fst (perform_all [Read] Run.reading))
              ltac:(run) ltac:(run) ltac:(run))
    as (d & p & h3 & w3 & _ & T & C & Cl & Rp & Dr & L).
  exists d, p, h3, w3. splits.
  - exact T.
  - exact C.
  - exact Cl.
  - exact Rp.
  - exact Dr.
  - exact L.
Defined.

(** Two results of the same run name the same handle and world. *)
Ltac pin h w X :=
  let Eh := fresh "Eh" in
  let Ew := fresh "Ew" in
  assert (Eh : fst X = h) by congruence;
  assert (Ew : snd X = w) by congruence;
  subst h w.

(** [/docs/a.txt] opened in mode [rb]: the write is refused, the handle is
    marked, and the close uploads the fifteen bytes it downloaded. *)
Lemma refused_write_witness :
  exists h w1 h2 w2 h3 w3,
    open (R:=TreeRepo.repository) "docs/a.txt" "rb" None
      (TreeRepo.start TreeRepo.sample) = (inr h, w1)
    /\ write Run.hello (h, w1)
       = (inl (UnsupportedOperation "write"), (h2, w2))
    /\ _has_changed h2 = true
    /\ close (h2, w2) = (inr tt, (h3, w3))
    /\ uploaded_bytes (calls_since w2 w3) = [fox].
Proof.
  destruct (refused_write_still_marks_changed (R:=TreeRepo.repository)
              "docs/a.txt" "rb" None (TreeRepo.start TreeRepo.sample)
              (m:=flags "rb") (o:=2) (s1:=TreeRepo.sample)
              (chunks:=[firstn 4 fox; skipn 4 fox]) (s2:=TreeRepo.sample)
              Run.hello
              ltac:(run) ltac:(run) ltac:(run) ltac:(run) ltac:(run)
              ltac:(run) ltac:(run))
    as (h & w1 & h2 & w2 & O & _ & Wr & Hch & K).
  pose (X := Run.opened "docs/a.txt" "rb" TreeRepo.sample).
  assert (O' : open (R:=TreeRepo.repository) "docs/a.txt" "rb" None
                 (TreeRepo.start TreeRepo.sample) = (inr (fst X), snd X))
    by run.
  pin h w1 X.
  pose (Y := Run.after (write Run.hello) X).
  assert (Wr' : write Run.hello (fst X, snd X)
                = (inl (UnsupportedOperation "write"), (fst Y, snd Y)))
    by run.
  pin h2 w2 Y.
  pose (Z := Run.after (@close TreeRepo.repository) Y).
  assert (C : close (fst Y, snd Y) = (inr tt, (fst Z, snd Z))) by run.
  exists (fst X), (snd X), (fst Y), (snd Y), (fst Z), (snd Z).
  splits; [exact O | exact Wr | exact Hch | exact C | exact (K _ _ C)].
Defined.





(** The refused write on [/docs/a.txt] opened for reading marks the
    handle, and the close of the handle leaves the mark as it was. *)
Lemma has_changed_witness :
  _has_changed (fst (Run.after (write Run.hello) Run.reading)) = true
  /\ _has_changed (fst Run.reading_closed) = _has_changed (fst Run.reading).
Proof.
  split.
  - exact (proj1 (has_changed_is_never_reset TreeRepo.repository)
             (fst Run.reading) (fst (Run.after (write Run.hello) Run.reading))
             (snd Run.reading) (snd (Run.after (write Run.hello) Run.reading))
             Run.hello (inl (UnsupportedOperation "not writable"))
             ltac:(run)).
  - exact (proj2 (proj2 (proj2 (has_changed_is_never_reset TreeRepo.repository)))
             (fst Run.reading) (fst Run.reading_closed)
             (snd Run.reading) (snd Run.reading_closed) (inr tt)
             ltac:(run)).
Defined.


(** [/docs/new/b.txt] is absent: opening it in mode [rb] raises, and
    [/tmp/tmp0] is left on the disk. *)
Lemma failed_open_witness :
  fst (open (R:=TreeRepo.repository) Run.deep "rb" None
         (TreeRepo.start TreeRepo.sample))
    = inl (FileNotFoundError "/docs/new/b.txt")
  /\ fs.is_dir "/tmp/tmp0"
       (disk (snd (open (R:=TreeRepo.repository) Run.deep "rb" None
                     (TreeRepo.start TreeRepo.sample)))) = true
  /\ exists evs,
      calls (snd (open (R:=TreeRepo.repository) Run.deep "rb" None
                    (TreeRepo.start TreeRepo.sample)))
        = Call_mkdtemp "/tmp/tmp0" :: evs
      /\ removals evs = [].
Proof.
  destruct (failed_open_leaves_its_directory (R:=TreeRepo.repository)
              Run.deep "rb" None (TreeRepo.start TreeRepo.sample)
              (w':=snd (open (R:=TreeRepo.repository) Run.deep "rb" None
                          (TreeRepo.start TreeRepo.sample)))
              (e:=FileNotFoundError "/docs/new/b.txt")
              ltac:(run))
    as (D & evs & Cl & Rm).
  splits; [run | exact D |].
  exists evs. split; [exact Cl | exact Rm].
Defined.

(** The folder [/docs] opened in mode [ab]: the path resolves, the folder
    has no content stream, and the open raises the server's answer. *)
Lemma content_stream_failure_witness :
  exists w',
    open (R:=TreeRepo.repository) "docs" "ab" None (TreeRepo.start TreeRepo.sample)
    = (inl (Cmis (NotSupportedException 405 "content")), w')
    /\ repo w' = TreeRepo.sample
    /\ calls w' = [Call_mkdtemp "/tmp/tmp0"; Call_getObjectByPath "/docs";
                   Call_getContentStream 1].
Proof.
  exact (open_raises_the_content_stream_failure (R:=TreeRepo.repository)
           "docs" "ab" None (TreeRepo.start TreeRepo.sample)
           (o:=1) (s1:=TreeRepo.sample)
           (err:=NotSupportedException 405 "content") (s2:=TreeRepo.sample)
           ltac:(run) ltac:(run) ltac:(run) ltac:(run)).
Defined.

(** [/docs/a.txt] opened for reading and used in a block that reads and
    then writes: the write raises, the block closes the handle and raises
    what the write raised. *)
Lemma with_block_witness :
  fst (reading_block (fst Run.reading, snd Run.reading))
    = inl (UnsupportedOperation "not writable")
  /\ exists st',
      _stream (fst (snd (reading_block (fst Run.reading, snd Run.reading))))
        = Some st'
      /\ io.closed st' = true.
Proof.
  pose (B := reading_block (fst Run.reading, snd Run.reading)).
  destruct (with_block_closes_on_every_path (R:=TreeRepo.repository)
              [Read; Write Run.hello]
              (fst Run.reading) (h':=fst (snd B)) (snd Run.reading)
              (w':=snd (snd B)) (st:=Run.stream_of Run.reading) (r:=fst B)
              ltac:(run) ltac:(run))
    as (Cl & _ & K).
  split; [| exact Cl].
  exact (K (UnsupportedOperation "not writable")
           (snd (perform_seq [Read; Write Run.hello]
                   (fst Run.reading, snd Run.reading)))
           ltac:(run) ltac:(run)).
Defined.

(** [/poem.txt] opened in mode [rb] and iterated over: two lines, the
    first one with its newline. *)
Lemma iteration_witness :
  exists h w1 lines,
    open (R:=TreeRepo.repository) "poem.txt" "rb" None (TreeRepo.start poem)
      = (inr h, w1)
    /\ fst (__iter__ (h, w1)) = inr lines
    /\ lines = [fox ++ [Byte.x0a]; dog]
    /\ concat lines = fox ++ [Byte.x0a] ++ dog.
Proof.
  destruct (iteration_yields_the_lines_of_the_content (R:=TreeRepo.repository)
              "poem.txt" "rb" None (TreeRepo.start poem)
              (m:=flags "rb") (o:=1) (s1:=poem)
              (chunks:=[firstn 4 (fox ++ [Byte.x0a] ++ dog);
                        skipn 4 (fox ++ [Byte.x0a] ++ dog)])
              (s2:=poem)
              ltac:(run) ltac:(run) ltac:(run) ltac:(run) ltac:(run)
              ltac:(run) ltac:(run))
    as (h & w1 & lines & O & It & Cc & _).
  pose (X := Run.opened "poem.txt" "rb" poem).
  assert (O' : open (R:=TreeRepo.repository) "poem.txt" "rb" None
                 (TreeRepo.start poem) = (inr (fst X), snd X))
    by run.
  pin h w1 X.
  assert (It' : fst (__iter__ (fst X, snd X)) = inr [fox ++ [Byte.x0a]; dog])
    by run.
  exists (fst X), (snd X), lines. splits.
  - exact O.
  - exact It.
  - congruence.
  - exact Cc.
Defined.

(** [/docs/a.txt] opened in mode [rb], read and closed: a read on the
    closed handle raises the error of the closed file, a write the error
    of the unsupported operation, and the handle the write marked is still
    taken for closed. *)
Lemma closed_refuses_witness :
  exists h3 w3 h4,
    close (perform_all [Read] (Run.opened "docs/a.txt" "rb" TreeRepo.sample))
      = (inr tt, (h3, w3))
    /\ fst (read (h3, w3)) = inl (ValueError "read of closed file")
    /\ write Run.hello (h3, w3) = (inl (UnsupportedOperation "write"), (h4, w3))
    /\ _has_changed h4 = true
    /\ close (h4, w3) = (inr tt, (h4, w3)).
Proof.
  pose (X := Run.opened "docs/a.txt" "rb" TreeRepo.sample).
  pose (Y := perform_all [Read] X).
  pose (Z := Run.after (@close TreeRepo.repository) Y).
  destruct (closed_handle_refuses_io (R:=TreeRepo.repository)
              "docs/a.txt" "rb" None (TreeRepo.start TreeRepo.sample)
              (w1:=snd X) (w2:=snd Y) (w3:=snd Z) (h:=fst X) [Read]
              (h2:=fst Y) (r:=inr tt) (h3:=fst Z) (m:=flags "rb") Run.hello
              ltac:(run) ltac:(run) ltac:(run) ltac:(run))
    as (Rd & h4 & Wr & Hch & C).
  exists (fst Z), (snd Z), h4. splits.
  - run.
  - exact Rd.
  - exact Wr.
  - exact Hch.
  - exact C.
Defined.


(** [docs/a.txt] opened, closed: the handle is named [/docs/a.txt] before
    and after. *)
Lemma name_witness :
  name (fst Run.reading, snd Run.reading)
    = (inr "/docs/a.txt"%string, (fst Run.reading, snd Run.reading))
  /\ name (fst Run.reading_closed, snd Run.reading_closed)
     = (inr "/docs/a.txt"%string, (fst Run.reading_closed, snd Run.reading_closed)).
Proof.
  destruct (name_is_rooted_and_fixed (R:=TreeRepo.repository)
              "docs/a.txt" "r" None (TreeRepo.start TreeRepo.sample)
              (w1:=snd Run.reading) (w2:=snd Run.reading)
              (w3:=snd Run.reading_closed) (h:=fst Run.reading) []
              (h2:=fst Run.reading) (r:=inr tt) (h3:=fst Run.reading_closed)
              ltac:(run) ltac:(run) ltac:(run))
    as (N1 & N3 & _).
  split; [exact N1 | exact N3].
Defined.
